(** * Ship proxy system

    A shallow embedding of the framing protocol ([utils/protocol.py]), the
    ship-side request multiplexer ([client/client.py]) and the offshore
    request processor ([server/server.py]), with the properties the
    specification states about them. *)

From Stdlib Require Import String Ascii.
From Stdlib Require Import Strings.Byte.
From Stdlib Require Import ZArith List Lia Bool DecimalString.
From Equations Require Import Equations.
Import ListNotations.
Open Scope Z_scope.

(** ** Python values: bytes, text, exceptions *)

Module Py.

(** [bytes] objects; a [str] is its sequence of code points. *)
Definition bytes := list byte.
Definition str := list Z.

Definition len {A : Type} (l : list A) : Z := Z.of_nat (length l).

Definition Z_of_byte (b : byte) : Z := Z.of_N (Byte.to_N b).

Definition byte_of_Z (z : Z) : byte :=
  match Byte.of_N (Z.to_N (z mod 256)) with
  | Some b => b
  | None => x00
  end.

(** The exception classes the three modules tell apart in their
    [except] clauses; [exn_str] is what [str(e)] gives. *)
Inductive exn_class :=
| StructError
| SocketTimeout
| SocketGaierror
| ConnectionRefused
| SSLError
| ValueError
| UnicodeDecodeError
| UnicodeEncodeError
| OtherException.

Record exn := mk_exn { exn_cls : exn_class; exn_str : str }.

Inductive pyres (A : Type) :=
| Ret (a : A)
| Raise (e : exn).
Arguments Ret {A} a.
Arguments Raise {A} e.

Definition bind {A B : Type} (m : pyres A) (k : A -> pyres B) : pyres B :=
  match m with
  | Ret a => k a
  | Raise e => Raise e
  end.

Definition is_socket_timeout (e : exn) : bool :=
  match exn_cls e with SocketTimeout => true | _ => false end.

(** A literal of the source, as code points and as bytes. *)
Definition text (s : string) : str :=
  map (fun a => Z.of_N (N_of_ascii a)) (list_ascii_of_string s).

Definition lit (s : string) : bytes := list_byte_of_string s.

Definition struct_error : exn :=
  mk_exn StructError (text "argument out of range").

(** [struct.pack('>I', n)] and [struct.pack('B', n)]: out of range raises
    [struct.error]. *)
Definition struct_pack_I (n : Z) : pyres bytes :=
  if (0 <=? n) && (n <? 2 ^ 32) then
    Ret [byte_of_Z (n / 2 ^ 24); byte_of_Z (n / 2 ^ 16);
         byte_of_Z (n / 2 ^ 8); byte_of_Z n]
  else Raise struct_error.

Definition struct_pack_B (n : Z) : pyres bytes :=
  if (0 <=? n) && (n <? 256) then Ret [byte_of_Z n]
  else Raise struct_error.

(** [struct.unpack('>I', b)[0]] and [struct.unpack('B', b)[0]]: a buffer
    of the wrong size raises [struct.error]. *)
Definition struct_unpack_I (b : bytes) : pyres Z :=
  match b with
  | [b3; b2; b1; b0] =>
      Ret (Z_of_byte b3 * 2 ^ 24 + Z_of_byte b2 * 2 ^ 16
           + Z_of_byte b1 * 2 ^ 8 + Z_of_byte b0)
  | _ => Raise struct_error
  end.

Definition struct_unpack_B (b : bytes) : pyres Z :=
  match b with
  | [b0] => Ret (Z_of_byte b0)
  | _ => Raise struct_error
  end.

End Py.
Import Py.

Notation "x <- m ;; k" := (Py.bind m (fun x => k))
  (at level 61, m at next level, right associativity).

(** ** Sockets

    A TCP socket as the program sees it: what [recv] will deliver (segments
    of at least one byte, or an exception; nothing left means the peer has
    closed), how the coming [sendall] calls end, and the bytes written so
    far. *)

Module Net.

Inductive recv_event :=
| Seg (b : byte) (bs : bytes)
| RecvRaise (e : exn).

Inductive send_event :=
| SendAll
| SendRaise (written : nat) (e : exn).

Record socket := mk_socket {
  inbox : list recv_event;
  outbox : list send_event;
  sent : bytes
}.

Definition set_inbox (sock : socket) (i : list recv_event) : socket :=
  mk_socket i (outbox sock) (sent sock).

Definition unseg (data : bytes) (rest : list recv_event) : list recv_event :=
  match data with
  | [] => rest
  | b :: bs => Seg b bs :: rest
  end.

(** [sock.recv(bufsize)]: at most [bufsize] bytes of the next segment;
    [b''] once the peer has closed. *)
Definition recv (sock : socket) (bufsize : Z) : pyres bytes * socket :=
  match inbox sock with
  | [] => (Ret [], sock)
  | Seg b bs :: rest =>
      let k := Z.to_nat bufsize in
      (Ret (firstn k (b :: bs)),
       set_inbox sock (unseg (skipn k (b :: bs)) rest))
  | RecvRaise e :: rest => (Raise e, set_inbox sock rest)
  end.

(** [sock.sendall(data)]: all of [data] is written, or an exception after
    part of it. With no event left the call succeeds. *)
Definition sendall (sock : socket) (data : bytes) : pyres unit * socket :=
  match outbox sock with
  | [] => (Ret tt, mk_socket (inbox sock) [] (sent sock ++ data))
  | SendAll :: rest =>
      (Ret tt, mk_socket (inbox sock) rest (sent sock ++ data))
  | SendRaise k e :: rest =>
      (Raise e, mk_socket (inbox sock) rest (sent sock ++ firstn k data))
  end.

(** The bytes [recv] can deliver before the stream closes or raises, and
    what follows them. *)
Fixpoint pending (evs : list recv_event) : bytes :=
  match evs with
  | Seg b bs :: rest => (b :: bs) ++ pending rest
  | _ => []
  end.

Fixpoint after_pending (evs : list recv_event) : list recv_event :=
  match evs with
  | Seg _ _ :: rest => after_pending rest
  | _ => evs
  end.

End Net.
Import Net.

(** ** utils/protocol.py *)

Module Protocol.

Definition MSG_REQUEST : Z := 0.
Definition MSG_RESPONSE : Z := 1.

(** The buffer [send_message] hands to [sendall]: [header + payload]. *)
Definition frame (msg_type : Z) (payload : bytes) : pyres bytes :=
  let payload_length := len payload in
  l <- struct_pack_I payload_length ;;
  t <- struct_pack_B msg_type ;;
  let header := l ++ t in
  Ret (header ++ payload).

Definition send_message (sock : socket) (msg_type : Z) (payload : bytes)
  : bool * socket :=
  match frame msg_type payload with
  | Ret data =>
      match sendall sock data with
      | (Ret _, sock') => (true, sock')
      | (Raise _, sock') => (false, sock')
      end
  | Raise _ => (false, sock)
  end.

(** The [while len(data) < num_bytes] loop of [_read_exact]; every turn
    that goes on has added at least one byte. *)
Equations? _read_exact_loop (sock : socket) (num_bytes : Z) (data : bytes)
  : option bytes * socket
  by wf (Z.to_nat (num_bytes - len data)) lt :=
  _read_exact_loop sock num_bytes data
    with Z_lt_dec (len data) num_bytes := {
    | right _ => (Some data, sock)
    | left Hlt with recv sock (num_bytes - len data) := {
      | (Ret [], sock') => (None, sock')
      | (Ret (c :: cs), sock') =>
          _read_exact_loop sock' num_bytes (data ++ c :: cs)
      | (Raise e, sock') =>
          if is_socket_timeout e then (None, sock') else (None, sock') } }.
Proof.
  unfold len in *. rewrite length_app. simpl length. lia.
Qed.

Definition _read_exact (sock : socket) (num_bytes : Z)
  : option bytes * socket :=
  _read_exact_loop sock num_bytes [].

(** The [try] block of [read_message]. *)
Definition read_message_body (sock : socket)
  : pyres (option Z * option bytes) * socket :=
  match _read_exact sock 5 with
  | (None, sock1) => (Ret (None, None), sock1)
  | (Some [], sock1) => (Ret (None, None), sock1)
  | (Some header, sock1) =>
      match (payload_length <- struct_unpack_I (firstn 4 header) ;;
             msg_type <- struct_unpack_B (firstn 1 (skipn 4 header)) ;;
             Ret (payload_length, msg_type)) with
      | Raise e => (Raise e, sock1)
      | Ret (payload_length, msg_type) =>
          match _read_exact sock1 payload_length with
          | (None, sock2) => (Ret (None, None), sock2)
          | (Some payload, sock2) =>
              (Ret (Some msg_type, Some payload), sock2)
          end
      end
  end.

Definition read_message (sock : socket)
  : (option Z * option bytes) * socket :=
  match read_message_body sock with
  | (Ret r, sock') => (r, sock')
  | (Raise _, sock') => ((None, None), sock')
  end.

Definition is_valid_message_type (msg_type : Z) : bool :=
  (msg_type =? MSG_REQUEST) || (msg_type =? MSG_RESPONSE).

End Protocol.
Import Protocol.

(** ** client/client.py: the ship-side link and multiplexer worker *)

Module Client.

(** What the worker does to the outside, in order. *)
Inductive event :=
| EvDial (connected : bool)
| EvSleep (seconds : Z)
| EvSend (payload : bytes) (ok : bool)
| EvRead (result : option Z * option bytes)
| EvClose.

(** The fields of [ShipProxyClient] the worker uses, and the world it
    acts on: [network] holds what the coming [create_tcp_connection]
    calls return, [closed] the sockets given to [close_connection]. *)
Record ShipProxyClient := mk_client {
  offshore_socket : option socket;
  reconnect_attempts : Z;
  max_reconnect_attempts : Z;
  network : list (option socket);
  trace : list event;
  closed : list socket
}.

(** [ShipProxyClient.__init__] *)
Definition init (network : list (option socket)) : ShipProxyClient :=
  mk_client None 0 5 network [] [].

Definition log (self : ShipProxyClient) (e : event) : ShipProxyClient :=
  mk_client (offshore_socket self) (reconnect_attempts self)
            (max_reconnect_attempts self) (network self)
            (trace self ++ [e]) (closed self).

Definition set_offshore_socket (self : ShipProxyClient) (s : option socket)
  : ShipProxyClient :=
  mk_client s (reconnect_attempts self) (max_reconnect_attempts self)
            (network self) (trace self) (closed self).

Definition set_reconnect_attempts (self : ShipProxyClient) (n : Z)
  : ShipProxyClient :=
  mk_client (offshore_socket self) n (max_reconnect_attempts self)
            (network self) (trace self) (closed self).

(** [create_tcp_connection(host, port, timeout=10)]: a connected socket
    or [None]; it never raises. *)
Definition create_tcp_connection (self : ShipProxyClient)
  : option socket * ShipProxyClient :=
  match network self with
  | [] => (None, log self (EvDial false))
  | Some s :: rest =>
      (Some s,
       log (mk_client (offshore_socket self) (reconnect_attempts self)
                      (max_reconnect_attempts self) rest
                      (trace self) (closed self))
           (EvDial true))
  | None :: rest =>
      (None,
       log (mk_client (offshore_socket self) (reconnect_attempts self)
                      (max_reconnect_attempts self) rest
                      (trace self) (closed self))
           (EvDial false))
  end.

(** [close_connection(sock)]: [if sock: sock.close()]. *)
Definition close_connection (self : ShipProxyClient) (sock : option socket)
  : ShipProxyClient :=
  match sock with
  | Some s =>
      log (mk_client (offshore_socket self) (reconnect_attempts self)
                     (max_reconnect_attempts self) (network self)
                     (trace self) (closed self ++ [s]))
          EvClose
  | None => self
  end.

Definition sleep (self : ShipProxyClient) (seconds : Z) : ShipProxyClient :=
  log self (EvSleep seconds).

(** The [for attempt in range(self.max_reconnect_attempts)] loop of
    [connect_to_offshore], over the attempts still to make. *)
Fixpoint connect_attempts (self : ShipProxyClient) (attempts : list Z)
  : bool * ShipProxyClient :=
  match attempts with
  | [] => (false, self)
  | attempt :: rest =>
      let '(s, self1) := create_tcp_connection self in
      let self2 := set_offshore_socket self1 s in
      match s with
      | Some _ => (true, set_reconnect_attempts self2 0)
      | None =>
          let self3 :=
            if attempt <? max_reconnect_attempts self2 - 1
            then sleep self2 (Z.min (2 ^ attempt) 10)
            else self2 in
          connect_attempts self3 rest
      end
  end.

Definition range (n : Z) : list Z := map Z.of_nat (seq 0 (Z.to_nat n)).

Definition connect_to_offshore (self : ShipProxyClient)
  : bool * ShipProxyClient :=
  connect_attempts self (range (max_reconnect_attempts self)).

(** A queued request: the [request_item] dict without the two objects the
    worker only writes to. *)
Record request_item := mk_item {
  item_id : str;
  request_data : bytes;
  item_method : str;
  item_path : str
}.

(** What the worker has done to an item's [response_container] and
    [response_event], and its [task_done] calls. *)
Record completion := mk_completion {
  container_data : option bytes;
  container_error : option str;
  event_set : nat;
  task_done : nat
}.

Definition failed (reason : string) : completion :=
  mk_completion None (Some (text reason)) 1 1.

Definition delivered (payload : bytes) : completion :=
  mk_completion (Some payload) None 1 1.

(** [send_message(self.offshore_socket, MSG_REQUEST, request_data)]; on
    [None] the attribute error is caught inside [send_message]. *)
Definition send_request (self : ShipProxyClient) (payload : bytes)
  : bool * ShipProxyClient :=
  match offshore_socket self with
  | Some sock =>
      let '(ok, sock') := send_message sock MSG_REQUEST payload in
      (ok, log (set_offshore_socket self (Some sock')) (EvSend payload ok))
  | None => (false, log self (EvSend payload false))
  end.

(** [read_message(self.offshore_socket)]; on [None] the attribute error
    is caught inside [_read_exact]. *)
Definition read_response (self : ShipProxyClient)
  : (option Z * option bytes) * ShipProxyClient :=
  match offshore_socket self with
  | Some sock =>
      let '(r, sock') := read_message sock in
      (r, log (set_offshore_socket self (Some sock')) (EvRead r))
  | None => ((None, None), log self (EvRead (None, None)))
  end.

(** Lines 362-373: wait for the response and accept it or tear the link
    down. *)
Definition await_response (self : ShipProxyClient)
  : ShipProxyClient * completion :=
  let '((msg_type, payload), self1) := read_response self in
  match msg_type, payload with
  | Some t, Some p =>
      if t =? MSG_RESPONSE then (self1, delivered p)
      else
        let self2 := close_connection self1 (offshore_socket self1) in
        (set_offshore_socket self2 None,
         failed "Invalid response from offshore proxy")
  | _, _ =>
      let self2 := close_connection self1 (offshore_socket self1) in
      (set_offshore_socket self2 None,
       failed "Invalid response from offshore proxy")
  end.

(** One turn of the [while self.running] loop of [process_requests], for
    the item just taken from the queue. None of the calls in the inner
    [try] raises, so its [except] clause has nothing to catch. *)
Definition process_item (self : ShipProxyClient) (item : request_item)
  : ShipProxyClient * completion :=
  let '(connected, self1) :=
    match offshore_socket self with
    | None => connect_to_offshore self
    | Some _ => (true, self)
    end in
  if negb connected then
    (self1, failed "Cannot connect to offshore proxy")
  else
    let '(ok, self2) := send_request self1 (request_data item) in
    if ok then await_response self2
    else
      let self3 := close_connection self2 (offshore_socket self2) in
      let self4 := set_offshore_socket self3 None in
      let '(reconnected, self5) := connect_to_offshore self4 in
      if reconnected then
        let '(ok', self6) := send_request self5 (request_data item) in
        if ok' then await_response self6
        else (self6, failed "Failed to send request after reconnection")
      else (self5, failed "Lost connection to offshore proxy").

(** The worker over the items in the order it takes them from the
    queue. *)
Fixpoint process_requests (self : ShipProxyClient) (queue : list request_item)
  : ShipProxyClient * list completion :=
  match queue with
  | [] => (self, [])
  | item :: rest =>
      let '(self1, c) := process_item self item in
      let '(self2, cs) := process_requests self1 rest in
      (self2, c :: cs)
  end.

End Client.
Import Client.
(** ** Python text: the [str] methods and codecs the offshore server uses *)

Module Text.

Definition crlf : str := [13; 10].

Fixpoint str_eqb (a b : str) : bool :=
  match a, b with
  | [], [] => true
  | x :: a', y :: b' => (x =? y) && str_eqb a' b'
  | _, _ => false
  end.

(** [s.startswith(prefix)] *)
Fixpoint startswith (s prefix : str) {struct prefix} : bool :=
  match prefix, s with
  | [], _ => true
  | p :: ps, c :: cs => (c =? p) && startswith cs ps
  | _ :: _, [] => false
  end.

(** [s.split(sep)] for a separator that is not empty: [skip] counts the
    characters of a separator just found that are still to be passed,
    [cur] is the piece being read. *)
Fixpoint split_from (sep : str) (skip : nat) (cur : str) (s : str)
  : list str :=
  match s with
  | [] => [cur]
  | c :: s' =>
      match skip with
      | S k => split_from sep k cur s'
      | O =>
          if startswith s sep
          then cur :: split_from sep (length sep - 1) [] s'
          else split_from sep O (cur ++ [c]) s'
      end
  end.

Definition split (s sep : str) : list str := split_from sep O [] s.

(** [sep.join(parts)] *)
Fixpoint join (sep : str) (parts : list str) : str :=
  match parts with
  | [] => []
  | [p] => p
  | p :: ps => p ++ sep ++ join sep ps
  end.

(** [c.isspace()]: the code points Python counts as whitespace. *)
Definition isspace (c : Z) : bool :=
  ((9 <=? c) && (c <=? 13)) || ((28 <=? c) && (c <=? 32))
  || (c =? 133) || (c =? 160) || (c =? 5760)
  || ((8192 <=? c) && (c <=? 8202))
  || (c =? 8232) || (c =? 8233) || (c =? 8239) || (c =? 8287)
  || (c =? 12288).

Fixpoint lstrip (s : str) : str :=
  match s with
  | c :: s' => if isspace c then lstrip s' else s
  | [] => []
  end.

Definition rstrip (s : str) : str := rev (lstrip (rev s)).

(** [s.strip()] *)
Definition strip (s : str) : str := rstrip (lstrip s).

(** [c in s] for a single character *)
Definition contains (c : Z) (s : str) : bool := existsb (Z.eqb c) s.

(** [s.split(c, 1)] when [c] occurs in [s]: what is before the first
    occurrence and what is after it. *)
Fixpoint split_once (c : Z) (s : str) : str * str :=
  match s with
  | [] => ([], [])
  | x :: s' =>
      if x =? c then ([], s')
      else let '(k, v) := split_once c s' in (x :: k, v)
  end.

(** [str(n)] for an integer *)
Definition str_of_int (n : Z) : str :=
  text (DecimalString.NilZero.string_of_int (Z.to_int n)).

(** *** UTF-8 *)

Definition is_surrogate (c : Z) : bool := (55296 <=? c) && (c <=? 57343).

(** The UTF-8 form of one code point; surrogates have none, and a [str]
    holds nothing outside 0 .. 0x10FFFF. *)
Definition encode_cp (c : Z) : option bytes :=
  if c <? 0 then None
  else if c <? 128 then Some [byte_of_Z c]
  else if c <? 2048 then
    Some [byte_of_Z (192 + c / 64); byte_of_Z (128 + c mod 64)]
  else if c <? 65536 then
    if is_surrogate c then None
    else Some [byte_of_Z (224 + c / 4096);
               byte_of_Z (128 + (c / 64) mod 64);
               byte_of_Z (128 + c mod 64)]
  else if c <? 1114112 then
    Some [byte_of_Z (240 + c / 262144);
          byte_of_Z (128 + (c / 4096) mod 64);
          byte_of_Z (128 + (c / 64) mod 64);
          byte_of_Z (128 + c mod 64)]
  else None.

Fixpoint surrogate_run (s : str) : Z :=
  match s with
  | c :: s' => if is_surrogate c then 1 + surrogate_run s' else 0
  | [] => 0
  end.

Definition hex_digit (d : Z) : Z := if d <? 10 then 48 + d else 87 + d.

(** [str(e)] of the [UnicodeEncodeError] raised at position [pos] on the
    character [c], followed by [run] more surrogates. *)
Definition unicode_encode_error (c pos run : Z) : exn :=
  mk_exn UnicodeEncodeError
    (if run =? 0 then
       text "'utf-8' codec can't encode character '\u"
       ++ [hex_digit (c / 4096 mod 16); hex_digit (c / 256 mod 16);
           hex_digit (c / 16 mod 16); hex_digit (c mod 16)]
       ++ text "' in position " ++ str_of_int pos
       ++ text ": surrogates not allowed"
     else
       text "'utf-8' codec can't encode characters in position "
       ++ str_of_int pos ++ text "-" ++ str_of_int (pos + run)
       ++ text ": surrogates not allowed").

Fixpoint utf8_encode_from (pos : Z) (s : str) : pyres bytes :=
  match s with
  | [] => Ret []
  | c :: s' =>
      match encode_cp c with
      | Some b => rest <- utf8_encode_from (pos + 1) s' ;; Ret (b ++ rest)
      | None => Raise (unicode_encode_error c pos (surrogate_run s'))
      end
  end.

(** [s.encode('utf-8')] *)
Definition utf8_encode (s : str) : pyres bytes := utf8_encode_from 0 s.

Definition is_continuation (b : Z) : bool := (128 <=? b) && (b <=? 191).

Definition replacement : Z := 65533.

(** [b.decode('utf-8', errors='replace')]: every ill-formed sequence,
    taken as far as it could still have begun a well-formed one, becomes
    one U+FFFD. *)
Fixpoint utf8_decode_replace (b : bytes) : str :=
  match b with
  | [] => []
  | b1 :: r1 =>
      let ch := Z_of_byte b1 in
      if ch <? 128 then ch :: utf8_decode_replace r1
      else if ch <? 194 then replacement :: utf8_decode_replace r1
      else if ch <? 224 then
        match r1 with
        | [] => [replacement]
        | b2 :: r2 =>
            let ch2 := Z_of_byte b2 in
            if is_continuation ch2
            then ((ch - 192) * 64 + (ch2 - 128)) :: utf8_decode_replace r2
            else replacement :: utf8_decode_replace r1
        end
      else if ch <? 240 then
        match r1 with
        | [] => [replacement]
        | b2 :: r2 =>
            let ch2 := Z_of_byte b2 in
            if negb (is_continuation ch2)
               || (if ch2 <? 160 then ch =? 224 else ch =? 237)
            then replacement :: utf8_decode_replace r1
            else
              match r2 with
              | [] => [replacement]
              | b3 :: r3 =>
                  let ch3 := Z_of_byte b3 in
                  if is_continuation ch3
                  then ((ch - 224) * 4096 + (ch2 - 128) * 64 + (ch3 - 128))
                       :: utf8_decode_replace r3
                  else replacement :: utf8_decode_replace r2
              end
        end
      else if ch <? 245 then
        match r1 with
        | [] => [replacement]
        | b2 :: r2 =>
            let ch2 := Z_of_byte b2 in
            if negb (is_continuation ch2)
               || (if ch2 <? 144 then ch =? 240 else ch =? 244)
            then replacement :: utf8_decode_replace r1
            else
              match r2 with
              | [] => [replacement]
              | b3 :: r3 =>
                  let ch3 := Z_of_byte b3 in
                  if negb (is_continuation ch3)
                  then replacement :: utf8_decode_replace r2
                  else
                    match r3 with
                    | [] => [replacement]
                    | b4 :: r4 =>
                        let ch4 := Z_of_byte b4 in
                        if is_continuation ch4
                        then ((ch - 240) * 262144 + (ch2 - 128) * 4096
                              + (ch3 - 128) * 64 + (ch4 - 128))
                             :: utf8_decode_replace r4
                        else replacement :: utf8_decode_replace r3
                    end
              end
        end
      else replacement :: utf8_decode_replace r1
  end.

End Text.
Import Text.

(** ** server/server.py: the offshore request processor *)

Module Server.

(** A [dict] with [str] keys, in insertion order. *)
Definition dict := list (str * str).

(** [d[k] = v] *)
Fixpoint dict_set (d : dict) (k v : str) : dict :=
  match d with
  | [] => [(k, v)]
  | (k', v') :: d' =>
      if str_eqb k' k then (k', v) :: d' else (k', v') :: dict_set d' k v
  end.

(** [d.pop(k, None)] *)
Definition dict_pop (d : dict) (k : str) : dict :=
  filter (fun kv => negb (str_eqb (fst kv) k)) d.

(** What the program reads of [urlparse(url)]; the [port] property can
    raise. *)
Record ParseResult := mk_parse {
  scheme : str;
  hostname : option str;
  port : pyres (option Z);
  path : str;
  query : str
}.

(** The request [make_http_request] puts to the origin. *)
Record origin_call := mk_call {
  call_method : str;
  call_host : str;
  call_port : Z;
  call_path : str;
  call_headers : dict;
  call_body : bytes;
  call_use_ssl : bool
}.

(** What the program reads of the origin's [HTTPResponse]. *)
Record HTTPResponse := mk_response {
  status : Z;
  reason : str;
  getheaders : list (str * str);
  read : bytes
}.

Inductive loop_step := Break | Continue.

Section Offshore.

(** The case mappings of the code points outside ASCII, [urlparse], and
    the exchange with the origin ([connect], [request], [getresponse],
    [read]) are the libraries' and the network's. *)
Variable unicode_upper unicode_lower : Z -> str.
Variable urlparse : str -> pyres ParseResult.
Variable http_client : origin_call -> pyres HTTPResponse.

(** [s.upper()] and [s.lower()] *)
Definition upper (s : str) : str :=
  flat_map (fun c => if (97 <=? c) && (c <=? 122) then [c - 32]
                     else if c <? 128 then [c]
                     else unicode_upper c) s.

Definition lower (s : str) : str :=
  flat_map (fun c => if (65 <=? c) && (c <=? 90) then [c + 32]
                     else if c <? 128 then [c]
                     else unicode_lower c) s.

Definition create_error_response (status_code : Z) (reason : str)
  : pyres bytes :=
  let title := str_of_int status_code ++ text " " ++ reason in
  let error_body :=
    text "<!DOCTYPE html>" ++ [10]
    ++ text "<html>" ++ [10]
    ++ text "<head><title>" ++ title ++ text "</title></head>" ++ [10]
    ++ text "<body>" ++ [10]
    ++ text "<h1>" ++ title ++ text "</h1>" ++ [10]
    ++ text "<p>The offshore proxy server encountered an error.</p>" ++ [10]
    ++ text "<hr>" ++ [10]
    ++ text "<p><em>Offshore Proxy Server</em></p>" ++ [10]
    ++ text "</body>" ++ [10]
    ++ text "</html>" in
  let response :=
    text "HTTP/1.1 " ++ title ++ crlf
    ++ text "Content-Type: text/html" ++ crlf
    ++ text "Content-Length: " ++ str_of_int (len error_body) ++ crlf
    ++ text "Connection: close" ++ crlf
    ++ crlf ++ error_body in
  utf8_encode response.

Definition handle_connect_method (url : str) : pyres bytes :=
  let response :=
    text "HTTP/1.1 200 Connection Established" ++ crlf ++ crlf in
  utf8_encode response.

(** The [try] block of [make_http_request], once the origin has been
    asked. *)
Definition assemble_response (response : HTTPResponse) : pyres bytes :=
  let response_body := read response in
  let response_lines :=
    [text "HTTP/1.1 " ++ str_of_int (status response) ++ text " "
     ++ reason response;
     text "Content-Length: " ++ str_of_int (len response_body);
     text "Connection: close"]
    ++ flat_map
         (fun hv =>
            let header_lower := lower (fst hv) in
            if str_eqb header_lower (text "connection")
               || str_eqb header_lower (text "transfer-encoding")
               || str_eqb header_lower (text "content-length")
            then []
            else [fst hv ++ text ": " ++ strip (snd hv)])
         (getheaders response)
    ++ [[]] in
  let response_text := join crlf response_lines in
  encoded <- utf8_encode response_text ;;
  Ret (encoded ++ response_body).

Definition make_http_request (method host : str) (port : Z) (path : str)
           (headers : dict) (body : bytes) (use_ssl : bool)
  : pyres bytes * list origin_call :=
  let call := mk_call method host port path headers body use_ssl in
  (match (response <- http_client call ;; assemble_response response) with
   | Ret full_response => Ret full_response
   | Raise e =>
       match exn_cls e with
       | SocketTimeout =>
           create_error_response 504 (text "Gateway Timeout")
       | SocketGaierror =>
           create_error_response 502
             (text "Bad Gateway - DNS resolution failed: " ++ host)
       | ConnectionRefused =>
           create_error_response 502
             (text "Bad Gateway - Connection refused: " ++ host
              ++ text ":" ++ str_of_int port)
       | SSLError =>
           create_error_response 502
             (text "Bad Gateway - SSL error: " ++ exn_str e)
       | _ =>
           create_error_response 502 (text "Bad Gateway: " ++ exn_str e)
       end
   end,
   [call]).

(** The [for i, line in enumerate(lines[1:], 1)] loop: the headers read
    and [body_start]. *)
Fixpoint scan_headers (lines : list str) (i : Z) (headers : dict)
  : dict * Z :=
  match lines with
  | [] => (headers, -1)
  | line :: rest =>
      match strip line with
      | [] => (headers, i + 1)
      | _ :: _ =>
          if contains 58 line then
            let '(key, value) := split_once 58 line in
            scan_headers rest (i + 1)
                         (dict_set headers (strip key) (strip value))
          else scan_headers rest (i + 1) headers
      end
  end.

(** The headers taken out before forwarding: [header], [header.title()],
    [header.upper()] and [header.lower()] for the two names. *)
Definition headers_to_remove : list str :=
  [text "proxy-connection"; text "Proxy-Connection";
   text "PROXY-CONNECTION"; text "proxy-connection";
   text "proxy-authorization"; text "Proxy-Authorization";
   text "PROXY-AUTHORIZATION"; text "proxy-authorization"].

(** The [try] block of [process_http_request]. *)
Definition process_http_request_body (request_data : bytes)
  : pyres bytes * list origin_call :=
  let request_str := utf8_decode_replace request_data in
  let lines := split request_str crlf in
  match lines with
  | [] =>
      (create_error_response 400 (text "Bad Request - Empty request"), [])
  | line0 :: _ =>
      let request_line := strip line0 in
      match request_line with
      | [] =>
          (create_error_response 400
             (text "Bad Request - Empty request line"), [])
      | _ :: _ =>
          match split request_line [32] with
          | [method; url; version] =>
              if str_eqb (upper method) (text "CONNECT") then
                (handle_connect_method url, [])
              else if negb (startswith url (text "http://"))
                      && negb (startswith url (text "https://"))
                      && startswith url (text "/")
              then
                (create_error_response 400
                   (text "Bad Request - This is a proxy server. Configure your browser to use http://localhost:8080 as HTTP/HTTPS proxy, or use curl -x http://localhost:8080 <URL>"),
                 [])
              else
                let url :=
                  if negb (startswith url (text "http://"))
                     && negb (startswith url (text "https://"))
                  then text "http://" ++ url else url in
                match urlparse url with
                | Raise e => (Raise e, [])
                | Ret parsed_url =>
                    match hostname parsed_url with
                    | None | Some [] =>
                        (create_error_response 400
                           (text "Bad Request - Invalid URL: " ++ url), [])
                    | Some host =>
                        match port parsed_url with
                        | Raise e => (Raise e, [])
                        | Ret parsed_port =>
                            let is_https :=
                              str_eqb (scheme parsed_url) (text "https") in
                            let port :=
                              match parsed_port with
                              | Some p =>
                                  if p =? 0
                                  then if is_https then 443 else 80
                                  else p
                              | None => if is_https then 443 else 80
                              end in
                            let path :=
                              path parsed_url
                              ++ match query parsed_url with
                                 | [] => []
                                 | q => text "?" ++ q
                                 end in
                            let path :=
                              match path with [] => text "/" | _ => path end in
                            let '(headers, body_start) :=
                              scan_headers (tl lines) 1 [] in
                            match
                              (if 0 <? body_start then
                                 match skipn (Z.to_nat body_start) lines with
                                 | [] => Ret []
                                 | body_lines =>
                                     utf8_encode (join crlf body_lines)
                                 end
                               else Ret [])
                            with
                            | Raise e => (Raise e, [])
                            | Ret body =>
                                let headers :=
                                  fold_left dict_pop headers_to_remove
                                            headers in
                                make_http_request method host port path
                                                  headers body is_https
                            end
                        end
                    end
                end
          | _ =>
              (create_error_response 400
                 (text "Bad Request - Invalid request line: "
                  ++ request_line), [])
          end
      end
  end.

Definition process_http_request (request_data : bytes)
  : pyres bytes * list origin_call :=
  match process_http_request_body request_data with
  | (Ret response, calls) => (Ret response, calls)
  | (Raise e, calls) =>
      match exn_cls e with
      | UnicodeDecodeError =>
          (create_error_response 400
             (text "Bad Request - Invalid encoding"), calls)
      | _ =>
          (create_error_response 500
             (text "Internal Server Error: " ++ exn_str e), calls)
      end
  end.

(** One turn of the [while self.running] loop of
    [handle_ship_connection]. *)
Definition handle_ship_turn (ship_socket : socket)
  : loop_step * socket * list origin_call :=
  let '((msg_type, payload), sock1) := read_message ship_socket in
  match msg_type, payload with
  | Some t, Some p =>
      if negb (t =? MSG_REQUEST) then (Continue, sock1, [])
      else
        match process_http_request p with
        | (Ret response, calls) =>
            let '(ok, sock2) := send_message sock1 MSG_RESPONSE response in
            (if ok then Continue else Break, sock2, calls)
        | (Raise _, calls) => (Break, sock1, calls)
        end
  | _, _ => (Break, sock1, [])
  end.

End Offshore.

End Server.
Import Server.

(** ** The framing the client and the server fall back on

    [client/client.py] and [server/server.py] define [read_message] for
    themselves, in the same words, for when [utils.protocol] cannot be
    imported. *)

Module Fallback.

(** The [while len(payload) < payload_length] loop; an exception of [recv]
    is left to the [except] clause of [read_message]. *)
Equations? read_payload (sock : socket) (payload_length : Z) (payload : bytes)
  : pyres (option bytes) * socket
  by wf (Z.to_nat (payload_length - len payload)) lt :=
  read_payload sock payload_length payload
    with Z_lt_dec (len payload) payload_length := {
    | right _ => (Ret (Some payload), sock)
    | left Hlt with recv sock (payload_length - len payload) := {
      | (Ret [], sock') => (Ret None, sock')
      | (Ret (c :: cs), sock') =>
          read_payload sock' payload_length (payload ++ c :: cs)
      | (Raise e, sock') => (Raise e, sock') } }.
Proof.
  unfold len in *. rewrite length_app. simpl length. lia.
Qed.

Definition read_message (sock : socket)
  : (option Z * option bytes) * socket :=
  match recv sock 5 with
  | (Raise _, sock1) => ((None, None), sock1)
  | (Ret header, sock1) =>
      if negb (len header =? 5) then ((None, None), sock1)
      else
        match (payload_length <- struct_unpack_I (firstn 4 header) ;;
               msg_type <- struct_unpack_B (firstn 1 (skipn 4 header)) ;;
               Ret (payload_length, msg_type)) with
        | Raise _ => ((None, None), sock1)
        | Ret (payload_length, msg_type) =>
            match read_payload sock1 payload_length [] with
            | (Ret (Some payload), sock2) =>
                ((Some msg_type, Some payload), sock2)
            | (Ret None, sock2) => ((None, None), sock2)
            | (Raise _, sock2) => ((None, None), sock2)
            end
        end
  end.

End Fallback.

(** ** client/client.py: the proxy handler *)

Module Handler.

(** What the handler sends to the browser: [send_error(code, message)] or
    [send_raw_response(response_data)]. *)
Inductive reply :=
| send_error (code : Z) (message : str)
| send_raw_response (response_data : bytes).

Section Handler.

(** The case mapping of the code points outside ASCII, and [int(s)] with
    [None] for its [ValueError]. *)
Variable unicode_lower : Z -> str.
Variable int : str -> option Z.

(** [self.headers.get(name)]: the value of the first header of that name,
    in whatever case. *)
Fixpoint headers_get (headers : list (str * str)) (name : str)
  : option str :=
  match headers with
  | [] => None
  | (k, v) :: rest =>
      if str_eqb (lower unicode_lower k) (lower unicode_lower name)
      then Some v
      else headers_get rest name
  end.

(** [build_request_data]; [rfile_read n] is what [self.rfile.read(n)] gives,
    [None] when it raises [OSError]. *)
Definition build_request_data (command path request_version : str)
           (headers : list (str * str)) (rfile_read : Z -> option bytes)
  : option bytes :=
  let request_line :=
    command ++ text " " ++ path ++ text " " ++ request_version ++ crlf in
  let headers_str :=
    fold_left (fun acc hv => acc ++ fst hv ++ text ": " ++ snd hv ++ crlf)
              headers [] in
  let headers_str := headers_str ++ crlf in
  let body :=
    match headers_get headers (text "Content-Length") with
    | Some (c :: content_length) =>
        match int (c :: content_length) with
        | Some content_length =>
            if 0 <? content_length then
              match rfile_read content_length with
              | Some body => body
              | None => []
              end
            else []
        | None => []
        end
    | _ => []
    end in
  match utf8_encode (request_line ++ headers_str) with
  | Ret encoded => Some (encoded ++ body)
  | Raise _ => None
  end.

(** [handle_request], from the request data it has built: what it puts on
    the queue and what it sends to the browser. [response] is the
    [response_container] as the handler finds it when
    [response_event.wait(timeout=60)] returns true, and [None] when the
    wait times out. *)
Definition handle_request (request_data : option bytes)
           (response : option completion)
  : option bytes * reply :=
  match request_data with
  | None | Some [] =>
      (None, send_error 400 (text "Bad Request - Could not parse request"))
  | Some request_data =>
      (Some request_data,
       match response with
       | Some response_container =>
           match container_error response_container with
           | Some (c :: e) =>
               send_error 502 (text "Bad Gateway: " ++ c :: e)
           | _ =>
               match container_data response_container with
               | Some (b :: d) => send_raw_response (b :: d)
               | _ =>
                   send_error 502
                     (text "Bad Gateway - No response from offshore proxy")
               end
           end
       | None => send_error 504 (text "Gateway Timeout")
       end)
  end.

End Handler.

End Handler.
Import Handler.

(** ** server/server.py: the connection loop *)

Module Connection.

Section Connection.

Variable unicode_upper unicode_lower : Z -> str.
Variable urlparse : str -> pyres ParseResult.
Variable http_client : origin_call -> pyres HTTPResponse.

(** [handle_ship_connection]: the [while self.running] loop, for the
    [turns] tests of [self.running] that find it true; the socket as it is
    when [close_connection] is reached, and the requests put to the
    origins. *)
Fixpoint handle_ship_connection (turns : nat) (ship_socket : socket)
  : socket * list origin_call :=
  match turns with
  | O => (ship_socket, [])
  | S turns' =>
      match handle_ship_turn unicode_upper unicode_lower urlparse
                             http_client ship_socket with
      | (Continue, sock, calls) =>
          let '(sock', calls') := handle_ship_connection turns' sock in
          (sock', calls ++ calls')
      | (Break, sock, calls) => (sock, calls)
      end
  end.

End Connection.

End Connection.
Import Connection.

(** ** Observations on frames and traces, used to state the properties *)

Module Observe.

(** The wire image of a frame that can be built. *)
Definition frame_bytes (msg_type : Z) (payload : bytes) : bytes :=
  match frame msg_type payload with
  | Ret data => data
  | Raise _ => []
  end.

Definition is_dial (e : event) : bool :=
  match e with EvDial _ => true | _ => false end.

Definition is_send (e : event) : bool :=
  match e with EvSend _ _ => true | _ => false end.

Definition is_read (e : event) : bool :=
  match e with EvRead _ => true | _ => false end.

Definition count (f : event -> bool) (tr : list event) : nat :=
  length (filter f tr).

(** A failed dial followed by the wait the loop makes before the next
    one. *)
Definition failed_dial (attempt : Z) : list event :=
  [EvDial false; EvSleep (Z.min (2 ^ attempt) 10)].

(** Text that has a UTF-8 form, and that form. *)
Definition clean (s : str) : Prop := Forall (fun c => encode_cp c <> None) s.

Definition utf8_bytes (s : str) : bytes :=
  flat_map (fun c => match encode_cp c with Some b => b | None => [] end) s.

(** A line break inside a text. *)
Fixpoint has_crlf (s : str) : bool :=
  match s with
  | [] => false
  | c :: s' =>
      ((c =? 13) && match s' with d :: _ => d =? 10 | [] => false end)
      || has_crlf s'
  end.

(** The body as the specification words it: the raw bytes of everything
    after the first CR LF CR LF of the payload. *)
Fixpoint after_first_crlf_crlf (payload : bytes) : bytes :=
  match payload with
  | [] => []
  | b1 :: r =>
      match r with
      | b2 :: b3 :: b4 :: rest =>
          if (Z_of_byte b1 =? 13) && (Z_of_byte b2 =? 10)
             && (Z_of_byte b3 =? 13) && (Z_of_byte b4 =? 10)
          then rest
          else after_first_crlf_crlf r
      | _ => after_first_crlf_crlf r
      end
  end.

(** Whether bytes begin with LF, and with CR LF. *)
Definition starts_with_lf (b : bytes) : bool :=
  match b with
  | x :: _ => Z_of_byte x =? 10
  | [] => false
  end.

Definition starts_with_crlf (b : bytes) : bool :=
  match b with
  | x :: r => (Z_of_byte x =? 13) && starts_with_lf r
  | [] => false
  end.

(** [d.get(k)] *)
Fixpoint dict_get (d : dict) (k : str) : option str :=
  match d with
  | [] => None
  | (k', v) :: d' => if str_eqb k' k then Some v else dict_get d' k
  end.

(** The value header lines give to a name: that of the last line
    [key: value] whose key, stripped, is the name; [found] when there is
    none. *)
Fixpoint last_header_value (lines : list str) (name : str)
         (found : option str) : option str :=
  match lines with
  | [] => found
  | line :: rest =>
      last_header_value rest name
        (if contains 58 line
         then if str_eqb (strip (fst (split_once 58 line))) name
              then Some (strip (snd (split_once 58 line)))
              else found
         else found)
  end.

(** The bytes the UTF-8 form of a text takes beyond one for each
    character. *)
Definition extra_bytes (s : str) : Z := len (utf8_bytes s) - len s.

(** Bytes that begin with the status line of an HTTP/1.1 response:
    [HTTP/1.1], a status code, a reason and CR LF. *)
Definition begins_with_status_line (response : bytes) : Prop :=
  exists (status_code : Z) (reason : str) (rest : bytes),
    response
    = utf8_bytes (text "HTTP/1.1 " ++ str_of_int status_code ++ text " "
                  ++ reason ++ crlf)
      ++ rest.

End Observe.
Import Observe.

(** ** Sample inputs *)

Module Samples.

(** A payload of 65 MiB. *)
Definition payload_65_MiB : bytes :=
  repeat x00 (Z.to_nat (65 * 1024 * 1024)).

(** On ASCII input the case mappings of the other code points are not
    consulted. *)
Definition no_case_change (c : Z) : str := [c].

(** [urlparse('http://x/y')] *)
Definition urlparse_x_y (url : str) : pyres ParseResult :=
  Ret (mk_parse (text "http") (Some (text "x")) (Ret None) (text "/y") []).

(** An origin that answers [200 OK] with the body [ok]. *)
Definition origin_ok (call : origin_call) : pyres HTTPResponse :=
  Ret (mk_response 200 (text "OK") [] (lit "ok")).

(** An origin that cannot be reached in time. *)
Definition origin_timeout (call : origin_call) : pyres HTTPResponse :=
  Raise (mk_exn SocketTimeout (text "timed out")).

Definition connect_request : bytes :=
  lit "CONNECT example.com:443 HTTP/1.1" ++ [x0d; x0a; x0d; x0a].

(** A POST whose one-byte body is not UTF-8. *)
Definition post_binary_request : bytes :=
  lit "POST http://x/y HTTP/1.1" ++ [x0d; x0a]
  ++ lit "Content-Length: 1" ++ [x0d; x0a; x0d; x0a] ++ [xff].

(** A POST whose body is the text [hello]. *)
Definition post_hello_request : bytes :=
  lit "POST http://x/y HTTP/1.1" ++ [x0d; x0a]
  ++ lit "Content-Length: 5" ++ [x0d; x0a; x0d; x0a] ++ lit "hello".

(** A frame [REQUEST, GET] as it arrives in three segments. *)
Definition get_in_segments : socket :=
  mk_socket [Seg x00 [x00]; Seg x00 [x03; x00; x47]; Seg x45 [x54]] [] [].

Definition idle_socket : socket := mk_socket [] [] [].

(** A frame of type 7 announcing two bytes, with three bytes behind it. *)
Definition type_7_frame : socket :=
  mk_socket [Seg x00 [x00; x00; x02; x07; x41]; Seg x42 [x43]] [] [].

Definition broken_pipe : exn := mk_exn OtherException (text "Broken pipe").

Definition get_item : request_item :=
  mk_item (text "a-1") (lit "GET http://x/ HTTP/1.1") (text "GET")
          (text "http://x/").

Definition head_item : request_item :=
  mk_item (text "b-2") (lit "HEAD http://y/ HTTP/1.1") (text "HEAD")
          (text "http://y/").

(** A client whose link fails on the next write, and whose next link
    fails on its first write too. *)
Definition client_on_bad_links : ShipProxyClient :=
  mk_client (Some (mk_socket [] [SendRaise 2 broken_pipe] [])) 0 5
            [Some (mk_socket [] [SendRaise 0 broken_pipe] [])] [] [].

(** A link on which the frames [RESPONSE, ok] and [RESPONSE, no] arrive,
    the second one in two segments. *)
Definition answering_link : socket :=
  mk_socket [Seg x00 [x00; x00; x02; x01; x6f; x6b; x00; x00];
             Seg x00 [x02; x01; x6e; x6f]] [] [].

Definition client_on_answering_link : ShipProxyClient :=
  mk_client (Some answering_link) 0 5 [] [] [].

(** A client that is offered two dead endpoints and then a live one. *)
Definition client_third_time_lucky : ShipProxyClient :=
  init [None; None; Some idle_socket].

(** A POST in which a line of one space stands between two header lines. *)
Definition post_with_space_line : bytes :=
  lit "POST http://x/y HTTP/1.1" ++ [x0d; x0a]
  ++ lit "A: 1" ++ [x0d; x0a]
  ++ lit " " ++ [x0d; x0a]
  ++ lit "B: 2" ++ [x0d; x0a; x0d; x0a] ++ lit "hello".

(** [int(s)] on the decimal numerals of one or two digits. *)
Definition int_of_digits (s : str) : option Z :=
  match s with
  | [d] => if (48 <=? d) && (d <=? 57) then Some (d - 48) else None
  | [d; e] =>
      if (48 <=? d) && (d <=? 57) && (48 <=? e) && (e <=? 57)
      then Some (10 * (d - 48) + (e - 48)) else None
  | _ => None
  end.

(** A request body of five bytes waiting in [rfile]. *)
Definition rfile_hello (n : Z) : option bytes :=
  Some (firstn (Z.to_nat n) (lit "hello")).

(** A connection on which a frame of type 7 and then a CONNECT request
    arrive, in one segment, before the ship closes it. *)
Definition ship_sends_two_frames : socket :=
  mk_socket [Seg x00 ([x00; x00; x01; x07; x41]
                      ++ [x00; x00; x00; x24; x00] ++ connect_request)]
            [] [].

(** A request line with two spaces after the method. *)
Definition get_with_two_spaces : bytes :=
  lit "GET  http://x/ HTTP/1.1" ++ [x0d; x0a; x0d; x0a].

(** Two CONNECT requests queued on the ship, the offshore connection on
    which their frames arrive, and the ship's link on which the answers
    come back. *)
Definition connect_item : request_item :=
  mk_item (text "c-3") connect_request (text "CONNECT")
          (text "example.com:443").

Definition offshore_reads_two_connects : socket :=
  mk_socket [Seg x00 ([x00; x00; x24; x00] ++ connect_request
                      ++ [x00; x00; x00; x24; x00] ++ connect_request)]
            [] [].

Definition ship_reads_two_answers : socket :=
  mk_socket [Seg x00 ([x00; x00; x27; x01]
                      ++ lit "HTTP/1.1 200 Connection Established"
                      ++ [x0d; x0a; x0d; x0a]
                      ++ [x00; x00; x00; x27; x01]
                      ++ lit "HTTP/1.1 200 Connection Established"
                      ++ [x0d; x0a; x0d; x0a])]
            [] [].

(** A client that holds no socket, and whose next two links fail as those
    of [client_on_bad_links] do. *)
Definition client_dialling_bad_links : ShipProxyClient :=
  mk_client None 0 5
            [Some (mk_socket [] [SendRaise 2 broken_pipe] []);
             Some (mk_socket [] [SendRaise 0 broken_pipe] [])] [] [].

(** A client that holds no socket, and whose next link answers with the
    frame of type 7. *)
Definition client_dialling_type_7_link : ShipProxyClient :=
  mk_client None 0 5 [Some type_7_frame] [] [].

(** A client whose link fails on the next write, and whose next link
    answers with the frame of type 7. *)
Definition client_retrying_on_type_7_link : ShipProxyClient :=
  mk_client (Some (mk_socket [] [SendRaise 2 broken_pipe] [])) 0 5
            [Some type_7_frame] [] [].

End Samples.
Import Samples.

(** ** Facts about bytes and [struct] *)

Section ByteFacts.

Lemma Z_of_byte_range (b : byte) : 0 <= Z_of_byte b < 256.
Proof.
  unfold Z_of_byte. pose proof (Byte.to_N_bounded b). lia.
Qed.

Lemma Z_of_byte_of_Z (z : Z) : Z_of_byte (byte_of_Z z) = z mod 256.
Proof.
  unfold Z_of_byte, byte_of_Z.
  assert (Hm : 0 <= z mod 256 < 256) by (apply Z.mod_pos_bound; lia).
  destruct (Byte.of_N (Z.to_N (z mod 256))) as [b|] eqn:E.
  - apply Byte.to_of_N in E. rewrite E. lia.
  - apply Byte.of_N_None_iff in E. lia.
Qed.

Lemma byte_of_Z_of_byte (b : byte) : byte_of_Z (Z_of_byte b) = b.
Proof.
  pose proof (Z_of_byte_range b) as Hr.
  unfold byte_of_Z. rewrite Z.mod_small by exact Hr.
  unfold Z_of_byte. rewrite N2Z.id, Byte.of_to_N. reflexivity.
Qed.

Lemma byte_of_Z_small (z : Z) : 0 <= z < 256 -> Z_of_byte (byte_of_Z z) = z.
Proof. intros H. rewrite Z_of_byte_of_Z. apply Z.mod_small. exact H. Qed.

Lemma len_app {A : Type} (l1 l2 : list A) : len (l1 ++ l2) = len l1 + len l2.
Proof. unfold len. rewrite length_app. lia. Qed.

Lemma len_nonneg {A : Type} (l : list A) : 0 <= len l.
Proof. unfold len. lia. Qed.

Lemma struct_unpack_pack_I (n : Z) (b : bytes) :
  struct_pack_I n = Ret b -> struct_unpack_I b = Ret n.
Proof.
  unfold struct_pack_I.
  destruct ((0 <=? n) && (n <? 2 ^ 32)) eqn:E; [|discriminate].
  apply andb_prop in E as [H0 H1].
  apply Z.leb_le in H0. apply Z.ltb_lt in H1.
  intros H. injection H as <-. unfold struct_unpack_I.
  rewrite !Z_of_byte_of_Z. f_equal.
  change (2 ^ 32) with 4294967296 in H1.
  change (2 ^ 24) with 16777216. change (2 ^ 16) with 65536.
  change (2 ^ 8) with 256.
  Z.div_mod_to_equations. lia.
Qed.

Lemma struct_pack_I_ok (n : Z) :
  0 <= n < 2 ^ 32 -> exists b3 b2 b1 b0, struct_pack_I n = Ret [b3; b2; b1; b0].
Proof.
  intros [H0 H1]. unfold struct_pack_I.
  apply Z.leb_le in H0. apply Z.ltb_lt in H1. rewrite H0, H1. simpl.
  eauto.
Qed.

Lemma struct_unpack_I_range (b3 b2 b1 b0 : byte) (n : Z) :
  struct_unpack_I [b3; b2; b1; b0] = Ret n -> 0 <= n < 2 ^ 32.
Proof.
  unfold struct_unpack_I. intros H. injection H as <-.
  pose proof (Z_of_byte_range b3). pose proof (Z_of_byte_range b2).
  pose proof (Z_of_byte_range b1). pose proof (Z_of_byte_range b0).
  change (2 ^ 32) with 4294967296.
  change (2 ^ 24) with 16777216. change (2 ^ 16) with 65536.
  change (2 ^ 8) with 256. lia.
Qed.

End ByteFacts.

(** ** Facts about [recv] and [_read_exact] *)

Section ReadExact.

Lemma pending_unseg (d : bytes) (rest : list recv_event) :
  pending (unseg d rest) = d ++ pending rest.
Proof. destruct d; reflexivity. Qed.

Lemma after_pending_unseg (d : bytes) (rest : list recv_event) :
  after_pending (unseg d rest) = after_pending rest.
Proof. destruct d; reflexivity. Qed.

Lemma _read_exact_loop_unfold (sock : socket) (num_bytes : Z) (data : bytes) :
  _read_exact_loop sock num_bytes data =
  if Z_lt_dec (len data) num_bytes then
    match recv sock (num_bytes - len data) with
    | (Ret [], sock') => (None, sock')
    | (Ret (c :: cs), sock') =>
        _read_exact_loop sock' num_bytes (data ++ c :: cs)
    | (Raise e, sock') => (None, sock')
    end
  else (Some data, sock).
Proof.
  rewrite _read_exact_loop_equation_1.
  destruct (Z_lt_dec (len data) num_bytes) as [Hlt|Hge]; simpl; [|reflexivity].
  destruct (recv sock (num_bytes - len data)) as [[[|c cs]|e] sock'];
    simpl; try reflexivity.
  destruct (is_socket_timeout e); reflexivity.
Qed.

(** Induction along the turns of the loop. *)
Lemma _read_exact_loop_ind'
  (P : socket -> Z -> bytes -> option bytes * socket -> Prop) :
  (forall sock n data, ~ len data < n -> P sock n data (Some data, sock)) ->
  (forall sock n data sock', len data < n ->
     recv sock (n - len data) = (Ret [], sock') ->
     P sock n data (None, sock')) ->
  (forall sock n data e sock', len data < n ->
     recv sock (n - len data) = (Raise e, sock') ->
     P sock n data (None, sock')) ->
  (forall sock n data c cs sock', len data < n ->
     recv sock (n - len data) = (Ret (c :: cs), sock') ->
     P sock' n (data ++ c :: cs) (_read_exact_loop sock' n (data ++ c :: cs)) ->
     P sock n data (_read_exact_loop sock' n (data ++ c :: cs))) ->
  forall sock n data, P sock n data (_read_exact_loop sock n data).
Proof.
  intros Hexit Hclosed Hraise Hstep sock n data.
  remember (Z.to_nat (n - len data)) as m eqn:Hm.
  revert sock data Hm.
  induction m as [m IH] using lt_wf_ind. intros sock data Hm.
  rewrite _read_exact_loop_unfold.
  destruct (Z_lt_dec (len data) n) as [Hlt|Hge]; [|apply Hexit; exact Hge].
  destruct (recv sock (n - len data)) as [[[|c cs]|e] sock'] eqn:Hrecv.
  - apply Hclosed; assumption.
  - apply Hstep; try assumption.
    apply (IH (Z.to_nat (n - len (data ++ c :: cs)))); [|reflexivity].
    subst m. rewrite len_app. unfold len in *. simpl length. lia.
  - apply (Hraise _ _ _ e); assumption.
Qed.

Lemma recv_cases (sock : socket) (k : Z) (r : pyres bytes) (sock' : socket) :
  recv sock k = (r, sock') ->
  (inbox sock = [] /\ r = Ret [] /\ sock' = sock)
  \/ (exists b bs rest, inbox sock = Seg b bs :: rest
      /\ r = Ret (firstn (Z.to_nat k) (b :: bs))
      /\ sock' = set_inbox sock (unseg (skipn (Z.to_nat k) (b :: bs)) rest))
  \/ (exists e rest, inbox sock = RecvRaise e :: rest
      /\ r = Raise e /\ sock' = set_inbox sock rest).
Proof.
  unfold recv. destruct (inbox sock) as [|[b bs|e] rest]; intros H;
    injection H as <- <-.
  - left. auto.
  - right. left. exists b, bs, rest. auto.
  - right. right. exists e, rest. auto.
Qed.

Lemma recv_keeps_output (sock : socket) (k : Z) :
  outbox (snd (recv sock k)) = outbox sock
  /\ sent (snd (recv sock k)) = sent sock.
Proof.
  unfold recv. destruct (inbox sock) as [|[b bs|e] rest]; simpl; auto.
Qed.

(** Reading never touches the writing side of the socket. *)
Lemma _read_exact_loop_keeps_output (sock : socket) (n : Z) (data : bytes) :
  outbox (snd (_read_exact_loop sock n data)) = outbox sock
  /\ sent (snd (_read_exact_loop sock n data)) = sent sock.
Proof.
  apply (_read_exact_loop_ind'
           (fun sock n data r =>
              outbox (snd r) = outbox sock /\ sent (snd r) = sent sock));
    clear; intros; simpl.
  - auto.
  - pose proof (recv_keeps_output sock (n - len data)) as Hk.
    rewrite H0 in Hk. exact Hk.
  - pose proof (recv_keeps_output sock (n - len data)) as Hk.
    rewrite H0 in Hk. exact Hk.
  - pose proof (recv_keeps_output sock (n - len data)) as Hk.
    rewrite H0 in Hk. simpl in Hk. destruct H1, Hk. split; congruence.
Qed.

(** A result has exactly the length asked for. *)
Lemma _read_exact_loop_length (sock : socket) (n : Z) (data : bytes) :
  len data <= n ->
  forall d, fst (_read_exact_loop sock n data) = Some d -> len d = n.
Proof.
  apply (_read_exact_loop_ind'
           (fun sock n data r =>
              len data <= n -> forall d, fst r = Some d -> len d = n));
    clear; intros; simpl in *; try discriminate.
  - injection H1 as <-. lia.
  - apply H1; [|assumption].
    apply recv_cases in H0 as [(_ & Hr & _)|[(b & bs & rest & _ & Hr & _)|(e & rest & _ & Hr & _)]];
      try discriminate.
    injection Hr as Hr. rewrite len_app. rewrite Hr.
    pose proof (firstn_le_length (Z.to_nat (n - len data)) (b :: bs)) as Hl.
    unfold len in *. lia.
Qed.

(** When the stream holds the bytes asked for, they are returned and
    nothing more is consumed. *)
Lemma _read_exact_loop_pending (sock : socket) (n : Z) (data : bytes) :
  forall d more,
    pending (inbox sock) = d ++ more -> len data + len d = n ->
    fst (_read_exact_loop sock n data) = Some (data ++ d)
    /\ pending (inbox (snd (_read_exact_loop sock n data))) = more
    /\ after_pending (inbox (snd (_read_exact_loop sock n data)))
       = after_pending (inbox sock).
Proof.
  apply (_read_exact_loop_ind'
           (fun sock n data r =>
              forall d more,
                pending (inbox sock) = d ++ more -> len data + len d = n ->
                fst r = Some (data ++ d)
                /\ pending (inbox (snd r)) = more
                /\ after_pending (inbox (snd r)) = after_pending (inbox sock)));
    clear.
  - intros sock n data Hge d more Hp Hl. simpl.
    assert (d = []) as -> by (destruct d; [reflexivity|unfold len in *; simpl in *; lia]).
    rewrite app_nil_r. auto.
  - intros sock n data sock' Hlt Hrecv d more Hp Hl. exfalso.
    apply recv_cases in Hrecv as [(Hi & _ & _)|[(b & bs & rest & _ & Hr & _)|(e & rest & _ & Hr & _)]];
      try discriminate.
    + rewrite Hi in Hp. simpl in Hp. symmetry in Hp.
      apply app_eq_nil in Hp as [-> _]. unfold len in *. simpl in *. lia.
    + injection Hr as Hr.
      destruct (Z.to_nat (n - len data)) eqn:E; [lia|discriminate].
  - intros sock n data e sock' Hlt Hrecv d more Hp Hl. exfalso.
    apply recv_cases in Hrecv as [(_ & Hr & _)|[(b & bs & rest & _ & Hr & _)|(e' & rest & Hi & _ & _)]];
      try discriminate.
    rewrite Hi in Hp. simpl in Hp. symmetry in Hp.
    apply app_eq_nil in Hp as [-> _]. unfold len in *. simpl in *. lia.
  - intros sock n data c cs sock' Hlt Hrecv IH d more Hp Hl.
    apply recv_cases in Hrecv as [(_ & Hr & _)|[(b & bs & rest & Hi & Hr & ->)|(e' & rest & _ & Hr & _)]];
      try discriminate.
    injection Hr as Hr.
    rewrite Hi in Hp. simpl pending in Hp.
    set (k := Z.to_nat (n - len data)) in *.
    set (X := b :: bs) in *.
    change (X ++ pending rest = d ++ more) in Hp.
    assert (Hk : k = length d) by (unfold k, len in *; lia).
    assert (Hd : d = firstn k X ++ firstn (k - length X) (pending rest)).
    { rewrite <- firstn_app. rewrite Hp. rewrite Hk. rewrite firstn_app, firstn_all, Nat.sub_diag.
      simpl. rewrite app_nil_r. reflexivity. }
    assert (Hm : skipn k X ++ pending rest
                 = firstn (k - length X) (pending rest) ++ more).
    { assert (Hs : skipn k (X ++ pending rest) = more).
      { rewrite Hp, Hk. rewrite skipn_app, skipn_all, Nat.sub_diag. reflexivity. }
      rewrite skipn_app in Hs.
      destruct (Nat.le_gt_cases k (length X)) as [Hle|Hgt].
      - replace (k - length X)%nat with 0%nat in * by lia.
        simpl in *. rewrite <- Hs. reflexivity.
      - rewrite skipn_all2 in * by lia. simpl in *.
        rewrite <- Hs. rewrite firstn_skipn. reflexivity. }
    specialize (IH (firstn (k - length X) (pending rest)) more).
    simpl inbox in IH. rewrite pending_unseg, after_pending_unseg in IH.
    destruct IH as (IH1 & IH2 & IH3).
    + exact Hm.
    + rewrite len_app. rewrite Hr. rewrite Hd in Hl.
      rewrite len_app in Hl. lia.
    + rewrite IH1, IH2, IH3. rewrite Hi. simpl after_pending.
      split; [|auto]. f_equal. rewrite <- app_assoc. f_equal.
      rewrite Hr. symmetry. exact Hd.
Qed.

(** When the stream ends, or raises, before the bytes asked for have
    come, the result is [None]. *)
Lemma _read_exact_loop_short (sock : socket) (n : Z) (data : bytes) :
  len data + len (pending (inbox sock)) < n ->
  fst (_read_exact_loop sock n data) = None.
Proof.
  apply (_read_exact_loop_ind'
           (fun sock n data r =>
              len data + len (pending (inbox sock)) < n -> fst r = None));
    clear; intros; simpl; try reflexivity.
  - pose proof (len_nonneg (pending (inbox sock))). lia.
  - apply H1.
    apply recv_cases in H0 as [(_ & Hr & _)|[(b & bs & rest & Hi & Hr & ->)|(e' & rest & _ & Hr & _)]];
      try discriminate.
    injection Hr as Hr. simpl inbox. rewrite pending_unseg.
    rewrite Hi in H2.
    change (pending (Seg b bs :: rest)) with ((b :: bs) ++ pending rest) in H2.
    rewrite !len_app in *. rewrite Hr.
    assert (len (b :: bs) = len (firstn (Z.to_nat (n - len data)) (b :: bs))
                            + len (skipn (Z.to_nat (n - len data)) (b :: bs))).
    { rewrite <- len_app, firstn_skipn. reflexivity. }
    lia.
Qed.

End ReadExact.

(** ** The frame codec *)

Section FrameCodec.

(** A frame is its four length bytes, its type byte and its payload. *)
Lemma frame_shape (t : Z) (p data : bytes) :
  frame t p = Ret data ->
  0 <= t < 256
  /\ exists b3 b2 b1 b0,
       data = [b3; b2; b1; b0; byte_of_Z t] ++ p
       /\ struct_unpack_I [b3; b2; b1; b0] = Ret (len p).
Proof.
  unfold frame. simpl.
  destruct (struct_pack_I (len p)) as [l|e] eqn:El; simpl; [|discriminate].
  unfold struct_pack_B.
  destruct ((0 <=? t) && (t <? 256)) eqn:Et; simpl; [|discriminate].
  intros H. injection H as <-.
  apply andb_prop in Et as [H0 H1].
  apply Z.leb_le in H0. apply Z.ltb_lt in H1.
  split; [lia|].
  pose proof (struct_unpack_pack_I _ _ El) as Hu.
  unfold struct_pack_I in El.
  destruct ((0 <=? len p) && (len p <? 2 ^ 32)); [|discriminate].
  injection El as <-.
  do 4 eexists. split; [reflexivity|exact Hu].
Qed.

Lemma frame_ok (t : Z) (p : bytes) :
  0 <= t < 256 -> len p < 2 ^ 32 -> exists data, frame t p = Ret data.
Proof.
  intros Ht Hp. unfold frame. simpl.
  destruct (struct_pack_I_ok (len p)) as (b3 & b2 & b1 & b0 & ->).
  { split; [apply len_nonneg|exact Hp]. }
  simpl. unfold struct_pack_B.
  destruct Ht as [H0 H1].
  apply Z.leb_le in H0. apply Z.ltb_lt in H1. rewrite H0, H1. simpl.
  eauto.
Qed.

(** A write the socket accepts appends the whole frame. *)
Lemma send_message_ok (sock : socket) (t : Z) (p data : bytes) :
  frame t p = Ret data ->
  hd SendAll (outbox sock) = SendAll ->
  send_message sock t p
  = (true, mk_socket (inbox sock) (tl (outbox sock)) (sent sock ++ data)).
Proof.
  intros Hf Ho. unfold send_message. rewrite Hf. unfold sendall.
  destruct (outbox sock) as [|[|k e] rest]; simpl in *;
    try reflexivity; discriminate.
Qed.

Lemma read_message_unfold (sock : socket) :
  read_message sock =
  match _read_exact_loop sock 5 [] with
  | (Some [b3; b2; b1; b0; t], sock1) =>
      match struct_unpack_I [b3; b2; b1; b0] with
      | Ret n =>
          match _read_exact_loop sock1 n [] with
          | (Some p, sock2) => ((Some (Z_of_byte t), Some p), sock2)
          | (None, sock2) => ((None, None), sock2)
          end
      | Raise _ => ((None, None), sock1)
      end
  | (_, sock1) => ((None, None), sock1)
  end.
Proof.
  unfold read_message, read_message_body, _read_exact.
  pose proof (_read_exact_loop_length sock 5 []) as Hlen.
  destruct (_read_exact_loop sock 5 []) as [[h|] sock1]; [|reflexivity].
  specialize (Hlen ltac:(unfold len; simpl; lia) h eq_refl).
  destruct h as [|b3 [|b2 [|b1 [|b0 [|t [|x h]]]]]];
    unfold len in Hlen; simpl in Hlen; try lia.
  simpl firstn. simpl skipn. cbv beta iota.
  change (struct_unpack_B [t]) with (@Ret Z (Z_of_byte t)).
  destruct (struct_unpack_I [b3; b2; b1; b0]) as [n|e]; simpl; [|reflexivity].
  destruct (_read_exact_loop sock1 n []) as [[p|] sock2]; reflexivity.
Qed.

(** A frame that has arrived in full, in whatever segments, is returned
    as its type byte and its payload, and the stream is left at the byte
    after it. *)
Lemma read_message_frame (sock : socket) (b3 b2 b1 b0 t : byte)
      (p more : bytes) :
  pending (inbox sock) = [b3; b2; b1; b0; t] ++ p ++ more ->
  struct_unpack_I [b3; b2; b1; b0] = Ret (len p) ->
  fst (read_message sock) = (Some (Z_of_byte t), Some p)
  /\ pending (inbox (snd (read_message sock))) = more
  /\ after_pending (inbox (snd (read_message sock)))
     = after_pending (inbox sock).
Proof.
  intros Hp Hu. rewrite read_message_unfold.
  destruct (_read_exact_loop_pending sock 5 [] [b3; b2; b1; b0; t] (p ++ more) Hp)
    as (H1 & H2 & H3); [reflexivity|].
  destruct (_read_exact_loop sock 5 []) as [h sock1]. simpl in H1, H2, H3.
  subst h. rewrite Hu.
  destruct (_read_exact_loop_pending sock1 (len p) [] p more H2)
    as (H4 & H5 & H6); [reflexivity|].
  destruct (_read_exact_loop sock1 (len p) []) as [q sock2].
  simpl in H4, H5, H6. subst q. simpl. rewrite H6. auto.
Qed.

Lemma read_message_one_segment (b3 b2 b1 b0 t : byte) (p : bytes) :
  struct_unpack_I [b3; b2; b1; b0] = Ret (len p) ->
  fst (read_message (mk_socket [Seg b3 ([b2; b1; b0; t] ++ p)] [] []))
  = (Some (Z_of_byte t), Some p).
Proof.
  intros Hu.
  refine (proj1 (read_message_frame _ b3 b2 b1 b0 t p [] _ Hu)).
  simpl. rewrite !app_nil_r. reflexivity.
Qed.

Lemma read_message_keeps_output (sock : socket) :
  outbox (snd (read_message sock)) = outbox sock
  /\ sent (snd (read_message sock)) = sent sock.
Proof.
  rewrite read_message_unfold.
  pose proof (_read_exact_loop_keeps_output sock 5 []) as [Ho Hs].
  destruct (_read_exact_loop sock 5 []) as [h sock1]. simpl in Ho, Hs.
  destruct h as [[|b3 [|b2 [|b1 [|b0 [|t [|x h]]]]]]|];
    try solve [simpl; auto].
  destruct (struct_unpack_I [b3; b2; b1; b0]) as [n|e];
    try solve [simpl; auto].
  pose proof (_read_exact_loop_keeps_output sock1 n []) as [Ho' Hs'].
  destruct (_read_exact_loop sock1 n []) as [[q|] sock2]; simpl in *;
    split; congruence.
Qed.

(** The stream ends, or raises, before a whole header has come. *)
Lemma read_message_short_header (sock : socket) :
  len (pending (inbox sock)) < 5 -> fst (read_message sock) = (None, None).
Proof.
  intros H. rewrite read_message_unfold.
  pose proof (_read_exact_loop_short sock 5 []) as Hs.
  destruct (_read_exact_loop sock 5 []) as [h sock1]. simpl in Hs.
  rewrite Hs; [reflexivity|]. unfold len in *. simpl. lia.
Qed.

(** The stream ends, or raises, before the payload the header announces
    has come. *)
Lemma read_message_short_payload (sock : socket) (b3 b2 b1 b0 t : byte)
      (rest : bytes) (n : Z) :
  pending (inbox sock) = [b3; b2; b1; b0; t] ++ rest ->
  struct_unpack_I [b3; b2; b1; b0] = Ret n ->
  len rest < n ->
  fst (read_message sock) = (None, None).
Proof.
  intros Hp Hu Hn. rewrite read_message_unfold.
  destruct (_read_exact_loop_pending sock 5 [] [b3; b2; b1; b0; t] rest Hp)
    as (H1 & H2 & H3); [reflexivity|].
  destruct (_read_exact_loop sock 5 []) as [h sock1]. simpl in H1, H2, H3.
  subst h. rewrite Hu.
  pose proof (_read_exact_loop_short sock1 n []) as Hs.
  destruct (_read_exact_loop sock1 n []) as [q sock2]. simpl in Hs.
  rewrite Hs; [reflexivity|]. rewrite H2. unfold len in *. simpl. lia.
Qed.

Lemma read_message_result (sock : socket) :
  fst (read_message sock) = (None, None)
  \/ exists (t : byte) (p : bytes),
       fst (read_message sock) = (Some (Z_of_byte t), Some p).
Proof.
  rewrite read_message_unfold.
  destruct (_read_exact_loop sock 5 []) as [h sock1].
  destruct h as [[|b3 [|b2 [|b1 [|b0 [|t [|x h]]]]]]|];
    try solve [simpl; auto].
  destruct (struct_unpack_I [b3; b2; b1; b0]) as [n|e];
    try solve [simpl; auto].
  destruct (_read_exact_loop sock1 n []) as [[q|] sock2]; simpl; eauto.
Qed.

End FrameCodec.

(** ** The claims about the frame codec *)

(** C2 -- framing round trip. For every payload [p] of at most 64 MiB and
    every type [t] among REQUEST and RESPONSE, the bytes [send_message]
    writes, once they have reached the peer (in whatever segments, followed
    by whatever else), are read back by [read_message] as exactly [(t, p)],
    and the stream is left just after the frame. *)
Theorem framing_round_trip (t : Z) (p : bytes) (tx rx : socket) (more : bytes) :
  t = MSG_REQUEST \/ t = MSG_RESPONSE ->
  len p <= 64 * 1024 * 1024 ->
  hd SendAll (outbox tx) = SendAll ->
  pending (inbox rx)
  = skipn (length (sent tx)) (sent (snd (send_message tx t p))) ++ more ->
  fst (send_message tx t p) = true
  /\ fst (read_message rx) = (Some t, Some p)
  /\ pending (inbox (snd (read_message rx))) = more.
Proof.
  intros Ht Hp Ho Hrx.
  assert (Ht' : 0 <= t < 256) by (unfold MSG_REQUEST, MSG_RESPONSE in Ht; lia).
  destruct (frame_ok t p Ht') as [data Hf].
  { change (2 ^ 32) with 4294967296. lia. }
  rewrite (send_message_ok tx t p data Hf Ho) in *. simpl in Hrx |- *.
  rewrite skipn_app, skipn_all, Nat.sub_diag in Hrx. simpl in Hrx.
  destruct (frame_shape t p data Hf) as (_ & b3 & b2 & b1 & b0 & -> & Hu).
  rewrite <- app_assoc in Hrx.
  destruct (read_message_frame rx b3 b2 b1 b0 (byte_of_Z t) p more Hrx Hu)
    as (H1 & H2 & _).
  rewrite Z_of_byte_of_Z, Z.mod_small in H1 by exact Ht'.
  auto.
Qed.

Lemma framing_round_trip_witness :
  fst (send_message idle_socket MSG_REQUEST (lit "GET")) = true
  /\ fst (read_message get_in_segments) = (Some MSG_REQUEST, Some (lit "GET"))
  /\ pending (inbox (snd (read_message get_in_segments))) = [].
Proof.
  apply (framing_round_trip MSG_REQUEST (lit "GET") idle_socket
                            get_in_segments []).
  - left. reflexivity.
  - vm_compute. discriminate.
  - reflexivity.
  - vm_compute. reflexivity.
Defined.

(** C4, as the specification has it, fails: a frame whose header announces
    65 MiB is not refused. Its payload is read and handed to the caller. *)
Lemma read_message_accepts_65_MiB :
  64 * 1024 * 1024 < len payload_65_MiB
  /\ fst (read_message
            (mk_socket [Seg x04 ([x10; x00; x00; x01] ++ payload_65_MiB)] [] []))
     = (Some MSG_RESPONSE, Some payload_65_MiB).
Proof.
  assert (Hlen : len payload_65_MiB = 68157440).
  { unfold len, payload_65_MiB. rewrite repeat_length. rewrite Z2Nat.id; lia. }
  split; [lia|].
  generalize dependent payload_65_MiB. intros p Hlen.
  apply (read_message_one_segment x04 x10 x00 x00 x01 p).
  rewrite Hlen. reflexivity.
Qed.

(** C4, amended -- [read_message] compares the announced length with no
    maximum: a frame of any announced length that has arrived in full is
    returned with its payload, and the read fails only when the stream ends
    or raises before the announced bytes have come. *)
Theorem read_message_no_length_limit (sock : socket) (b3 b2 b1 b0 t : byte)
        (n : Z) (rest : bytes) :
  pending (inbox sock) = [b3; b2; b1; b0; t] ++ rest ->
  struct_unpack_I [b3; b2; b1; b0] = Ret n ->
  (n <= len rest ->
   fst (read_message sock)
   = (Some (Z_of_byte t), Some (firstn (Z.to_nat n) rest)))
  /\ (len rest < n -> fst (read_message sock) = (None, None)).
Proof.
  intros Hp Hu. split.
  - intros Hn.
    pose proof (struct_unpack_I_range _ _ _ _ _ Hu) as Hr.
    assert (Hl : len (firstn (Z.to_nat n) rest) = n).
    { unfold len in *. rewrite firstn_length_le; lia. }
    rewrite <- (firstn_skipn (Z.to_nat n) rest) in Hp.
    rewrite <- Hl in Hu.
    destruct (read_message_frame sock b3 b2 b1 b0 t _ _ Hp Hu) as (H & _).
    exact H.
  - intros Hn. exact (read_message_short_payload sock b3 b2 b1 b0 t rest n Hp Hu Hn).
Qed.

Lemma read_message_no_length_limit_witness :
  (2 <= len [x41; x42; x43] ->
   fst (read_message type_7_frame)
   = (Some (Z_of_byte x07), Some (firstn (Z.to_nat 2) [x41; x42; x43])))
  /\ (len [x41; x42; x43] < 2 -> fst (read_message type_7_frame) = (None, None)).
Proof.
  apply (read_message_no_length_limit type_7_frame x00 x00 x00 x02 x07 2
                                      [x41; x42; x43]).
  - reflexivity.
  - reflexivity.
Defined.

(** C10 -- [read_message] is a total function with a single failure value.
    It gives [(None, None)] or a type byte with a payload and nothing else;
    a stream that closes, times out or raises before a whole header, or
    before the whole announced payload, gives [(None, None)] all the same;
    and the type byte of a frame that has arrived is handed back unchecked,
    whatever its value from 0 to 255. *)
Theorem read_message_total_single_failure :
  (forall sock,
      fst (read_message sock) = (None, None)
      \/ exists (t : byte) (p : bytes),
           0 <= Z_of_byte t <= 255
           /\ fst (read_message sock) = (Some (Z_of_byte t), Some p))
  /\ (forall sock,
         len (pending (inbox sock)) < 5 ->
         fst (read_message sock) = (None, None))
  /\ (forall sock (b3 b2 b1 b0 t : byte) (rest : bytes) (n : Z),
         pending (inbox sock) = [b3; b2; b1; b0; t] ++ rest ->
         struct_unpack_I [b3; b2; b1; b0] = Ret n ->
         len rest < n ->
         fst (read_message sock) = (None, None))
  /\ (forall sock (b3 b2 b1 b0 t : byte) (p more : bytes),
         pending (inbox sock) = [b3; b2; b1; b0; t] ++ p ++ more ->
         struct_unpack_I [b3; b2; b1; b0] = Ret (len p) ->
         fst (read_message sock) = (Some (Z_of_byte t), Some p)).
Proof.
  repeat split.
  - intros sock. destruct (read_message_result sock) as [H|(t & p & H)]; [left; exact H|].
    right. exists t, p. pose proof (Z_of_byte_range t). split; [lia|exact H].
  - apply read_message_short_header.
  - apply read_message_short_payload.
  - intros sock b3 b2 b1 b0 t p more Hp Hu.
    exact (proj1 (read_message_frame sock b3 b2 b1 b0 t p more Hp Hu)).
Qed.

Lemma read_message_total_single_failure_witness :
  fst (read_message
         (mk_socket [Seg x00 [x00; x00];
                     RecvRaise (mk_exn SocketTimeout (text "timed out"))]
                    [] []))
  = (None, None)
  /\ fst (read_message (mk_socket [Seg x00 [x00; x00]] [] [])) = (None, None)
  /\ fst (read_message (mk_socket [Seg x00 [x00; x00; x00; xff]] [] []))
     = (Some 255, Some []).
Proof.
  split; [|split].
  - apply (proj1 (proj2 read_message_total_single_failure)).
    vm_compute. reflexivity.
  - apply (proj1 (proj2 read_message_total_single_failure)).
    vm_compute. reflexivity.
  - apply (proj2 (proj2 (proj2 read_message_total_single_failure))
             _ x00 x00 x00 x00 xff [] []); reflexivity.
Defined.

(** ** The link manager: [connect_to_offshore] *)

Section LinkManager.

Lemma create_tcp_connection_spec (self : ShipProxyClient) :
  let r := create_tcp_connection self in
  trace (snd r)
  = trace self ++ [EvDial match fst r with Some _ => true | None => false end]
  /\ max_reconnect_attempts (snd r) = max_reconnect_attempts self
  /\ closed (snd r) = closed self
  /\ fst r = match network self with s :: _ => s | [] => None end.
Proof.
  cbv zeta. unfold create_tcp_connection.
  destruct (network self) as [|[s|] rest]; simpl; repeat split.
Qed.

Lemma range_seq (n : Z) : range n = map Z.of_nat (seq 0 (Z.to_nat n)).
Proof. reflexivity. Qed.

(** The loop from attempt [a] on, with [m] attempts left. *)
Lemma connect_attempts_spec (m : nat) :
  forall (a : nat) (self : ShipProxyClient),
    (0 < m)%nat ->
    max_reconnect_attempts self = Z.of_nat (a + m) ->
    let r := connect_attempts self (map Z.of_nat (seq a m)) in
    exists k : nat,
      (k < m)%nat
      /\ trace (snd r)
         = trace self ++ flat_map failed_dial (map Z.of_nat (seq a k))
                      ++ [EvDial (fst r)]
      /\ (fst r = false -> k = (m - 1)%nat /\ offshore_socket (snd r) = None)
      /\ (fst r = true ->
          reconnect_attempts (snd r) = 0
          /\ exists s, offshore_socket (snd r) = Some s)
      /\ max_reconnect_attempts (snd r) = max_reconnect_attempts self
      /\ closed (snd r) = closed self.
Proof.
  induction m as [|m IH]; intros a self Hm Hmax; [lia|].
  cbv zeta in *. simpl seq. simpl map. simpl connect_attempts.
  pose proof (create_tcp_connection_spec self) as (Ht & Hx & Hc & _).
  destruct (create_tcp_connection self) as [[s|] self1]; simpl in Ht, Hx, Hc.
  - exists 0%nat. simpl. rewrite Ht. repeat split; try lia; try congruence; eauto.
  - simpl max_reconnect_attempts. rewrite Hx, Hmax.
    destruct m as [|m].
    + replace (Z.of_nat a <? Z.of_nat (a + 1) - 1) with false
        by (symmetry; apply Z.ltb_ge; lia).
      simpl. exists 0%nat. simpl. rewrite Ht.
      repeat split; try lia; try congruence; auto.
    + replace (Z.of_nat a <? Z.of_nat (a + S (S m)) - 1) with true
        by (symmetry; apply Z.ltb_lt; lia).
      specialize (IH (S a) (sleep (set_offshore_socket self1 None)
                                  (Z.min (2 ^ Z.of_nat a) 10))).
      destruct IH as (k & Hk & Htr & Hf & Hs & Hm' & Hc').
      * lia.
      * simpl. rewrite Hx, Hmax. f_equal. lia.
      * exists (S k). change (seq a (S k)) with (a :: seq (S a) k).
        cbn [map flat_map].
        rewrite Htr. simpl trace. rewrite Ht.
        split; [lia|].
        split; [rewrite <- !app_assoc; reflexivity|].
        split; [intros H; apply Hf in H; destruct H; split; [lia|assumption]|].
        split; [exact Hs|].
        split; [rewrite Hm'; simpl; congruence|rewrite Hc'; simpl; exact Hc].
Qed.

(** A dial that succeeds at once. *)
Lemma connect_to_offshore_first (self : ShipProxyClient) (s : socket)
      (rest : list (option socket)) :
  0 < max_reconnect_attempts self ->
  network self = Some s :: rest ->
  connect_to_offshore self
  = (true, mk_client (Some s) 0 (max_reconnect_attempts self) rest
                     (trace self ++ [EvDial true]) (closed self)).
Proof.
  intros Hmax Hn. unfold connect_to_offshore, range.
  destruct (Z.to_nat (max_reconnect_attempts self)) as [|m] eqn:E; [lia|].
  simpl. unfold create_tcp_connection. rewrite Hn. reflexivity.
Qed.

End LinkManager.

(** C7 -- connecting makes at most 5 dial attempts; after the failed
    attempt number [a] (from 0) and before the next one the worker waits
    [min(2^a, 10)] seconds; when every attempt has failed the result is
    [False] and no socket is held; on success the result is [True], a socket
    is held and the reconnect counter is zero. *)
Theorem connect_to_offshore_backoff (self : ShipProxyClient) :
  max_reconnect_attempts self = 5 ->
  let r := connect_to_offshore self in
  exists dials : nat,
    (1 <= dials <= 5)%nat
    /\ count is_dial (skipn (length (trace self)) (trace (snd r))) = dials
    /\ trace (snd r)
       = trace self
         ++ flat_map failed_dial (range (Z.of_nat (dials - 1)))
         ++ [EvDial (fst r)]
    /\ (fst r = false -> dials = 5%nat /\ offshore_socket (snd r) = None)
    /\ (fst r = true ->
        reconnect_attempts (snd r) = 0
        /\ exists s, offshore_socket (snd r) = Some s).
Proof.
  intros Hmax r.
  destruct (connect_attempts_spec 5 0 self) as (k & Hk & Htr & Hf & Hs & _ & _);
    [lia|simpl; exact Hmax|].
  assert (Hr : r = connect_attempts self (map Z.of_nat (seq 0 5))).
  { unfold r, connect_to_offshore, range. rewrite Hmax. reflexivity. }
  rewrite <- Hr in *.
  exists (S k). replace (S k - 1)%nat with k by lia.
  unfold range. rewrite Nat2Z.id.
  split; [lia|]. split; [|split; [exact Htr|split; [|exact Hs]]].
  - rewrite Htr. rewrite skipn_app, skipn_all, Nat.sub_diag. simpl.
    unfold count. rewrite filter_app, length_app. simpl.
    assert (Hc : forall l, length (filter is_dial (flat_map failed_dial l)) = length l).
    { induction l as [|x l IHl]; simpl; [reflexivity|]. rewrite IHl. reflexivity. }
    rewrite Hc, length_map, length_seq. lia.
  - intros H. apply Hf in H. destruct H. split; [lia|assumption].
Qed.

Lemma connect_to_offshore_backoff_witness :
  exists dials : nat,
    (1 <= dials <= 5)%nat
    /\ count is_dial
             (skipn (length (trace client_third_time_lucky))
                    (trace (snd (connect_to_offshore client_third_time_lucky))))
       = dials
    /\ trace (snd (connect_to_offshore client_third_time_lucky))
       = trace client_third_time_lucky
         ++ flat_map failed_dial (range (Z.of_nat (dials - 1)))
         ++ [EvDial (fst (connect_to_offshore client_third_time_lucky))]
    /\ (fst (connect_to_offshore client_third_time_lucky) = false ->
        dials = 5%nat
        /\ offshore_socket (snd (connect_to_offshore client_third_time_lucky))
           = None)
    /\ (fst (connect_to_offshore client_third_time_lucky) = true ->
        reconnect_attempts (snd (connect_to_offshore client_third_time_lucky)) = 0
        /\ exists s,
             offshore_socket (snd (connect_to_offshore client_third_time_lucky))
             = Some s).
Proof.
  apply (connect_to_offshore_backoff client_third_time_lucky). reflexivity.
Defined.

Example connect_third_time_lucky :
  trace (snd (connect_to_offshore client_third_time_lucky))
  = [EvDial false; EvSleep 1; EvDial false; EvSleep 2; EvDial true].
Proof. reflexivity. Qed.

Example connect_all_fail :
  trace (snd (connect_to_offshore (init [])))
  = [EvDial false; EvSleep 1; EvDial false; EvSleep 2; EvDial false;
     EvSleep 4; EvDial false; EvSleep 8; EvDial false].
Proof. reflexivity. Qed.

(** ** The multiplexer worker *)

Ltac client_simpl :=
  unfold set_offshore_socket, set_reconnect_attempts, log, close_connection,
    sleep, delivered, failed;
  simpl; rewrite <- ?app_assoc; simpl.

Section Worker.

Lemma send_request_connected (self : ShipProxyClient) (sock : socket)
      (payload : bytes) :
  offshore_socket self = Some sock ->
  send_request self payload
  = (fst (send_message sock MSG_REQUEST payload),
     mk_client (Some (snd (send_message sock MSG_REQUEST payload)))
               (reconnect_attempts self) (max_reconnect_attempts self)
               (network self)
               (trace self
                ++ [EvSend payload (fst (send_message sock MSG_REQUEST payload))])
               (closed self)).
Proof.
  intros Hs. unfold send_request. rewrite Hs.
  destruct (send_message sock MSG_REQUEST payload) as [ok sock'].
  reflexivity.
Qed.

(** What [await_response] does, by the frame that is read. *)
Lemma await_response_connected (self : ShipProxyClient) (sock : socket) :
  offshore_socket self = Some sock ->
  let r := fst (read_message sock) in
  let sock' := snd (read_message sock) in
  (forall p, r = (Some MSG_RESPONSE, Some p) ->
     await_response self
     = (mk_client (Some sock') (reconnect_attempts self)
                  (max_reconnect_attempts self) (network self)
                  (trace self ++ [EvRead r]) (closed self),
        delivered p))
  /\ ((forall p, r <> (Some MSG_RESPONSE, Some p)) ->
      await_response self
      = (mk_client None (reconnect_attempts self)
                   (max_reconnect_attempts self) (network self)
                   (trace self ++ [EvRead r; EvClose]) (closed self ++ [sock']),
         failed "Invalid response from offshore proxy")).
Proof.
  intros Hs r sock'. subst r sock'.
  unfold await_response, read_response. rewrite Hs.
  destruct (read_message sock) as [[mt pl] sock']. simpl.
  split.
  - intros p Hr. injection Hr as -> ->. simpl.
    reflexivity.
  - intros Hr.
    destruct mt as [t|]; destruct pl as [p|];
      try (client_simpl; reflexivity).
    destruct (t =? MSG_RESPONSE) eqn:Et.
    + apply Z.eqb_eq in Et. subst t. exfalso. apply (Hr p). reflexivity.
    + client_simpl. reflexivity.
Qed.

Lemma await_response_trace (self : ShipProxyClient) :
  exists r tl,
    trace (fst (await_response self)) = trace self ++ EvRead r :: tl
    /\ (tl = [] \/ tl = [EvClose]).
Proof.
  unfold await_response, read_response.
  destruct (offshore_socket self) as [sock|] eqn:Hs.
  - destruct (read_message sock) as [[mt pl] sock']. simpl.
    destruct mt as [t|]; destruct pl as [p|];
      try (eexists; exists [EvClose]; client_simpl; split;
           [reflexivity|right; reflexivity]).
    destruct (t =? MSG_RESPONSE).
    + eexists; exists []. client_simpl. split; [reflexivity|left; reflexivity].
    + eexists; exists [EvClose]. client_simpl. split;
        [reflexivity|right; reflexivity].
  - eexists; exists []. client_simpl. rewrite Hs. simpl.
    split; [reflexivity|left; reflexivity].
Qed.

Lemma process_item_after_connect (self0 self : ShipProxyClient)
      (item : request_item) :
  offshore_socket self0 = None ->
  connect_to_offshore self0 = (true, self) ->
  (exists s, offshore_socket self = Some s) ->
  process_item self0 item = process_item self item.
Proof.
  intros H0 Hc [s Hs]. unfold process_item. rewrite H0, Hc, Hs. reflexivity.
Qed.

Lemma process_requests_cons (self : ShipProxyClient) (item : request_item)
      (rest : list request_item) :
  process_requests self (item :: rest)
  = (fst (process_requests (fst (process_item self item)) rest),
     snd (process_item self item)
     :: snd (process_requests (fst (process_item self item)) rest)).
Proof.
  simpl. destruct (process_item self item) as [self1 c]. simpl.
  destruct (process_requests self1 rest) as [self2 cs]. reflexivity.
Qed.

Lemma skipn_app_exact {A : Type} (l1 l2 : list A) :
  skipn (length l1) (l1 ++ l2) = l2.
Proof. rewrite skipn_app, skipn_all, Nat.sub_diag. reflexivity. Qed.

Lemma connect_to_offshore_no_send (self : ShipProxyClient) :
  0 < max_reconnect_attempts self ->
  exists tl,
    trace (snd (connect_to_offshore self)) = trace self ++ tl
    /\ count is_send tl = 0%nat /\ count is_read tl = 0%nat
    /\ exists ok tl', tl = EvDial ok :: tl'.
Proof.
  intros Hmax. unfold connect_to_offshore, range.
  destruct (connect_attempts_spec (Z.to_nat (max_reconnect_attempts self)) 0 self)
    as (k & _ & Htr & _); [lia|simpl; lia|].
  rewrite Htr. eexists. split; [reflexivity|].
  assert (Hc : forall f l, (forall a, f (EvDial a) = false) ->
                           (forall z, f (EvSleep z) = false) ->
                           length (filter f (flat_map failed_dial l)) = 0%nat).
  { intros f l Hd Hz. induction l as [|x l IHl]; simpl; [reflexivity|].
    rewrite Hd, Hz. exact IHl. }
  unfold count. rewrite !filter_app, !length_app, !Hc by reflexivity.
  simpl. repeat split.
  destruct (map Z.of_nat (seq 0 k)) as [|x l]; simpl; eauto.
Qed.

End Worker.

(** A REQUEST write that fails on the socket the client holds: the socket
    is closed and cleared, [connect_to_offshore] is called once, and the
    write is tried once more on the new link. *)
Lemma write_failure_on_held_link (self : ShipProxyClient)
        (item : request_item) (sock : socket) :
  offshore_socket self = Some sock ->
  0 < max_reconnect_attempts self ->
  fst (send_message sock MSG_REQUEST (request_data item)) = false ->
  let payload := request_data item in
  let sock1 := snd (send_message sock MSG_REQUEST payload) in
  let torn :=
    mk_client None (reconnect_attempts self) (max_reconnect_attempts self)
              (network self)
              (trace self ++ [EvSend payload false; EvClose])
              (closed self ++ [sock1]) in
  let re := connect_to_offshore torn in
  let retry := send_request (snd re) payload in
  let out := process_item self item in
  let done := skipn (length (trace self)) (trace (fst out)) in
  (fst re = false ->
   out = (snd re, failed "Lost connection to offshore proxy")
   /\ count is_send done = 1%nat /\ count is_read done = 0%nat)
  /\ (fst re = true -> fst retry = false ->
      out = (snd retry, failed "Failed to send request after reconnection")
      /\ count is_send done = 2%nat /\ count is_read done = 0%nat)
  /\ (fst re = true -> fst retry = true ->
      out = await_response (snd retry)
      /\ count is_send done = 2%nat)
  /\ (fst re = true ->
      trace (snd retry) = trace (snd re) ++ [EvSend payload (fst retry)])
  /\ event_set (snd out) = 1%nat
  /\ task_done (snd out) = 1%nat
  /\ (forall rest,
         process_requests self (item :: rest)
         = (fst (process_requests (fst out) rest),
            snd out :: snd (process_requests (fst out) rest))).
Proof.
  intros Hs Hmax Hfail payload sock1 torn re retry out done.
  assert (Hout : out = if fst re
                       then if fst retry
                            then await_response (snd retry)
                            else (snd retry,
                                  failed "Failed to send request after reconnection")
                       else (snd re, failed "Lost connection to offshore proxy")).
  { unfold out, process_item. rewrite Hs. simpl negb. cbv iota.
    rewrite (send_request_connected self sock (request_data item) Hs).
    rewrite Hfail. cbv iota. client_simpl.
    change (connect_to_offshore _) with re.
    destruct re as [ok self5] eqn:Ere. simpl fst. simpl snd.
    destruct ok; [|reflexivity].
    change (send_request self5 (request_data item)) with retry.
    destruct retry as [ok' self6]. reflexivity. }
  destruct (connect_to_offshore_no_send torn Hmax)
    as (tl & Htl & Hsend & Hread & _).
  fold re in Htl.
  assert (Hre : exists s, fst re = true -> offshore_socket (snd re) = Some s).
  { destruct (connect_attempts_spec (Z.to_nat (max_reconnect_attempts torn)) 0 torn)
      as (k & _ & _ & _ & Hok & _); [simpl; lia|simpl; lia|].
    fold (range (max_reconnect_attempts torn)) in Hok.
    fold (connect_to_offshore torn) in Hok. fold re in Hok.
    destruct (fst re).
    - destruct (Hok eq_refl) as (_ & s & Hs'). exists s. auto.
    - exists sock. discriminate. }
  destruct Hre as [s Hre].
  assert (Hretry : fst re = true ->
                   trace (snd retry) = trace (snd re) ++ [EvSend payload (fst retry)]).
  { intros Ht. unfold retry.
    rewrite (send_request_connected (snd re) s payload (Hre Ht)). reflexivity. }
  assert (Hcount : forall f (a b : list event),
             count f (a ++ b) = (count f a + count f b)%nat).
  { intros f a b. unfold count. rewrite filter_app, length_app. reflexivity. }
  split; [|split; [|split; [|split; [exact Hretry|]]]].
  - intros Hf. rewrite Hf in Hout. split; [exact Hout|].
    unfold done. rewrite Hout. simpl fst. rewrite Htl. simpl trace.
    rewrite <- app_assoc, skipn_app_exact. rewrite !Hcount, Hsend, Hread.
    split; reflexivity.
  - intros Ht Hf. rewrite Ht, Hf in Hout. split; [exact Hout|].
    unfold done. rewrite Hout. simpl fst. rewrite (Hretry Ht), Htl. simpl trace.
    rewrite <- !app_assoc, skipn_app_exact. rewrite !Hcount, Hsend, Hread.
    split; reflexivity.
  - intros Ht Hok. rewrite Ht, Hok in Hout. split; [exact Hout|].
    unfold done. rewrite Hout.
    destruct (await_response_trace (snd retry)) as (r & tl' & Hr & Htl').
    rewrite Hr, (Hretry Ht), Htl. simpl trace.
    rewrite <- !app_assoc, skipn_app_exact. rewrite !Hcount, Hsend.
    destruct Htl' as [-> | ->]; reflexivity.
  - split; [|split].
    + rewrite Hout. destruct (fst re); [destruct (fst retry)|]; try reflexivity.
      unfold await_response.
      destruct (read_response (snd retry)) as [[[t|] [p|]] self'];
        try reflexivity.
      destruct (t =? MSG_RESPONSE); reflexivity.
    + rewrite Hout. destruct (fst re); [destruct (fst retry)|]; try reflexivity.
      unfold await_response.
      destruct (read_response (snd retry)) as [[[t|] [p|]] self'];
        try reflexivity.
      destruct (t =? MSG_RESPONSE); reflexivity.
    + intros rest. apply process_requests_cons.
Qed.

Example write_failure_trace :
  trace (fst (process_item client_on_bad_links get_item))
  = [EvSend (request_data get_item) false; EvClose; EvDial true;
     EvSend (request_data get_item) false].
Proof. reflexivity. Qed.

(** Every step of the worker only adds to the trace. *)
Section TraceGrows.

Local Notation "s '~>' s'" := (exists x, trace s' = trace s ++ x)
  (at level 70, no associativity).

Lemma grows_refl (s : ShipProxyClient) : s ~> s.
Proof. exists []. rewrite app_nil_r. reflexivity. Qed.

Lemma grows_trans (s1 s2 s3 : ShipProxyClient) :
  s1 ~> s2 -> s2 ~> s3 -> s1 ~> s3.
Proof.
  intros [x Hx] [y Hy]. exists (x ++ y). rewrite Hy, Hx, app_assoc.
  reflexivity.
Qed.

Lemma connect_attempts_grows (attempts : list Z) :
  forall s, s ~> snd (connect_attempts s attempts).
Proof.
  induction attempts as [|a rest IH]; intros s; simpl; [apply grows_refl|].
  pose proof (create_tcp_connection_spec s) as (Ht & _).
  destruct (create_tcp_connection s) as [[k|] s1]; simpl in Ht.
  - simpl. eauto.
  - eapply grows_trans; [|apply IH].
    destruct (a <? _); simpl; rewrite Ht; [rewrite <- app_assoc|]; eauto.
Qed.

Lemma connect_to_offshore_grows (s : ShipProxyClient) :
  s ~> snd (connect_to_offshore s).
Proof. apply connect_attempts_grows. Qed.

Lemma send_request_grows (s : ShipProxyClient) (p : bytes) :
  s ~> snd (send_request s p).
Proof.
  unfold send_request. destruct (offshore_socket s) as [k|]; simpl; eauto.
  destruct (send_message k MSG_REQUEST p). simpl. eauto.
Qed.

Lemma await_response_grows (s : ShipProxyClient) :
  s ~> fst (await_response s).
Proof.
  destruct (await_response_trace s) as (r & x & Hx & _). eauto.
Qed.

Lemma invalidate_grows (s : ShipProxyClient) :
  s ~> set_offshore_socket (close_connection s (offshore_socket s)) None.
Proof.
  unfold close_connection. destruct (offshore_socket s); simpl; eauto.
  apply grows_refl.
Qed.

Lemma process_item_extends (s : ShipProxyClient) (item : request_item) :
  s ~> fst (process_item s item).
Proof.
  unfold process_item.
  assert (H1 : s ~> snd (match offshore_socket s with
                         | Some _ => (true, s)
                         | None => connect_to_offshore s
                         end)).
  { destruct (offshore_socket s); [apply grows_refl|].
    apply connect_to_offshore_grows. }
  destruct (match offshore_socket s with
            | Some _ => (true, s)
            | None => connect_to_offshore s
            end) as [c s1].
  simpl in H1. destruct c; simpl negb; cbv iota; [|exact H1].
  pose proof (send_request_grows s1 (request_data item)) as H2.
  destruct (send_request s1 (request_data item)) as [ok s2]. simpl in H2.
  destruct ok.
  - eapply grows_trans; [exact H1|]. eapply grows_trans; [exact H2|].
    apply await_response_grows.
  - pose proof (invalidate_grows s2) as H3.
    set (s4 := set_offshore_socket
                 (close_connection s2 (offshore_socket s2)) None) in *.
    pose proof (connect_to_offshore_grows s4) as H5.
    destruct (connect_to_offshore s4) as [re s5]. simpl in H5.
    assert (H15 : s ~> s5).
    { eapply grows_trans; [exact H1|]. eapply grows_trans; [exact H2|].
      eapply grows_trans; [exact H3|exact H5]. }
    destruct re; [|exact H15].
    pose proof (send_request_grows s5 (request_data item)) as H6.
    destruct (send_request s5 (request_data item)) as [ok' s6]. simpl in H6.
    destruct ok'.
    + eapply grows_trans; [exact H15|]. eapply grows_trans; [exact H6|].
      apply await_response_grows.
    + eapply grows_trans; [exact H15|exact H6].
Qed.

End TraceGrows.

Lemma process_item_write_ok (self : ShipProxyClient) (item : request_item)
      (sock : socket) :
  offshore_socket self = Some sock ->
  fst (send_message sock MSG_REQUEST (request_data item)) = true ->
  process_item self item
  = await_response
      (mk_client (Some (snd (send_message sock MSG_REQUEST (request_data item))))
                 (reconnect_attempts self) (max_reconnect_attempts self)
                 (network self)
                 (trace self ++ [EvSend (request_data item) true])
                 (closed self)).
Proof.
  intros Hs Hok. unfold process_item. rewrite Hs. simpl negb. cbv iota.
  rewrite (send_request_connected self sock (request_data item) Hs).
  rewrite Hok. reflexivity.
Qed.

(** After a write that succeeded on the socket the client holds: one
    read, and the frame is accepted or the link torn down. *)
Lemma response_on_held_link (self : ShipProxyClient)
      (item : request_item) (sock : socket) :
  offshore_socket self = Some sock ->
  fst (send_message sock MSG_REQUEST (request_data item)) = true ->
  let payload := request_data item in
  let sock1 := snd (send_message sock MSG_REQUEST payload) in
  let r := fst (read_message sock1) in
  let sock2 := snd (read_message sock1) in
  let tr := trace self ++ [EvSend payload true; EvRead r] in
  (forall p, r = (Some MSG_RESPONSE, Some p) ->
     process_item self item
     = (mk_client (Some sock2) (reconnect_attempts self)
                  (max_reconnect_attempts self) (network self) tr (closed self),
        delivered p))
  /\ ((forall p, r <> (Some MSG_RESPONSE, Some p)) ->
      process_item self item
      = (mk_client None (reconnect_attempts self)
                   (max_reconnect_attempts self) (network self)
                   (tr ++ [EvClose]) (closed self ++ [sock2]),
         failed "Invalid response from offshore proxy"))
  /\ exists tl,
       trace (fst (process_item self item)) = tr ++ tl
       /\ (tl = [] \/ tl = [EvClose]).
Proof.
  intros Hs Hok payload sock1 r sock2 tr.
  assert (Hout : process_item self item
                 = await_response
                     (mk_client (Some sock1) (reconnect_attempts self)
                                (max_reconnect_attempts self) (network self)
                                (trace self ++ [EvSend payload true])
                                (closed self))).
  { apply process_item_write_ok; assumption. }
  pose proof (await_response_connected
                (mk_client (Some sock1) (reconnect_attempts self)
                           (max_reconnect_attempts self) (network self)
                           (trace self ++ [EvSend payload true])
                           (closed self)) sock1 eq_refl) as [Hacc Hrej].
  simpl in Hacc, Hrej. fold r in Hacc, Hrej. fold sock2 in Hacc, Hrej.
  rewrite <- !app_assoc in Hacc, Hrej. simpl in Hacc, Hrej.
  assert (Hcases : (exists p, r = (Some MSG_RESPONSE, Some p))
                   \/ (forall p, r <> (Some MSG_RESPONSE, Some p))).
  { destruct r as [[t|] [p|]]; try (right; intros q; discriminate).
    destruct (Z.eq_dec t MSG_RESPONSE) as [->|Ht].
    - left. exists p. reflexivity.
    - right. intros q E. apply Ht. congruence. }
  split; [|split].
  - intros p Hr. rewrite Hout. apply Hacc. exact Hr.
  - intros Hr. rewrite Hout. unfold tr. rewrite <- app_assoc. simpl.
    apply Hrej. exact Hr.
  - rewrite Hout. destruct Hcases as [[p Hr]|Hr].
    + exists []. rewrite (Hacc p Hr). cbn [fst trace].
      rewrite app_nil_r. split; [reflexivity|left; reflexivity].
    + exists [EvClose]. rewrite (Hrej Hr). cbn [fst trace].
      unfold tr. rewrite <- app_assoc. split; [reflexivity|right; reflexivity].
Qed.

(** An item met while no socket is held starts with a dial. *)
Lemma no_socket_starts_with_dial (later : ShipProxyClient)
      (next : request_item) :
  offshore_socket later = None ->
  0 < max_reconnect_attempts later ->
  exists ok tl,
    trace (fst (process_item later next)) = trace later ++ EvDial ok :: tl.
Proof.
  intros Hnone Hmax.
  destruct (connect_to_offshore_no_send later Hmax)
    as (tl & Htl & _ & _ & ok & tl' & ->).
  destruct (connect_to_offshore later) as [c self1] eqn:Hc. simpl in Htl.
  destruct c.
  + destruct (connect_attempts_spec (Z.to_nat (max_reconnect_attempts later)) 0 later)
      as (k & _ & _ & _ & Hsome & _); [lia|simpl; lia|].
    fold (range (max_reconnect_attempts later)) in Hsome.
    fold (connect_to_offshore later) in Hsome. rewrite Hc in Hsome.
    destruct (Hsome eq_refl) as (_ & Hs1).
    rewrite (process_item_after_connect later self1 next Hnone Hc Hs1).
    destruct (process_item_extends self1 next) as [x Hx].
    rewrite Hx, Htl, <- app_assoc. simpl. eauto.
  + unfold process_item. rewrite Hnone, Hc. simpl. eauto.
Qed.

(** C1 -- FIFO on the wire. On a link that stays up (every write is
    accepted and the peer answers each request with one RESPONSE frame, in
    whatever segments), for the items [s1 .. sN] in the order the worker
    takes them from the queue: the bytes written to the offshore socket are
    the frames of [s1], ..., [sN] one after the other; each item's frame is
    written and its response read before the next item is begun; and the
    responses are handed to the submitters in that same order, paired by
    position alone. *)
Theorem fifo_on_the_wire (queue : list request_item) :
  forall (responses : list bytes) (self : ShipProxyClient) (sock : socket)
         (more : bytes),
    offshore_socket self = Some sock ->
    outbox sock = [] ->
    length responses = length queue ->
    Forall (fun it => len (request_data it) < 2 ^ 32) queue ->
    Forall (fun r => len r < 2 ^ 32) responses ->
    pending (inbox sock)
    = concat (map (frame_bytes MSG_RESPONSE) responses) ++ more ->
    let out := process_requests self queue in
    exists sock',
      offshore_socket (fst out) = Some sock'
      /\ sent sock'
         = sent sock
           ++ concat (map (fun it => frame_bytes MSG_REQUEST (request_data it))
                          queue)
      /\ snd out = map delivered responses
      /\ trace (fst out)
         = trace self
           ++ flat_map (fun ir => [EvSend (request_data (fst ir)) true;
                                   EvRead (Some MSG_RESPONSE, Some (snd ir))])
                       (combine queue responses)
      /\ pending (inbox sock') = more
      /\ closed (fst out) = closed self
      /\ network (fst out) = network self.
Proof.
  induction queue as [|it q IH];
    intros responses self sock more Hs Ho Hlen Hq Hr Hp out.
  - destruct responses; [|discriminate]. exists sock. subst out. simpl in *.
    rewrite !app_nil_r. auto 10.
  - destruct responses as [|r rs]; [discriminate|].
    inversion Hq as [|? ? Hit Hq']; subst.
    inversion Hr as [|? ? Hr1 Hr']; subst.
    destruct (frame_ok MSG_REQUEST (request_data it)) as [data Hdata];
      [unfold MSG_REQUEST; lia|exact Hit|].
    destruct (frame_ok MSG_RESPONSE r) as [rdata Hrdata];
      [unfold MSG_RESPONSE; lia|exact Hr1|].
    assert (Hsend : send_message sock MSG_REQUEST (request_data it)
                    = (true, mk_socket (inbox sock) [] (sent sock ++ data))).
    { rewrite (send_message_ok sock _ _ data Hdata); rewrite Ho; reflexivity. }
    set (sock1 := mk_socket (inbox sock) [] (sent sock ++ data)) in *.
    destruct (frame_shape _ _ _ Hrdata) as (_ & b3 & b2 & b1 & b0 & -> & Hu).
    assert (Hp1 : pending (inbox sock1)
                  = [b3; b2; b1; b0; byte_of_Z MSG_RESPONSE] ++ r
                    ++ (concat (map (frame_bytes MSG_RESPONSE) rs) ++ more)).
    { simpl inbox. rewrite Hp. simpl map. simpl concat.
      unfold frame_bytes at 1. rewrite Hrdata. rewrite <- !app_assoc.
      reflexivity. }
    destruct (read_message_frame sock1 _ _ _ _ _ _ _ Hp1 Hu) as (Hread & Hpend & _).
    destruct (read_message_keeps_output sock1) as [Ho2 Hs2].
    rewrite Z_of_byte_of_Z in Hread. change (MSG_RESPONSE mod 256) with MSG_RESPONSE in Hread.
    set (sock2 := snd (read_message sock1)) in *.
    assert (Hitem : process_item self it
                    = (mk_client (Some sock2) (reconnect_attempts self)
                                 (max_reconnect_attempts self) (network self)
                                 (trace self ++ [EvSend (request_data it) true;
                                                 EvRead (Some MSG_RESPONSE, Some r)])
                                 (closed self),
                       delivered r)).
    { rewrite (process_item_write_ok self it sock Hs); rewrite Hsend; [|reflexivity].
      simpl snd.
      pose proof (await_response_connected
                    (mk_client (Some sock1) (reconnect_attempts self)
                               (max_reconnect_attempts self) (network self)
                               (trace self ++ [EvSend (request_data it) true])
                               (closed self)) sock1 eq_refl) as [Hacc _].
      simpl in Hacc. rewrite (Hacc r Hread). rewrite Hread.
      rewrite <- app_assoc. reflexivity. }
    subst out. rewrite process_requests_cons. rewrite Hitem. simpl fst. simpl snd.
    specialize (IH rs (mk_client (Some sock2) (reconnect_attempts self)
                                 (max_reconnect_attempts self) (network self)
                                 (trace self ++ [EvSend (request_data it) true;
                                                 EvRead (Some MSG_RESPONSE, Some r)])
                                 (closed self))
                   sock2 more eq_refl).
    destruct IH as (sock' & H1 & H2 & H3 & H4 & H5 & H6 & H7);
      [exact Ho2|simpl in Hlen; lia|exact Hq'|exact Hr'|exact Hpend|].
    exists sock'. simpl map. simpl concat. simpl combine. simpl flat_map.
    rewrite H1, H2, H3, H4, H5, H6, H7. simpl.
    rewrite Hs2. simpl sent. unfold frame_bytes at 2. rewrite Hdata.
    rewrite <- !app_assoc. simpl. auto 10.
Qed.

Lemma fifo_on_the_wire_witness :
  exists sock',
    offshore_socket (fst (process_requests client_on_answering_link
                                           [get_item; head_item]))
    = Some sock'
    /\ sent sock'
       = sent answering_link
         ++ concat (map (fun it => frame_bytes MSG_REQUEST (request_data it))
                        [get_item; head_item])
    /\ snd (process_requests client_on_answering_link [get_item; head_item])
       = map delivered [lit "ok"; lit "no"]
    /\ trace (fst (process_requests client_on_answering_link
                                    [get_item; head_item]))
       = trace client_on_answering_link
         ++ flat_map (fun ir => [EvSend (request_data (fst ir)) true;
                                 EvRead (Some MSG_RESPONSE, Some (snd ir))])
                     (combine [get_item; head_item] [lit "ok"; lit "no"])
    /\ pending (inbox sock') = []
    /\ closed (fst (process_requests client_on_answering_link
                                     [get_item; head_item]))
       = closed client_on_answering_link
    /\ network (fst (process_requests client_on_answering_link
                                      [get_item; head_item]))
       = network client_on_answering_link.
Proof.
  apply (fifo_on_the_wire [get_item; head_item] [lit "ok"; lit "no"]
                          client_on_answering_link answering_link []).
  - reflexivity.
  - reflexivity.
  - reflexivity.
  - repeat constructor.
  - repeat constructor.
  - vm_compute. reflexivity.
Defined.

(** ** The text model on the inputs checked against Python *)

Example decode_samples :
  map utf8_decode_replace
      [ [xff]; [xe2; x82]; [xe2; x82; x41]; [xf0; x90; x80]; [xe0; x80];
        [xc0; x80]; [xed; xa0; x80]; [xf4; x90; x80; x80]; [xc2];
        [xf0; x8f; x80]; [xe2; x82; xe2; x82; xac]; [xf0; x90; x80; x41];
        [xf4; x8f; xbf; xbf]; [xed; x9f; xbf]; [xee; x80; x80]; [xc3; xa9] ]
  = [ [65533]; [65533]; [65533; 65]; [65533]; [65533; 65533];
      [65533; 65533]; [65533; 65533; 65533]; [65533; 65533; 65533; 65533];
      [65533]; [65533; 65533; 65533]; [65533; 8364]; [65533; 65];
      [1114111]; [55295]; [57344]; [233] ].
Proof. vm_compute. reflexivity. Qed.

Example split_samples :
  split (text "a  b") [32] = [text "a"; []; text "b"]
  /\ split [] crlf = [[]]
  /\ split [97; 13; 10] crlf = [[97]; []]
  /\ split [13; 13; 10; 10] crlf = [[13]; [10]]
  /\ strip [32; 9; 97; 32; 98; 32; 13] = [97; 32; 98]
  /\ split_once 58 (text "a:b:c") = (text "a", text "b:c")
  /\ utf8_encode [233; 8364; 1114111]
     = Ret [xc3; xa9; xe2; x82; xac; xf4; x8f; xbf; xbf]
  /\ str_of_int 404 = text "404".
Proof. vm_compute. repeat split. Qed.

(** ** Facts about the text model *)

Section TextFacts.

Lemma split_from_not_nil (sep : str) (s : str) :
  forall skip cur, split_from sep skip cur s <> [].
Proof.
  induction s as [|c s IH]; intros skip cur; [discriminate|].
  cbn [split_from]. destruct skip; [|apply IH].
  destruct (startswith (c :: s) sep); [discriminate|apply IH].
Qed.

Lemma split_nil (sep : str) : split [] sep = [[]].
Proof. reflexivity. Qed.

Lemma str_eqb_refl (s : str) : str_eqb s s = true.
Proof.
  induction s as [|c s IH]; simpl; [reflexivity|].
  rewrite Z.eqb_refl, IH. reflexivity.
Qed.

Lemma str_eqb_eq (a b : str) : str_eqb a b = true <-> a = b.
Proof.
  split; [|intros ->; apply str_eqb_refl].
  revert b. induction a as [|x a IH]; intros [|y b]; simpl;
    try discriminate; try reflexivity.
  intros H. apply andb_prop in H as [H1 H2].
  apply Z.eqb_eq in H1. apply IH in H2. congruence.
Qed.

End TextFacts.

(** ** Text that can be encoded *)

Ltac bool_facts :=
  repeat match goal with
    | H : (_ && _) = true |- _ => apply andb_prop in H; destruct H
    | H : (_ || _) = false |- _ => apply orb_false_elim in H; destruct H
    | H : negb _ = false |- _ => apply negb_false_iff in H
    | H : negb _ = true |- _ => apply negb_true_iff in H
    | H : (_ <? _) = true |- _ => apply Z.ltb_lt in H
    | H : (_ <? _) = false |- _ => apply Z.ltb_ge in H
    | H : (_ <=? _) = true |- _ => apply Z.leb_le in H
    | H : (_ <=? _) = false |- _ => apply Z.leb_gt in H
    | H : (_ =? _) = true |- _ => apply Z.eqb_eq in H
    | H : (_ =? _) = false |- _ => apply Z.eqb_neq in H
    end.

Create HintDb clean.

Section Clean.

Lemma encode_cp_range (c : Z) :
  0 <= c < 55296 \/ 57344 <= c < 1114112 -> encode_cp c <> None.
Proof.
  intros H. unfold encode_cp, is_surrogate.
  destruct (c <? 0) eqn:E0; bool_facts; [lia|].
  destruct (c <? 128) eqn:E1; [discriminate|].
  destruct (c <? 2048) eqn:E2; [discriminate|].
  destruct (c <? 65536) eqn:E3.
  - destruct ((55296 <=? c) && (c <=? 57343)) eqn:E4; [|discriminate].
    bool_facts. lia.
  - destruct (c <? 1114112) eqn:E5; [discriminate|]. bool_facts. lia.
Qed.

Lemma clean_nil : clean [].
Proof. constructor. Qed.

Lemma clean_app (a b : str) : clean a -> clean b -> clean (a ++ b).
Proof. intros Ha Hb. apply Forall_app. split; assumption. Qed.

Lemma clean_app_inv (a b : str) : clean (a ++ b) -> clean a /\ clean b.
Proof. intros H. apply Forall_app in H. exact H. Qed.

Lemma clean_cons (c : Z) (s : str) :
  0 <= c < 55296 \/ 57344 <= c < 1114112 -> clean s -> clean (c :: s).
Proof. intros Hc Hs. constructor; [apply encode_cp_range; exact Hc|exact Hs]. Qed.

Lemma clean_text (s : string) : clean (text s).
Proof.
  unfold text. induction s as [|a s IH]; simpl; [constructor|].
  apply clean_cons; [|exact IH].
  pose proof (N_ascii_bounded a). left. lia.
Qed.

Lemma clean_str_of_int (n : Z) : clean (str_of_int n).
Proof. apply clean_text. Qed.

Lemma clean_crlf : clean crlf.
Proof. repeat (apply clean_cons; [left; lia|]). constructor. Qed.

Lemma clean_newline : clean [10].
Proof. apply clean_cons; [left; lia|constructor]. Qed.

Lemma clean_rev (s : str) : clean s -> clean (rev s).
Proof. apply Forall_rev. Qed.

Lemma clean_lstrip (s : str) : clean s -> clean (lstrip s).
Proof.
  induction s as [|c s IH]; simpl; intros H; [constructor|].
  destruct (isspace c); [|exact H]. apply IH. inversion H; assumption.
Qed.

Lemma clean_strip (s : str) : clean s -> clean (strip s).
Proof.
  intros H. unfold strip, rstrip.
  apply clean_rev, clean_lstrip, clean_rev, clean_lstrip, H.
Qed.

Lemma clean_split_from (sep : str) (s : str) :
  forall skip cur,
    clean cur -> clean s -> Forall clean (split_from sep skip cur s).
Proof.
  induction s as [|c s IH]; intros skip cur Hc Hs.
  - constructor; [exact Hc|constructor].
  - cbn [split_from]. inversion Hs as [|? ? Hc1 Hs1]; subst.
    destruct skip; [|apply IH; assumption].
    destruct (startswith (c :: s) sep).
    + constructor; [exact Hc|]. apply IH; [constructor|assumption].
    + apply IH; [|assumption]. apply clean_app; [exact Hc|].
      constructor; [exact Hc1|constructor].
Qed.

Lemma clean_split (s sep : str) : clean s -> Forall clean (split s sep).
Proof. intros H. apply clean_split_from; [constructor|exact H]. Qed.

Lemma clean_join (sep : str) (parts : list str) :
  clean sep -> Forall clean parts -> clean (join sep parts).
Proof.
  intros Hsep. induction parts as [|p ps IH]; intros H; [constructor|].
  inversion H as [|? ? Hp Hps]; subst. simpl.
  destruct ps as [|q ps]; [exact Hp|].
  apply clean_app; [exact Hp|]. apply clean_app; [exact Hsep|].
  apply IH. exact Hps.
Qed.

Lemma clean_skipn (n : nat) (l : list str) :
  Forall clean l -> Forall clean (skipn n l).
Proof.
  revert l. induction n as [|n IH]; intros l H; [exact H|].
  destruct l as [|x l]; [constructor|]. simpl. apply IH.
  inversion H; assumption.
Qed.

(** Text that is clean encodes, to its UTF-8 form. *)
Lemma utf8_encode_from_clean (s : str) :
  forall pos, clean s -> utf8_encode_from pos s = Ret (utf8_bytes s).
Proof.
  induction s as [|c s IH]; intros pos H; [reflexivity|].
  inversion H as [|? ? Hc Hs]; subst. simpl.
  destruct (encode_cp c) as [b|]; [|contradiction].
  rewrite (IH (pos + 1) Hs). reflexivity.
Qed.

Lemma utf8_encode_clean (s : str) : clean s -> utf8_encode s = Ret (utf8_bytes s).
Proof. apply utf8_encode_from_clean. Qed.

Lemma hex_digit_range (d : Z) : 0 <= d < 16 -> 0 <= hex_digit d < 128.
Proof. intros H. unfold hex_digit. destruct (d <? 10); lia. Qed.

(** The message of the error an encoding raises can itself be encoded. *)
Lemma utf8_encode_from_raises (s : str) :
  forall pos e, utf8_encode_from pos s = Raise e ->
                clean (exn_str e) /\ exn_cls e = UnicodeEncodeError.
Proof.
  induction s as [|c s IH]; intros pos e; [discriminate|]. simpl.
  destruct (encode_cp c) as [b|].
  - destruct (utf8_encode_from (pos + 1) s) as [r|e'] eqn:E; simpl;
      [discriminate|].
    intros H. injection H as <-. exact (IH _ _ E).
  - intros H. injection H as <-. split; [|reflexivity].
    unfold unicode_encode_error. cbn [exn_str].
    destruct (surrogate_run s =? 0).
    + repeat apply clean_app; try apply clean_text; try apply clean_str_of_int.
      repeat (apply clean_cons;
              [left; match goal with
                     | |- _ <= hex_digit ?d < _ =>
                         pose proof (hex_digit_range d ltac:(apply Z.mod_pos_bound; lia));
                         lia
                     end|]).
      constructor.
    + repeat apply clean_app; try apply clean_text; apply clean_str_of_int.
Qed.

Lemma utf8_decode_replace_cons (b1 : byte) (r1 : bytes) :
  utf8_decode_replace (b1 :: r1) =
  let ch := Z_of_byte b1 in
  if ch <? 128 then ch :: utf8_decode_replace r1
  else if ch <? 194 then replacement :: utf8_decode_replace r1
  else if ch <? 224 then
    match r1 with
    | [] => [replacement]
    | b2 :: r2 =>
        let ch2 := Z_of_byte b2 in
        if is_continuation ch2
        then ((ch - 192) * 64 + (ch2 - 128)) :: utf8_decode_replace r2
        else replacement :: utf8_decode_replace r1
    end
  else if ch <? 240 then
    match r1 with
    | [] => [replacement]
    | b2 :: r2 =>
        let ch2 := Z_of_byte b2 in
        if negb (is_continuation ch2)
           || (if ch2 <? 160 then ch =? 224 else ch =? 237)
        then replacement :: utf8_decode_replace r1
        else
          match r2 with
          | [] => [replacement]
          | b3 :: r3 =>
              let ch3 := Z_of_byte b3 in
              if is_continuation ch3
              then ((ch - 224) * 4096 + (ch2 - 128) * 64 + (ch3 - 128))
                   :: utf8_decode_replace r3
              else replacement :: utf8_decode_replace r2
          end
    end
  else if ch <? 245 then
    match r1 with
    | [] => [replacement]
    | b2 :: r2 =>
        let ch2 := Z_of_byte b2 in
        if negb (is_continuation ch2)
           || (if ch2 <? 144 then ch =? 240 else ch =? 244)
        then replacement :: utf8_decode_replace r1
        else
          match r2 with
          | [] => [replacement]
          | b3 :: r3 =>
              let ch3 := Z_of_byte b3 in
              if negb (is_continuation ch3)
              then replacement :: utf8_decode_replace r2
              else
                match r3 with
                | [] => [replacement]
                | b4 :: r4 =>
                    let ch4 := Z_of_byte b4 in
                    if is_continuation ch4
                    then ((ch - 240) * 262144 + (ch2 - 128) * 4096
                          + (ch3 - 128) * 64 + (ch4 - 128))
                         :: utf8_decode_replace r4
                    else replacement :: utf8_decode_replace r3
                end
          end
    end
  else replacement :: utf8_decode_replace r1.
Proof. reflexivity. Qed.

(** Decoding with replacement yields no surrogate. *)
Lemma clean_decode_bounded (n : nat) :
  forall b, (length b <= n)%nat -> clean (utf8_decode_replace b).
Proof.
  induction n as [|n IH]; intros b Hn.
  - destruct b; [constructor|simpl in Hn; lia].
  - destruct b as [|b1 r1]; [constructor|].
    rewrite utf8_decode_replace_cons. cbv zeta.
    pose proof (Z_of_byte_range b1) as R1.
    assert (Hrep : forall s, clean s -> clean (replacement :: s)).
    { intros s Hs. apply clean_cons; [right; unfold replacement; lia|exact Hs]. }
    assert (IH1 : clean (utf8_decode_replace r1)) by (apply IH; simpl in Hn; lia).
    destruct (Z_of_byte b1 <? 128) eqn:E1.
    { apply clean_cons; [left; lia|exact IH1]. }
    destruct (Z_of_byte b1 <? 194) eqn:E2; [apply Hrep, IH1|].
    destruct r1 as [|b2 r2].
    { repeat match goal with |- context [if ?c then _ else _] => destruct c end;
        apply Hrep; constructor. }
    pose proof (Z_of_byte_range b2) as R2.
    assert (IH2 : clean (utf8_decode_replace r2)) by (apply IH; simpl in Hn; lia).
    unfold is_continuation.
    destruct (Z_of_byte b1 <? 224) eqn:E3.
    { destruct ((128 <=? Z_of_byte b2) && (Z_of_byte b2 <=? 191)) eqn:C2;
        [|apply Hrep, IH1].
      bool_facts. apply clean_cons; [left; lia|exact IH2]. }
    destruct (Z_of_byte b1 <? 240) eqn:E4.
    { destruct (negb ((128 <=? Z_of_byte b2) && (Z_of_byte b2 <=? 191))
                || (if Z_of_byte b2 <? 160 then Z_of_byte b1 =? 224
                    else Z_of_byte b1 =? 237)) eqn:C2; [apply Hrep, IH1|].
      destruct r2 as [|b3 r3]; [apply Hrep; constructor|].
      pose proof (Z_of_byte_range b3) as R3.
      assert (IH3 : clean (utf8_decode_replace r3)) by (apply IH; simpl in Hn; lia).
      destruct ((128 <=? Z_of_byte b3) && (Z_of_byte b3 <=? 191)) eqn:C3;
        [|apply Hrep, IH2].
      destruct (Z_of_byte b2 <? 160) eqn:C2'; bool_facts;
        (apply clean_cons; [lia|exact IH3]). }
    destruct (Z_of_byte b1 <? 245) eqn:E5; [|apply Hrep, IH1].
    destruct (negb ((128 <=? Z_of_byte b2) && (Z_of_byte b2 <=? 191))
              || (if Z_of_byte b2 <? 144 then Z_of_byte b1 =? 240
                  else Z_of_byte b1 =? 244)) eqn:C2; [apply Hrep, IH1|].
    destruct r2 as [|b3 r3]; [apply Hrep; constructor|].
    pose proof (Z_of_byte_range b3) as R3.
    assert (IH3 : clean (utf8_decode_replace r3)) by (apply IH; simpl in Hn; lia).
    destruct (negb ((128 <=? Z_of_byte b3) && (Z_of_byte b3 <=? 191))) eqn:C3;
      [apply Hrep, IH2|].
    destruct r3 as [|b4 r4]; [apply Hrep; constructor|].
    pose proof (Z_of_byte_range b4) as R4.
    assert (IH4 : clean (utf8_decode_replace r4)) by (apply IH; simpl in Hn; lia).
    destruct ((128 <=? Z_of_byte b4) && (Z_of_byte b4 <=? 191)) eqn:C4;
      [|apply Hrep, IH3].
    destruct (Z_of_byte b2 <? 144) eqn:C2'; bool_facts;
      (apply clean_cons; [lia|exact IH4]).
Qed.

Lemma clean_decode (b : bytes) : clean (utf8_decode_replace b).
Proof. apply (clean_decode_bounded (length b)). lia. Qed.

End Clean.

#[export] Hint Resolve clean_nil clean_app clean_text clean_str_of_int clean_crlf
  clean_newline clean_strip clean_decode clean_join : clean.

(** ** The offshore request processor *)

Section OffshoreFacts.

Variable unicode_upper unicode_lower : Z -> str.
Variable urlparse : str -> pyres ParseResult.
Variable http_client : origin_call -> pyres HTTPResponse.

Local Abbreviation process :=
  (process_http_request unicode_upper unicode_lower urlparse http_client).
Local Abbreviation process_body :=
  (process_http_request_body unicode_upper unicode_lower urlparse http_client).

Lemma connect_response_bytes (url : str) :
  handle_connect_method url
  = Ret (lit "HTTP/1.1 200 Connection Established" ++ [x0d; x0a; x0d; x0a]).
Proof. vm_compute. reflexivity. Qed.

Lemma process_body_connect (request_data : bytes) (method url version : str) :
  split (strip (hd [] (split (utf8_decode_replace request_data) crlf))) [32]
  = [method; url; version] ->
  upper unicode_upper method = text "CONNECT" ->
  process_body request_data = (handle_connect_method url, []).
Proof.
  intros Hparts Hm. unfold process_http_request_body.
  destruct (split (utf8_decode_replace request_data) crlf) as [|line0 rest] eqn:El.
  { exfalso. revert El. apply split_from_not_nil. }
  simpl hd in Hparts.
  destruct (strip line0) as [|c request_line] eqn:Es.
  { discriminate. }
  rewrite Hparts. rewrite Hm. rewrite str_eqb_refl. reflexivity.
Qed.

End OffshoreFacts.

(** C8 -- the CONNECT stub. For every request payload whose request line
    has the three parts method, target and version and whose method is
    CONNECT, in whatever case and for whatever target, the response is
    exactly the bytes of [HTTP/1.1 200 Connection Established] followed by
    CR LF CR LF, and the origin is not contacted. *)
Theorem connect_stub
        (unicode_upper unicode_lower : Z -> str)
        (urlparse : str -> pyres ParseResult)
        (http_client : origin_call -> pyres HTTPResponse)
        (request_data : bytes) (method url version : str) :
  split (strip (hd [] (split (utf8_decode_replace request_data) crlf))) [32]
  = [method; url; version] ->
  upper unicode_upper method = text "CONNECT" ->
  process_http_request unicode_upper unicode_lower urlparse http_client
                       request_data
  = (Ret (lit "HTTP/1.1 200 Connection Established" ++ [x0d; x0a; x0d; x0a]),
     []).
Proof.
  intros Hparts Hm. unfold process_http_request.
  rewrite (process_body_connect _ _ _ _ _ _ _ _ Hparts Hm).
  rewrite connect_response_bytes. reflexivity.
Qed.

Lemma connect_stub_witness :
  process_http_request no_case_change no_case_change urlparse_x_y origin_ok
                       connect_request
  = (Ret (lit "HTTP/1.1 200 Connection Established" ++ [x0d; x0a; x0d; x0a]),
     []).
Proof.
  apply (connect_stub no_case_change no_case_change urlparse_x_y origin_ok
                      connect_request
                      (text "CONNECT") (text "example.com:443") (text "HTTP/1.1")).
  - vm_compute. reflexivity.
  - vm_compute. reflexivity.
Defined.

Example post_binary_body :
  map call_body
      (snd (process_http_request no_case_change no_case_change urlparse_x_y
                                 origin_ok post_binary_request))
  = [[xef; xbf; xbd]].
Proof. vm_compute. reflexivity. Qed.

Example post_hello_response :
  process_http_request no_case_change no_case_change urlparse_x_y
                       origin_ok post_hello_request
  = (Ret (lit "HTTP/1.1 200 OK" ++ [x0d; x0a] ++ lit "Content-Length: 2"
          ++ [x0d; x0a] ++ lit "Connection: close" ++ [x0d; x0a] ++ lit "ok"),
     [mk_call (text "POST") (text "x") 80 (text "/y")
              [(text "Content-Length", text "5")] (lit "hello") false]).
Proof. vm_compute. reflexivity. Qed.

Ltac solve_clean :=
  repeat first
    [ assumption
    | apply clean_text | apply clean_str_of_int | apply clean_crlf
    | apply clean_newline | apply clean_nil | apply clean_decode
    | apply clean_app
    | apply clean_strip ].

(** ** Every request is answered *)

Section Responds.

Variable unicode_upper unicode_lower : Z -> str.
Variable urlparse : str -> pyres ParseResult.
Variable http_client : origin_call -> pyres HTTPResponse.

(** The texts the libraries hand over hold no lone surrogate. *)
Hypothesis urlparse_raise_clean :
  forall url e, urlparse url = Raise e -> clean (exn_str e).
Hypothesis hostname_clean :
  forall url parsed h,
    urlparse url = Ret parsed -> hostname parsed = Some h -> clean h.
Hypothesis port_raise_clean :
  forall url parsed e,
    urlparse url = Ret parsed -> port parsed = Raise e -> clean (exn_str e).
Hypothesis origin_raise_clean :
  forall call e, http_client call = Raise e -> clean (exn_str e).

Lemma create_error_response_ok (status_code : Z) (reason : str) :
  clean reason -> exists r, create_error_response status_code reason = Ret r.
Proof.
  intros H. unfold create_error_response. cbv zeta.
  eexists. apply utf8_encode_clean. solve_clean.
Qed.

Lemma assemble_response_outcome (response : HTTPResponse) :
  (exists r, assemble_response unicode_lower response = Ret r)
  \/ (exists e, assemble_response unicode_lower response = Raise e
                /\ clean (exn_str e)).
Proof.
  unfold assemble_response. cbv zeta.
  match goal with
  | |- context [utf8_encode ?t] =>
      destruct (utf8_encode t) as [b|e] eqn:E
  end; simpl.
  - left. eauto.
  - right. exists e. split; [reflexivity|].
    exact (proj1 (utf8_encode_from_raises _ _ _ E)).
Qed.

(** Whatever the origin does, [make_http_request] returns bytes; a failed
    exchange gives the 504 response for a timeout and a 502 response for
    anything else. *)
Lemma make_http_request_ok (method host : str) (port : Z) (path : str)
      (headers : dict) (body : bytes) (use_ssl : bool) :
  clean host ->
  let call := mk_call method host port path headers body use_ssl in
  exists r,
    fst (make_http_request unicode_lower http_client
                           method host port path headers body use_ssl)
    = Ret r
    /\ (forall e,
           http_client call = Raise e ->
           exists reason,
             create_error_response
               (match exn_cls e with SocketTimeout => 504 | _ => 502 end)
               reason
             = Ret r).
Proof.
  intros Hhost call. unfold make_http_request. fold call. cbn [fst].
  destruct (http_client call) as [response|e] eqn:Ec; cbn [bind].
  - destruct (assemble_response_outcome response) as [[r Hr]|(e & He & Hcl)];
      rewrite ?Hr, ?He.
    + exists r. split; [reflexivity|discriminate].
    + assert (Hx : exists r, create_error_response 502
                               (text "Bad Gateway: " ++ exn_str e) = Ret r)
        by (apply create_error_response_ok; solve_clean).
      destruct Hx as [r Hx].
      exists r. split; [|discriminate].
      unfold assemble_response in He. cbv zeta in He.
      match type of He with
      | context [utf8_encode ?t] =>
          destruct (utf8_encode t) as [b|e'] eqn:E; simpl in He;
          [discriminate|]
      end.
      injection He as <-.
      rewrite (proj2 (utf8_encode_from_raises _ _ _ E)). exact Hx.
  - pose proof (origin_raise_clean call e Ec) as Hcl.
    assert (Hx : exists r,
               match exn_cls e with
               | SocketTimeout =>
                   create_error_response 504 (text "Gateway Timeout")
               | SocketGaierror =>
                   create_error_response 502
                     (text "Bad Gateway - DNS resolution failed: " ++ host)
               | ConnectionRefused =>
                   create_error_response 502
                     (text "Bad Gateway - Connection refused: " ++ host
                      ++ text ":" ++ str_of_int port)
               | SSLError =>
                   create_error_response 502
                     (text "Bad Gateway - SSL error: " ++ exn_str e)
               | _ =>
                   create_error_response 502 (text "Bad Gateway: " ++ exn_str e)
               end = Ret r).
    { destruct (exn_cls e); apply create_error_response_ok; solve_clean. }
    destruct Hx as [r Hx]. exists r. split; [exact Hx|].
    intros e' He'. injection He' as <-.
    destruct (exn_cls e); eauto.
Qed.

Lemma process_body_outcome (request_data : bytes) :
  (exists r,
      fst (process_http_request_body unicode_upper unicode_lower urlparse
                                     http_client request_data) = Ret r)
  \/ (exists e,
         fst (process_http_request_body unicode_upper unicode_lower urlparse
                                        http_client request_data) = Raise e
         /\ clean (exn_str e)).
Proof.
  unfold process_http_request_body. cbv zeta.
  pose proof (clean_split _ crlf (clean_decode request_data)) as Hlines.
  destruct (split (utf8_decode_replace request_data) crlf) as [|line0 rest].
  { left; cbn [fst]; apply create_error_response_ok; solve_clean. }
  inversion Hlines as [|? ? Hline0 Hrest]; subst.
  pose proof (clean_strip line0 Hline0) as Hrl.
  destruct (strip line0) as [|c rl].
  { left; cbn [fst]; apply create_error_response_ok; solve_clean. }
  pose proof (clean_split _ [32] Hrl) as Hparts.
  destruct (split (c :: rl) [32]) as [|method [|url [|version [|x parts]]]];
    try (left; cbn [fst]; apply create_error_response_ok; solve_clean).
  destruct (str_eqb (upper unicode_upper method) (text "CONNECT")).
  { left. cbn [fst]. rewrite connect_response_bytes. eauto. }
  assert (Hurl : clean url).
  { inversion Hparts as [|? ? _ H1]; inversion H1; assumption. }
  destruct (negb (startswith url (text "http://"))
            && negb (startswith url (text "https://"))
            && startswith url (text "/")).
  { left; cbn [fst]; apply create_error_response_ok; solve_clean. }
  match goal with
  | |- context [urlparse ?u] =>
      assert (Hu : clean u)
        by (destruct (negb (startswith url (text "http://"))
                      && negb (startswith url (text "https://")));
            solve_clean);
      destruct (urlparse u) as [parsed|e] eqn:Eu
  end.
  2: { right. exists e. cbn [fst]. split; [reflexivity|]. eapply urlparse_raise_clean, Eu. }
  destruct (hostname parsed) as [[|h0 host]|] eqn:Eh;
    try (left; cbn [fst]; apply create_error_response_ok; solve_clean).
  pose proof (hostname_clean _ _ _ Eu Eh) as Hhost.
  destruct (port parsed) as [parsed_port|e] eqn:Ep.
  2: { right. exists e. cbn [fst]. split; [reflexivity|].
       eapply port_raise_clean; [exact Eu|exact Ep]. }
  destruct (scan_headers (tl (line0 :: rest)) 1 []) as [headers body_start].
  match goal with
  | |- context [match ?b with Ret _ => _ | Raise _ => _ end] =>
      destruct b as [body|e] eqn:Eb
  end.
  - left.
    match goal with
    | |- context [make_http_request _ _ ?m ?h ?p ?pa ?hd ?bd ?ssl] =>
        destruct (make_http_request_ok m h p pa hd bd ssl Hhost) as (r & Hr & _)
    end.
    eauto.
  - right. exists e. cbn [fst]. split; [reflexivity|].
    destruct (0 <? body_start); [|discriminate].
    destruct (skipn (Z.to_nat body_start) (line0 :: rest)); [discriminate|].
    exact (proj1 (utf8_encode_from_raises _ _ _ Eb)).
Qed.

Lemma process_http_request_ok (request_data : bytes) :
  exists r,
    fst (process_http_request unicode_upper unicode_lower urlparse
                              http_client request_data) = Ret r.
Proof.
  unfold process_http_request.
  destruct (process_body_outcome request_data) as [[r Hr]|(e & He & Hcl)].
  - destruct (process_http_request_body _ _ _ _ request_data) as [res calls].
    cbn [fst] in Hr. subst res. cbn [fst]. eauto.
  - destruct (process_http_request_body _ _ _ _ request_data) as [res calls].
    cbn [fst] in He. subst res.
    destruct (exn_cls e); cbn [fst];
      apply create_error_response_ok; solve_clean.
Qed.

End Responds.

Example timeout_is_504 :
  fst (process_http_request no_case_change no_case_change urlparse_x_y
                            origin_timeout post_hello_request)
  = create_error_response 504 (text "Gateway Timeout").
Proof. vm_compute. reflexivity. Qed.

(** ** The body that is forwarded *)

(** C9, as the specification has it, fails: the body of the request below is
    the single byte FF, and what is forwarded to the origin is EF BF BD, the
    UTF-8 form of U+FFFD. *)
Lemma binary_body_is_not_forwarded_raw :
  after_first_crlf_crlf post_binary_request = [xff]
  /\ map call_body
         (snd (process_http_request no_case_change no_case_change urlparse_x_y
                                    origin_ok post_binary_request))
     = [[xef; xbf; xbd]]
  /\ [xef; xbf; xbd] <> after_first_crlf_crlf post_binary_request.
Proof.
  split; [vm_compute; reflexivity|].
  split; [vm_compute; reflexivity|].
  vm_compute. discriminate.
Qed.

(** ** UTF-8: what is encoded decodes to itself *)

Ltac div_facts :=
  bool_facts; repeat rewrite byte_of_Z_small by (Z.div_mod_to_equations; lia);
  try (Z.div_mod_to_equations; lia).

Ltac some_eq H :=
  match type of H with
  | Some ?x = Some ?y =>
      let E := fresh in assert (E : y = x) by congruence; subst y; clear H
  end.

Section Utf8RoundTrip.

(** The shape of the UTF-8 form of a code point: one byte below 128 for
    ASCII, otherwise bytes that are all 128 or more. *)
Lemma encode_cp_bytes (c : Z) (bs : bytes) :
  encode_cp c = Some bs ->
  (0 <= c < 128 /\ bs = [byte_of_Z c])
  \/ (128 <= c /\ bs <> [] /\ Forall (fun b => 128 <= Z_of_byte b) bs).
Proof.
  unfold encode_cp, is_surrogate.
  destruct (c <? 0) eqn:E0; [discriminate|].
  destruct (c <? 128) eqn:E1.
  { intros H; some_eq H. left. bool_facts. split; [lia|reflexivity]. }
  destruct (c <? 2048) eqn:E2.
  { intros H; some_eq H. right. bool_facts.
    split; [lia|]. split; [discriminate|].
    repeat (apply Forall_cons; [div_facts|]); apply Forall_nil. }
  destruct (c <? 65536) eqn:E3.
  { destruct ((55296 <=? c) && (c <=? 57343)); [discriminate|].
    intros H; some_eq H. right. bool_facts.
    split; [lia|]. split; [discriminate|].
    repeat (apply Forall_cons; [div_facts|]); apply Forall_nil. }
  destruct (c <? 1114112) eqn:E4; [|discriminate].
  intros H; some_eq H. right. bool_facts.
  split; [lia|]. split; [discriminate|].
  repeat (apply Forall_cons; [div_facts|]); apply Forall_nil.
Qed.

Lemma utf8_decode_encode_cp (c : Z) (bs rest : bytes) :
  encode_cp c = Some bs ->
  utf8_decode_replace (bs ++ rest) = c :: utf8_decode_replace rest.
Proof.
  unfold encode_cp, is_surrogate.
  destruct (c <? 0) eqn:E0; [discriminate|].
  destruct (c <? 128) eqn:E1.
  { intros H; some_eq H. cbn [app].
    rewrite utf8_decode_replace_cons. cbv zeta. bool_facts.
    rewrite byte_of_Z_small by lia.
    replace (c <? 128) with true by (symmetry; apply Z.ltb_lt; lia).
    reflexivity. }
  destruct (c <? 2048) eqn:E2.
  { intros H; some_eq H. cbn [app].
    rewrite utf8_decode_replace_cons. cbv zeta. unfold is_continuation.
    bool_facts.
    rewrite !byte_of_Z_small by (Z.div_mod_to_equations; lia).
    replace (192 + c / 64 <? 128) with false
      by (symmetry; apply Z.ltb_ge; Z.div_mod_to_equations; lia).
    replace (192 + c / 64 <? 194) with false
      by (symmetry; apply Z.ltb_ge; Z.div_mod_to_equations; lia).
    replace (192 + c / 64 <? 224) with true
      by (symmetry; apply Z.ltb_lt; Z.div_mod_to_equations; lia).
    replace (128 <=? 128 + c mod 64) with true
      by (symmetry; apply Z.leb_le; Z.div_mod_to_equations; lia).
    replace (128 + c mod 64 <=? 191) with true
      by (symmetry; apply Z.leb_le; Z.div_mod_to_equations; lia).
    cbn [andb]. f_equal. Z.div_mod_to_equations. lia. }
  destruct (c <? 65536) eqn:E3.
  { destruct ((55296 <=? c) && (c <=? 57343)) eqn:Es; [discriminate|].
    intros H; some_eq H. cbn [app].
    rewrite utf8_decode_replace_cons. cbv zeta. unfold is_continuation.
    apply andb_false_iff in Es.
    bool_facts.
    rewrite !byte_of_Z_small by (Z.div_mod_to_equations; lia).
    replace (224 + c / 4096 <? 128) with false
      by (symmetry; apply Z.ltb_ge; Z.div_mod_to_equations; lia).
    replace (224 + c / 4096 <? 194) with false
      by (symmetry; apply Z.ltb_ge; Z.div_mod_to_equations; lia).
    replace (224 + c / 4096 <? 224) with false
      by (symmetry; apply Z.ltb_ge; Z.div_mod_to_equations; lia).
    replace (224 + c / 4096 <? 240) with true
      by (symmetry; apply Z.ltb_lt; Z.div_mod_to_equations; lia).
    replace (128 <=? 128 + (c / 64) mod 64) with true
      by (symmetry; apply Z.leb_le; Z.div_mod_to_equations; lia).
    replace (128 + (c / 64) mod 64 <=? 191) with true
      by (symmetry; apply Z.leb_le; Z.div_mod_to_equations; lia).
    replace (128 <=? 128 + c mod 64) with true
      by (symmetry; apply Z.leb_le; Z.div_mod_to_equations; lia).
    replace (128 + c mod 64 <=? 191) with true
      by (symmetry; apply Z.leb_le; Z.div_mod_to_equations; lia).
    cbn [andb negb orb].
    replace (if 128 + (c / 64) mod 64 <? 160
             then 224 + c / 4096 =? 224 else 224 + c / 4096 =? 237)
      with false.
    2: { symmetry. destruct (128 + (c / 64) mod 64 <? 160) eqn:E5.
         - apply Z.eqb_neq. apply Z.ltb_lt in E5.
           destruct Es as [Es|Es]; bool_facts; Z.div_mod_to_equations; lia.
         - apply Z.eqb_neq. apply Z.ltb_ge in E5.
           destruct Es as [Es|Es]; bool_facts; Z.div_mod_to_equations; lia. }
    f_equal. Z.div_mod_to_equations. lia. }
  destruct (c <? 1114112) eqn:E4; [|discriminate].
  intros H; some_eq H. cbn [app].
  rewrite utf8_decode_replace_cons. cbv zeta. unfold is_continuation.
  bool_facts.
  rewrite !byte_of_Z_small by (Z.div_mod_to_equations; lia).
  replace (240 + c / 262144 <? 128) with false
    by (symmetry; apply Z.ltb_ge; Z.div_mod_to_equations; lia).
  replace (240 + c / 262144 <? 194) with false
    by (symmetry; apply Z.ltb_ge; Z.div_mod_to_equations; lia).
  replace (240 + c / 262144 <? 224) with false
    by (symmetry; apply Z.ltb_ge; Z.div_mod_to_equations; lia).
  replace (240 + c / 262144 <? 240) with false
    by (symmetry; apply Z.ltb_ge; Z.div_mod_to_equations; lia).
  replace (240 + c / 262144 <? 245) with true
    by (symmetry; apply Z.ltb_lt; Z.div_mod_to_equations; lia).
  replace (128 <=? 128 + (c / 4096) mod 64) with true
    by (symmetry; apply Z.leb_le; Z.div_mod_to_equations; lia).
  replace (128 + (c / 4096) mod 64 <=? 191) with true
    by (symmetry; apply Z.leb_le; Z.div_mod_to_equations; lia).
  replace (128 <=? 128 + (c / 64) mod 64) with true
    by (symmetry; apply Z.leb_le; Z.div_mod_to_equations; lia).
  replace (128 + (c / 64) mod 64 <=? 191) with true
    by (symmetry; apply Z.leb_le; Z.div_mod_to_equations; lia).
  replace (128 <=? 128 + c mod 64) with true
    by (symmetry; apply Z.leb_le; Z.div_mod_to_equations; lia).
  replace (128 + c mod 64 <=? 191) with true
    by (symmetry; apply Z.leb_le; Z.div_mod_to_equations; lia).
  cbn [andb negb orb].
  replace (if 128 + (c / 4096) mod 64 <? 144
           then 240 + c / 262144 =? 240 else 240 + c / 262144 =? 244)
    with false.
  2: { symmetry. destruct (128 + (c / 4096) mod 64 <? 144) eqn:E5.
       - apply Z.eqb_neq. apply Z.ltb_lt in E5. Z.div_mod_to_equations. lia.
       - apply Z.eqb_neq. apply Z.ltb_ge in E5. Z.div_mod_to_equations. lia. }
  f_equal. Z.div_mod_to_equations. lia.
Qed.

(** Decoding the UTF-8 form of a text gives the text back. *)
Lemma utf8_decode_utf8_bytes (t : str) (rest : bytes) :
  clean t ->
  utf8_decode_replace (utf8_bytes t ++ rest) = t ++ utf8_decode_replace rest.
Proof.
  induction t as [|c t IH]; intros H; [reflexivity|].
  inversion H as [|? ? Hc Ht]; subst.
  cbn [utf8_bytes flat_map].
  destruct (encode_cp c) as [bs|] eqn:E; [|contradiction].
  rewrite <- app_assoc.
  rewrite (utf8_decode_encode_cp c bs _ E).
  fold (utf8_bytes t). rewrite (IH Ht). reflexivity.
Qed.

Lemma utf8_decode_utf8_bytes_all (t : str) :
  clean t -> utf8_decode_replace (utf8_bytes t) = t.
Proof.
  intros H. pose proof (utf8_decode_utf8_bytes t [] H) as E.
  rewrite !app_nil_r in E. exact E.
Qed.

Lemma utf8_bytes_app (a b : str) :
  utf8_bytes (a ++ b) = utf8_bytes a ++ utf8_bytes b.
Proof. unfold utf8_bytes. apply flat_map_app. Qed.

End Utf8RoundTrip.

(** ** Lines: [split] and [join] on CR LF *)

Section Lines.

Lemma startswith_crlf (c : Z) (s : str) :
  startswith (c :: s) crlf
  = (c =? 13) && match s with d :: _ => d =? 10 | [] => false end.
Proof.
  unfold crlf. destruct s as [|d s]; [reflexivity|].
  cbn [startswith]. rewrite andb_true_r. reflexivity.
Qed.

(** A piece that holds no line break runs up to the next one. *)
Lemma split_from_line (l : str) :
  forall (cur rest : str),
    has_crlf l = false ->
    split_from crlf 0 cur (l ++ crlf ++ rest)
    = (cur ++ l) :: split_from crlf 0 [] rest.
Proof.
  induction l as [|c l IH]; intros cur rest H.
  - rewrite app_nil_r. reflexivity.
  - cbn [has_crlf] in H. apply orb_false_elim in H as [H1 H2].
    change ((c :: l) ++ crlf ++ rest) with (c :: (l ++ crlf ++ rest)).
    cbn [split_from]. rewrite startswith_crlf.
    assert (Hs : (c =? 13)
                 && match l ++ crlf ++ rest with
                    | d :: _ => d =? 10
                    | [] => false
                    end = false).
    { destruct l as [|d l]; [|exact H1].
      cbn [app crlf]. apply andb_false_r. }
    rewrite Hs. rewrite (IH _ _ H2). rewrite <- app_assoc. reflexivity.
Qed.

Lemma join_cons (sep p : str) (ps : list str) :
  ps <> [] -> join sep (p :: ps) = p ++ sep ++ join sep ps.
Proof. destruct ps; [contradiction|reflexivity]. Qed.

Lemma split_joined_lines (lines : list str) :
  forall (l rest : str),
    has_crlf l = false ->
    Forall (fun h => has_crlf h = false) lines ->
    split_from crlf 0 [] (join crlf (l :: lines) ++ crlf ++ rest)
    = (l :: lines) ++ split_from crlf 0 [] rest.
Proof.
  induction lines as [|h lines IH]; intros l rest Hl Hs.
  - cbn [join]. rewrite (split_from_line l [] rest Hl). reflexivity.
  - inversion Hs as [|? ? Hh Hs']; subst.
    rewrite join_cons by discriminate.
    rewrite <- !app_assoc.
    rewrite (split_from_line l [] _ Hl).
    rewrite (IH h rest Hh Hs'). reflexivity.
Qed.

(** Joining the pieces of a text with the separator gives the text back. *)
Lemma join_split_from_bounded (n : nat) :
  forall (s cur : str),
    (length s <= n)%nat ->
    join crlf (split_from crlf 0 cur s) = cur ++ s.
Proof.
  induction n as [|n IH]; intros s cur Hn.
  - destruct s; [|simpl in Hn; lia]. cbn. rewrite app_nil_r. reflexivity.
  - destruct s as [|c s]; [cbn; rewrite app_nil_r; reflexivity|].
    cbn [split_from]. rewrite startswith_crlf.
    destruct ((c =? 13) && match s with d :: _ => d =? 10 | [] => false end)
      eqn:E.
    + destruct s as [|d s]; [rewrite andb_false_r in E; discriminate|].
      apply andb_prop in E as [Ec Ed].
      apply Z.eqb_eq in Ec, Ed. subst c d.
      cbn [length crlf Nat.sub split_from].
      rewrite join_cons by apply split_from_not_nil.
      rewrite IH by (simpl in Hn; lia). reflexivity.
    + rewrite IH by (simpl in Hn; lia).
      rewrite <- app_assoc. reflexivity.
Qed.

Lemma join_split (s : str) : join crlf (split s crlf) = s.
Proof. apply (join_split_from_bounded (length s)). lia. Qed.

End Lines.

(** ** The header loop *)

Section HeaderLoop.

(** Header lines that are not blank are all read; the loop stops at the
    empty line behind them, and the body starts on the line after it. *)
Lemma scan_headers_to_blank (header_lines : list str) :
  forall (rest : list str) (i : Z) (headers : dict),
    Forall (fun h => strip h <> []) header_lines ->
    snd (scan_headers (header_lines ++ [] :: rest) i headers)
    = i + len header_lines + 1.
Proof.
  induction header_lines as [|h hs IH]; intros rest i headers H.
  - cbn. lia.
  - inversion H as [|? ? Hh Hs]; subst.
    cbn [app scan_headers].
    destruct (strip h) as [|c0 stripped]; [contradiction|].
    unfold len. cbn [length]. rewrite Nat2Z.inj_succ.
    destruct (contains 58 h).
    + destruct (split_once 58 h) as [key value].
      rewrite (IH rest (i + 1) _ Hs). unfold len. lia.
    + rewrite (IH rest (i + 1) _ Hs). unfold len. lia.
Qed.

End HeaderLoop.

(** ** The first CR LF CR LF of a payload *)

Section FirstBlankLine.

Lemma after_first_skip (b : byte) (r : bytes) :
  Z_of_byte b <> 13 ->
  after_first_crlf_crlf (b :: r) = after_first_crlf_crlf r.
Proof.
  intros H. apply Z.eqb_neq in H.
  destruct r as [|b2 [|b3 [|b4 rest]]]; cbn [after_first_crlf_crlf];
    try reflexivity.
  rewrite H. reflexivity.
Qed.

Lemma after_first_no_lf (b : byte) (r : bytes) :
  starts_with_lf r = false ->
  after_first_crlf_crlf (b :: r) = after_first_crlf_crlf r.
Proof.
  intros H.
  destruct r as [|b2 [|b3 [|b4 rest]]]; cbn [after_first_crlf_crlf];
    try reflexivity.
  cbn [starts_with_lf] in H. rewrite H, andb_false_r. reflexivity.
Qed.

Lemma after_first_no_crlf (b1 b2 : byte) (r : bytes) :
  Z_of_byte b2 <> 13 ->
  starts_with_crlf r = false ->
  after_first_crlf_crlf (b1 :: b2 :: r) = after_first_crlf_crlf r.
Proof.
  intros H2 H. rewrite <- (after_first_skip b2 r H2).
  destruct r as [|b3 [|b4 rest]]; cbn [after_first_crlf_crlf];
    try reflexivity.
  cbn [starts_with_crlf starts_with_lf] in H.
  rewrite <- !andb_assoc. rewrite H, !andb_false_r. reflexivity.
Qed.

Lemma after_first_high_bytes (bs r : bytes) :
  Forall (fun b => 128 <= Z_of_byte b) bs ->
  after_first_crlf_crlf (bs ++ r) = after_first_crlf_crlf r.
Proof.
  induction bs as [|b bs IH]; intros H; [reflexivity|].
  inversion H as [|? ? Hb Hbs]; subst. cbn [app].
  rewrite after_first_skip by lia. apply IH. exact Hbs.
Qed.

(** The first byte of a text's UTF-8 form is LF only when its first
    character is. *)
Lemma starts_with_lf_utf8 (c : Z) (l : str) (X : bytes) :
  encode_cp c <> None ->
  starts_with_lf (utf8_bytes (c :: l) ++ X) = (c =? 10).
Proof.
  intros Hc. cbn [utf8_bytes flat_map].
  destruct (encode_cp c) as [bs|] eqn:E; [|contradiction].
  destruct (encode_cp_bytes c bs E) as [[Hr ->]|(Hr & Hne & Hhigh)].
  - cbn [app starts_with_lf]. rewrite byte_of_Z_small by lia. reflexivity.
  - destruct bs as [|b bs]; [contradiction|].
    inversion Hhigh as [|? ? Hb _]; subst.
    cbn [app starts_with_lf].
    transitivity false; [apply Z.eqb_neq; lia|symmetry; apply Z.eqb_neq; lia].
Qed.

Lemma starts_with_lf_line (l : str) (X : bytes) :
  clean l ->
  starts_with_lf X = false ->
  starts_with_lf (utf8_bytes l ++ X)
  = match l with d :: _ => d =? 10 | [] => false end.
Proof.
  intros Hl HX. destruct l as [|d l]; [exact HX|].
  inversion Hl; subst. apply starts_with_lf_utf8. assumption.
Qed.

(** A line without a line break holds no CR LF CR LF, and none begins in
    it, when what follows does not begin with LF. *)
Lemma after_first_line (l : str) :
  forall X : bytes,
    clean l -> has_crlf l = false -> starts_with_lf X = false ->
    after_first_crlf_crlf (utf8_bytes l ++ X) = after_first_crlf_crlf X.
Proof.
  induction l as [|c l IH]; intros X Hl Hc HX; [reflexivity|].
  inversion Hl as [|? ? Hcc Hl']; subst.
  cbn [has_crlf] in Hc. apply orb_false_elim in Hc as [Hc1 Hc2].
  pose proof (starts_with_lf_line l X Hl' HX) as Hlf.
  cbn [utf8_bytes flat_map]. fold (utf8_bytes l).
  destruct (encode_cp c) as [bs|] eqn:E; [|contradiction].
  rewrite <- app_assoc.
  rewrite <- (IH X Hl' Hc2 HX).
  destruct (encode_cp_bytes c bs E) as [[Hr ->]|(Hr & Hne & Hhigh)].
  - cbn [app]. destruct (c =? 13) eqn:E13.
    + apply after_first_no_lf. rewrite Hlf. exact Hc1.
    + apply after_first_skip. rewrite byte_of_Z_small by lia.
      apply Z.eqb_neq. exact E13.
  - apply after_first_high_bytes. exact Hhigh.
Qed.

(** A line that is not empty and holds no line break does not begin with
    CR LF, nor with a CR that the next byte makes one. *)
Lemma starts_with_crlf_line (c : Z) (l : str) (X : bytes) :
  clean (c :: l) -> has_crlf (c :: l) = false -> starts_with_lf X = false ->
  starts_with_crlf (utf8_bytes (c :: l) ++ X) = false.
Proof.
  intros Hl Hc HX. inversion Hl as [|? ? Hcc Hl']; subst.
  cbn [has_crlf] in Hc. apply orb_false_elim in Hc as [Hc1 Hc2].
  pose proof (starts_with_lf_line l X Hl' HX) as Hlf.
  cbn [utf8_bytes flat_map]. fold (utf8_bytes l).
  destruct (encode_cp c) as [bs|] eqn:E; [|contradiction].
  rewrite <- app_assoc.
  destruct (encode_cp_bytes c bs E) as [[Hr ->]|(Hr & Hne & Hhigh)].
  - cbn [app starts_with_crlf]. rewrite byte_of_Z_small by lia.
    rewrite Hlf. exact Hc1.
  - destruct bs as [|b bs]; [contradiction|].
    inversion Hhigh as [|? ? Hb _]; subst.
    cbn [app starts_with_crlf].
    replace (Z_of_byte b =? 13) with false
      by (symmetry; apply Z.eqb_neq; lia).
    reflexivity.
Qed.

Lemma utf8_bytes_crlf (s : str) :
  utf8_bytes (crlf ++ s) = x0d :: x0a :: utf8_bytes s.
Proof. reflexivity. Qed.

(** In a request whose lines up to the first empty one hold a character
    each, the first CR LF CR LF is the one before the body. *)
Lemma after_first_of_lines (header_lines : list str) :
  forall (l body : str),
    clean l -> has_crlf l = false ->
    Forall clean header_lines ->
    Forall (fun h => has_crlf h = false) header_lines ->
    Forall (fun h => h <> []) header_lines ->
    after_first_crlf_crlf
      (utf8_bytes (join crlf (l :: header_lines) ++ crlf ++ crlf ++ body))
    = utf8_bytes body.
Proof.
  induction header_lines as [|h hs IH]; intros l body Hl Hc Hcl Hcr Hne.
  - cbn [join]. rewrite utf8_bytes_app, !utf8_bytes_crlf.
    rewrite after_first_line by (assumption || reflexivity).
    cbn. reflexivity.
  - inversion Hcl as [|? ? Hh1 Hcl']; subst.
    inversion Hcr as [|? ? Hh2 Hcr']; subst.
    inversion Hne as [|? ? Hh3 Hne']; subst.
    rewrite join_cons by discriminate.
    rewrite <- !app_assoc.
    rewrite utf8_bytes_app, utf8_bytes_crlf.
    rewrite after_first_line by (assumption || reflexivity).
    rewrite <- (IH h body Hh1 Hh2 Hcl' Hcr' Hne').
    apply after_first_no_crlf; [cbn; lia|].
    destruct h as [|c h]; [contradiction|].
    assert (Hj : exists X,
               utf8_bytes (join crlf ((c :: h) :: hs) ++ crlf ++ crlf ++ body)
               = utf8_bytes (c :: h) ++ X /\ starts_with_lf X = false).
    { destruct hs as [|h' hs].
      - cbn [join]. rewrite utf8_bytes_app, utf8_bytes_crlf.
        eexists. split; [reflexivity|reflexivity].
      - rewrite join_cons by discriminate.
        rewrite <- !app_assoc. rewrite utf8_bytes_app, utf8_bytes_crlf.
        eexists. split; [reflexivity|reflexivity]. }
    destruct Hj as (X & Hj & HX).
    transitivity (starts_with_crlf (utf8_bytes (c :: h) ++ X));
      [apply f_equal; exact Hj|].
    apply starts_with_crlf_line; assumption.
Qed.

End FirstBlankLine.

(** ** The body of a request that is UTF-8 text *)

Section ForwardedBody.

Variable unicode_upper unicode_lower : Z -> str.
Variable urlparse : str -> pyres ParseResult.
Variable http_client : origin_call -> pyres HTTPResponse.

Lemma clean_join_inv (parts : list str) :
  clean (join crlf parts) -> Forall clean parts.
Proof.
  induction parts as [|p ps IH]; intros H; [constructor|].
  destruct ps as [|q ps].
  - constructor; [exact H|constructor].
  - rewrite join_cons in H by discriminate.
    apply clean_app_inv in H as [Hp H].
    apply clean_app_inv in H as [_ H].
    constructor; [exact Hp|apply IH; exact H].
Qed.

Lemma skipn_past (A : Type) (l : list A) (x : A) (r : list A) :
  skipn (S (length l)) (l ++ x :: r) = r.
Proof. induction l as [|y l IH]; [reflexivity|exact IH]. Qed.

Lemma strip_not_nil (h : str) : strip h <> [] -> h <> [].
Proof. intros H E. subst h. apply H. reflexivity. Qed.

Lemma process_body_forwards (request_line : str) (header_lines : list str)
      (body : str) :
  clean (join crlf (request_line :: header_lines) ++ crlf ++ crlf ++ body) ->
  has_crlf request_line = false ->
  Forall (fun h => has_crlf h = false) header_lines ->
  Forall (fun h => strip h <> []) header_lines ->
  Forall (fun call => call_body call = utf8_bytes body)
         (snd (process_http_request_body
                 unicode_upper unicode_lower urlparse http_client
                 (utf8_bytes (join crlf (request_line :: header_lines)
                              ++ crlf ++ crlf ++ body)))).
Proof.
  intros Hclean Hl Hhs Hstrip.
  assert (Hbody : clean body).
  { apply clean_app_inv in Hclean as [_ H].
    apply clean_app_inv in H as [_ H].
    apply clean_app_inv in H as [_ H]. exact H. }
  assert (Hlines :
            split (join crlf (request_line :: header_lines)
                   ++ crlf ++ crlf ++ body) crlf
            = request_line :: header_lines ++ [] :: split body crlf).
  { unfold split.
    rewrite (split_joined_lines header_lines request_line _ Hl Hhs).
    change (split_from crlf 0 [] (crlf ++ body))
      with (split_from crlf 0 [] ([] ++ crlf ++ body)).
    rewrite (split_from_line [] [] body eq_refl). reflexivity. }
  unfold process_http_request_body. cbv zeta.
  rewrite (utf8_decode_utf8_bytes_all _ Hclean). rewrite !Hlines.
  destruct (strip request_line) as [|c rl]; [constructor|].
  destruct (split (c :: rl) [32]) as [|method [|url [|version [|x parts]]]];
    try constructor.
  destruct (str_eqb (upper unicode_upper method) (text "CONNECT"));
    [constructor|].
  destruct (negb (startswith url (text "http://"))
            && negb (startswith url (text "https://"))
            && startswith url (text "/")); [constructor|].
  match goal with
  | |- context [urlparse ?u] => destruct (urlparse u) as [parsed|e]
  end; [|constructor].
  destruct (hostname parsed) as [[|h0 host]|]; try constructor.
  destruct (port parsed) as [parsed_port|e]; [|constructor].
  cbn [tl].
  pose proof (scan_headers_to_blank header_lines (split body crlf) 1 [] Hstrip)
    as Hscan.
  destruct (scan_headers (header_lines ++ [] :: split body crlf) 1 [])
    as [headers body_start].
  cbn [snd] in Hscan. subst body_start.
  replace (0 <? 1 + len header_lines + 1) with true
    by (symmetry; apply Z.ltb_lt; unfold len; lia).
  replace (Z.to_nat (1 + len header_lines + 1))
    with (S (S (length header_lines))) by (unfold len; lia).
  rewrite skipn_cons, skipn_past.
  destruct (split body crlf) as [|b0 bs] eqn:Esplit.
  { exfalso. revert Esplit. apply split_from_not_nil. }
  rewrite <- Esplit, join_split, (utf8_encode_clean body Hbody).
  unfold make_http_request. cbn [snd].
  constructor; [reflexivity|constructor].
Qed.

End ForwardedBody.

(** C9, amended -- for a REQUEST payload that is UTF-8 text in which every
    line between the request line and the first empty line holds a
    character that is not white space, the header block ends at the first
    CR LF CR LF of the payload, and whenever the request is forwarded to
    the origin the body sent is exactly the raw bytes behind that first
    CR LF CR LF. *)
Theorem text_body_is_forwarded_raw
        (unicode_upper unicode_lower : Z -> str)
        (urlparse : str -> pyres ParseResult)
        (http_client : origin_call -> pyres HTTPResponse)
        (request_line : str) (header_lines : list str) (body : str) :
  let request_str :=
    join crlf (request_line :: header_lines) ++ crlf ++ crlf ++ body in
  let request_data := utf8_bytes request_str in
  clean request_str ->
  has_crlf request_line = false ->
  Forall (fun h => has_crlf h = false) header_lines ->
  Forall (fun h => strip h <> []) header_lines ->
  after_first_crlf_crlf request_data = utf8_bytes body
  /\ Forall (fun call => call_body call = after_first_crlf_crlf request_data)
            (snd (process_http_request unicode_upper unicode_lower urlparse
                                       http_client request_data)).
Proof.
  intros request_str request_data Hclean Hl Hhs Hstrip.
  assert (Hfirst : after_first_crlf_crlf request_data = utf8_bytes body).
  { unfold request_data, request_str.
    pose proof Hclean as Hparts. unfold request_str in Hparts.
    apply clean_app_inv in Hparts as [Hparts _].
    apply clean_join_inv in Hparts.
    inversion Hparts as [|? ? Hline Hheaders]; subst.
    apply after_first_of_lines; try assumption.
    eapply Forall_impl; [|exact Hstrip].
    intros h. apply strip_not_nil. }
  split; [exact Hfirst|]. rewrite Hfirst.
  pose proof (process_body_forwards unicode_upper unicode_lower urlparse
                                    http_client request_line header_lines body
                                    Hclean Hl Hhs Hstrip) as Hcalls.
  fold request_str in Hcalls. fold request_data in Hcalls.
  unfold process_http_request.
  destruct (process_http_request_body unicode_upper unicode_lower urlparse
                                      http_client request_data)
    as [[response|e] calls]; cbn [snd] in Hcalls.
  - exact Hcalls.
  - destruct (exn_cls e); exact Hcalls.
Qed.

Lemma text_body_is_forwarded_raw_witness :
  after_first_crlf_crlf post_hello_request = lit "hello"
  /\ Forall (fun call => call_body call = after_first_crlf_crlf post_hello_request)
            (snd (process_http_request no_case_change no_case_change
                                       urlparse_x_y origin_ok
                                       post_hello_request)).
Proof.
  apply (text_body_is_forwarded_raw
           no_case_change no_case_change urlparse_x_y origin_ok
           (text "POST http://x/y HTTP/1.1") [text "Content-Length: 5"]
           (text "hello")).
  - cbn [join]. repeat apply clean_app;
      try apply clean_text; apply clean_crlf.
  - reflexivity.
  - repeat constructor.
  - repeat constructor. vm_compute. discriminate.
Defined.

(** * Further properties of the code *)

(** ** utils/protocol.py: the edges of [send_message] and [_read_exact] *)

Section FramingEdges.

Lemma frame_out_of_range (t : Z) (p : bytes) :
  2 ^ 32 <= len p \/ t < 0 \/ 256 <= t -> exists e, frame t p = Raise e.
Proof.
  intros H. unfold frame, struct_pack_I, struct_pack_B. cbv zeta.
  destruct ((0 <=? len p) && (len p <? 2 ^ 32)) eqn:E1; cbn [bind]; [|eauto].
  destruct ((0 <=? t) && (t <? 256)) eqn:E2; cbn [bind]; [|eauto].
  exfalso. apply andb_prop in E1 as [_ E1]. apply andb_prop in E2 as [E2 E3].
  apply Z.ltb_lt in E1, E3. apply Z.leb_le in E2. lia.
Qed.

Lemma _read_exact_none_needed (sock : socket) (n : Z) :
  n <= 0 -> _read_exact sock n = (Some [], sock).
Proof.
  intros H. unfold _read_exact. rewrite _read_exact_loop_unfold.
  destruct (Z_lt_dec (len []) n) as [Hlt|Hge]; [|reflexivity].
  unfold len in Hlt. simpl in Hlt. lia.
Qed.

End FramingEdges.

(** X1 -- [send_message] cannot frame a payload of 2^32 bytes or more, nor a
    type outside 0..255: [struct.pack] raises, the function returns [False]
    and nothing is written to the socket. *)
Theorem send_message_out_of_range (sock : socket) (t : Z) (p : bytes) :
  2 ^ 32 <= len p \/ t < 0 \/ 256 <= t ->
  send_message sock t p = (false, sock).
Proof.
  intros H. unfold send_message.
  destruct (frame_out_of_range t p H) as [e ->]. reflexivity.
Qed.

Lemma send_message_out_of_range_witness :
  send_message idle_socket 256 (lit "GET") = (false, idle_socket).
Proof.
  apply (send_message_out_of_range idle_socket 256 (lit "GET")).
  right. right. lia.
Defined.

(** X2 -- [_read_exact(sock, n)] returns the first [n] bytes of the stream,
    in however many segments they come, and leaves everything behind them
    unread; when fewer than [n] bytes come before the stream closes or
    raises it returns [None]; and for [n <= 0] it returns [b''] without
    touching the socket. *)
Theorem read_exact_exactly (sock : socket) (n : Z) :
  (n <= 0 -> _read_exact sock n = (Some [], sock))
  /\ (0 <= n <= len (pending (inbox sock)) ->
      fst (_read_exact sock n)
      = Some (firstn (Z.to_nat n) (pending (inbox sock)))
      /\ pending (inbox (snd (_read_exact sock n)))
         = skipn (Z.to_nat n) (pending (inbox sock))
      /\ sent (snd (_read_exact sock n)) = sent sock)
  /\ (len (pending (inbox sock)) < n -> fst (_read_exact sock n) = None).
Proof.
  split; [apply _read_exact_none_needed|]. split.
  - intros Hn. unfold _read_exact.
    destruct (_read_exact_loop_pending
                sock n [] (firstn (Z.to_nat n) (pending (inbox sock)))
                (skipn (Z.to_nat n) (pending (inbox sock))))
      as (H1 & H2 & _).
    + symmetry. apply firstn_skipn.
    + unfold len in *. rewrite length_firstn. simpl. lia.
    + split; [exact H1|]. split; [exact H2|].
      apply _read_exact_loop_keeps_output.
  - intros Hn. unfold _read_exact. apply _read_exact_loop_short.
    unfold len in *. simpl. lia.
Qed.

Lemma read_exact_exactly_witness :
  fst (_read_exact get_in_segments 5)
  = Some (firstn (Z.to_nat 5) (pending (inbox get_in_segments)))
  /\ pending (inbox (snd (_read_exact get_in_segments 5)))
     = skipn (Z.to_nat 5) (pending (inbox get_in_segments))
  /\ sent (snd (_read_exact get_in_segments 5)) = sent get_in_segments.
Proof.
  apply (proj1 (proj2 (read_exact_exactly get_in_segments 5))).
  vm_compute. split; discriminate.
Defined.

(** ** The fallback [read_message] of the client and the server *)

Section FallbackFraming.

Lemma read_payload_unfold (sock : socket) (n : Z) (payload : bytes) :
  Fallback.read_payload sock n payload =
  if Z_lt_dec (len payload) n then
    match recv sock (n - len payload) with
    | (Ret [], sock') => (Ret None, sock')
    | (Ret (c :: cs), sock') =>
        Fallback.read_payload sock' n (payload ++ c :: cs)
    | (Raise e, sock') => (Raise e, sock')
    end
  else (Ret (Some payload), sock).
Proof.
  rewrite Fallback.read_payload_equation_1.
  destruct (Z_lt_dec (len payload) n) as [Hlt|Hge]; simpl; [|reflexivity].
  destruct (recv sock (n - len payload)) as [[[|c cs]|e] sock'];
    reflexivity.
Qed.

(** The payload loop of the fallback ends as the loop of [_read_exact]
    does. *)
Lemma read_payload_as_read_exact (sock : socket) (n : Z) (payload : bytes) :
  _read_exact_loop sock n payload
  = (match fst (Fallback.read_payload sock n payload) with
     | Ret (Some p) => Some p
     | _ => None
     end,
     snd (Fallback.read_payload sock n payload)).
Proof.
  remember (Z.to_nat (n - len payload)) as m eqn:Hm.
  revert sock payload Hm.
  induction m as [m IH] using lt_wf_ind. intros sock payload Hm.
  rewrite _read_exact_loop_unfold, read_payload_unfold.
  destruct (Z_lt_dec (len payload) n) as [Hlt|Hge]; [|reflexivity].
  destruct (recv sock (n - len payload)) as [[[|c cs]|e] sock'];
    try reflexivity.
  apply (IH (Z.to_nat (n - len (payload ++ c :: cs)))); [|reflexivity].
  subst m. rewrite len_app. unfold len in *. simpl length. lia.
Qed.

Lemma fallback_header_whole (sock : socket) (b : byte) (bs : bytes)
      (rest : list recv_event) :
  inbox sock = Seg b bs :: rest ->
  5 <= len (b :: bs) ->
  Fallback.read_message sock = read_message sock.
Proof.
  intros Hin Hlen.
  destruct bs as [|b2 [|b1 [|b0 [|t bs]]]];
    try (unfold len in Hlen; simpl in Hlen; lia).
  rewrite read_message_unfold. unfold Fallback.read_message.
  rewrite _read_exact_loop_unfold.
  destruct (Z_lt_dec (len []) 5) as [_|Hge];
    [|exfalso; apply Hge; unfold len; simpl; lia].
  unfold recv. rewrite Hin.
  change (5 - len []) with 5.
  change (firstn (Z.to_nat 5) (b :: b2 :: b1 :: b0 :: t :: bs))
    with [b; b2; b1; b0; t].
  change (skipn (Z.to_nat 5) (b :: b2 :: b1 :: b0 :: t :: bs)) with bs.
  cbn [app]. rewrite _read_exact_loop_unfold.
  destruct (Z_lt_dec (len [b; b2; b1; b0; t]) 5) as [Hlt|_];
    [exfalso; unfold len in Hlt; simpl in Hlt; lia|].
  change (len [b; b2; b1; b0; t] =? 5) with true. cbn [negb].
  cbn [firstn skipn struct_unpack_I struct_unpack_B bind].
  rewrite read_payload_as_read_exact.
  destruct (Fallback.read_payload _ _ []) as [[[p|]|e] sock2]; reflexivity.
Qed.

Lemma fallback_header_split (sock : socket) (b : byte) (bs : bytes)
      (rest : list recv_event) :
  inbox sock = Seg b bs :: rest ->
  len (b :: bs) < 5 ->
  fst (Fallback.read_message sock) = (None, None).
Proof.
  intros Hin Hlen. unfold Fallback.read_message, recv. rewrite Hin.
  cbv zeta. rewrite firstn_all2 by (unfold len in Hlen; lia).
  replace (len (b :: bs) =? 5) with false
    by (symmetry; apply Z.eqb_neq; lia).
  reflexivity.
Qed.

End FallbackFraming.

(** X3 -- the [read_message] that [client.py] and [server.py] fall back on
    reads the header with a single [recv(5)]. When the first segment of the
    stream holds the five header bytes it does exactly what the
    [read_message] of [utils/protocol.py] does; when the first segment is
    shorter it gives [(None, None)], whatever arrives behind it. *)
Theorem fallback_read_message_single_recv (sock : socket) (b : byte)
        (bs : bytes) (rest : list recv_event) :
  inbox sock = Seg b bs :: rest ->
  (5 <= len (b :: bs) -> Fallback.read_message sock = read_message sock)
  /\ (len (b :: bs) < 5 -> fst (Fallback.read_message sock) = (None, None)).
Proof.
  intros Hin. split.
  - apply (fallback_header_whole sock b bs rest Hin).
  - apply (fallback_header_split sock b bs rest Hin).
Qed.

Lemma fallback_read_message_single_recv_witness :
  (5 <= len [x00; x00] ->
   Fallback.read_message get_in_segments = read_message get_in_segments)
  /\ (len [x00; x00] < 5 ->
      fst (Fallback.read_message get_in_segments) = (None, None)).
Proof.
  apply (fallback_read_message_single_recv
           get_in_segments x00 [x00]
           [Seg x00 [x03; x00; x47]; Seg x45 [x54]]).
  reflexivity.
Defined.

(** A frame whose header comes in two segments: read by [utils/protocol.py],
    lost by the fallback. *)
Example fallback_loses_split_header :
  fst (read_message get_in_segments) = (Some MSG_REQUEST, Some (lit "GET"))
  /\ fst (Fallback.read_message get_in_segments) = (None, None).
Proof. split; vm_compute; reflexivity. Qed.

(** ** client/client.py: the worker without a link *)

Section WorkerEdges.

Lemma process_item_not_connected (self : ShipProxyClient) (item : request_item) :
  offshore_socket self = None ->
  fst (connect_to_offshore self) = false ->
  process_item self item
  = (snd (connect_to_offshore self),
     failed "Cannot connect to offshore proxy").
Proof.
  intros Hs Hc. unfold process_item. rewrite Hs.
  destruct (connect_to_offshore self) as [ok self1]. simpl in Hc. subst ok.
  reflexivity.
Qed.

Lemma process_item_write_failed (self : ShipProxyClient) (item : request_item)
      (sock : socket) :
  offshore_socket self = Some sock ->
  fst (send_message sock MSG_REQUEST (request_data item)) = false ->
  let payload := request_data item in
  let torn :=
    mk_client None (reconnect_attempts self) (max_reconnect_attempts self)
              (network self)
              (trace self ++ [EvSend payload false; EvClose])
              (closed self
               ++ [snd (send_message sock MSG_REQUEST payload)]) in
  let re := connect_to_offshore torn in
  let retry := send_request (snd re) payload in
  process_item self item
  = if fst re
    then if fst retry
         then await_response (snd retry)
         else (snd retry, failed "Failed to send request after reconnection")
    else (snd re, failed "Lost connection to offshore proxy").
Proof.
  intros Hs Hfail payload torn re retry.
  unfold process_item. rewrite Hs. simpl negb. cbv iota.
  rewrite (send_request_connected self sock (request_data item) Hs).
  rewrite Hfail. cbv iota. client_simpl.
  change (connect_to_offshore _) with re.
  destruct re as [ok self5] eqn:Ere. simpl fst. simpl snd.
  destruct ok; [|reflexivity].
  change (send_request self5 (request_data item)) with retry.
  destruct retry as [ok' self6]. reflexivity.
Qed.

Lemma connect_to_offshore_result (self : ShipProxyClient) :
  0 < max_reconnect_attempts self ->
  (fst (connect_to_offshore self) = true ->
   exists s, offshore_socket (snd (connect_to_offshore self)) = Some s)
  /\ (fst (connect_to_offshore self) = false ->
      offshore_socket (snd (connect_to_offshore self)) = None)
  /\ closed (snd (connect_to_offshore self)) = closed self.
Proof.
  intros Hmax.
  destruct (connect_attempts_spec (Z.to_nat (max_reconnect_attempts self)) 0 self)
    as (k & _ & _ & Hf & Hok & _ & Hc); [lia|simpl; lia|].
  fold (range (max_reconnect_attempts self)) in Hf, Hok, Hc.
  fold (connect_to_offshore self) in Hf, Hok, Hc.
  split; [|split; [|exact Hc]].
  - intros H. destruct (Hok H) as (_ & s & Hs). eauto.
  - intros H. exact (proj2 (Hf H)).
Qed.

Lemma process_item_connected_sends_first (self : ShipProxyClient)
      (item : request_item) (sock : socket) :
  offshore_socket self = Some sock ->
  exists ok tl,
    trace (fst (process_item self item))
    = trace self ++ EvSend (request_data item) ok :: tl.
Proof.
  intros Hs.
  destruct (fst (send_message sock MSG_REQUEST (request_data item))) eqn:Eok.
  - rewrite (process_item_write_ok self item sock Hs Eok).
    match goal with
    | |- context [await_response ?c] =>
        destruct (await_response_grows c) as [x Hx]
    end.
    rewrite Hx. cbn [trace]. rewrite <- app_assoc.
    do 2 eexists; reflexivity.
  - rewrite (process_item_write_failed self item sock Hs Eok). cbv zeta.
    match goal with
    | |- context [connect_to_offshore ?c] =>
        set (torn := c);
        destruct (connect_to_offshore_grows torn) as [x Hx]
    end.
    set (re := connect_to_offshore torn) in *.
    destruct (send_request_grows (snd re) (request_data item)) as [y Hy].
    set (retry := send_request (snd re) (request_data item)) in *.
    destruct (await_response_grows (snd retry)) as [z Hz].
    destruct (fst re); [destruct (fst retry)|]; cbn [fst];
      rewrite ?Hz, ?Hy, Hx; cbn [trace torn];
      rewrite <- ?app_assoc; cbn [app]; do 2 eexists; reflexivity.
Qed.

End WorkerEdges.

(** X4 -- an item taken from the queue while no socket is held and the
    offshore endpoint cannot be reached: the worker dials five times,
    sleeping 1, 2, 4 and 8 seconds in between, writes and reads nothing,
    completes the item with the error [Cannot connect to offshore proxy],
    and is left without a socket, so that the next item starts dialling
    again. *)
Theorem unreachable_endpoint_fails_item (self : ShipProxyClient)
        (item : request_item) :
  offshore_socket self = None ->
  max_reconnect_attempts self = 5 ->
  fst (connect_to_offshore self) = false ->
  snd (process_item self item) = failed "Cannot connect to offshore proxy"
  /\ trace (fst (process_item self item))
     = trace self
       ++ [EvDial false; EvSleep 1; EvDial false; EvSleep 2; EvDial false;
           EvSleep 4; EvDial false; EvSleep 8; EvDial false]
  /\ offshore_socket (fst (process_item self item)) = None
  /\ closed (fst (process_item self item)) = closed self.
Proof.
  intros Hs Hmax Hc.
  rewrite (process_item_not_connected self item Hs Hc). cbn [fst snd].
  split; [reflexivity|].
  destruct (connect_to_offshore_result self) as (_ & Hnone & Hclosed); [lia|].
  split; [|split; [exact (Hnone Hc)|exact Hclosed]].
  destruct (connect_attempts_spec 5 0 self) as (k & _ & Htr & Hf & _);
    [lia|simpl; exact Hmax|].
  assert (Hr : connect_to_offshore self
               = connect_attempts self (map Z.of_nat (seq 0 5))).
  { unfold connect_to_offshore, range. rewrite Hmax. reflexivity. }
  rewrite <- Hr in Htr, Hf.
  destruct (Hf Hc) as [-> _]. rewrite Htr, Hc. reflexivity.
Qed.

Lemma unreachable_endpoint_fails_item_witness :
  snd (process_item (init []) get_item)
  = failed "Cannot connect to offshore proxy"
  /\ trace (fst (process_item (init []) get_item))
     = trace (init [])
       ++ [EvDial false; EvSleep 1; EvDial false; EvSleep 2; EvDial false;
           EvSleep 4; EvDial false; EvSleep 8; EvDial false]
  /\ offshore_socket (fst (process_item (init []) get_item)) = None
  /\ closed (fst (process_item (init []) get_item)) = closed (init []).
Proof.
  apply (unreachable_endpoint_fails_item (init []) get_item); reflexivity.
Defined.

(** X5 -- when the write fails again after the reconnection, the worker
    completes the item and goes on without invalidating the new link: the
    socket the retry failed on is neither closed nor cleared (only the
    first socket has been closed), and the next item is written to it
    without any dial. *)
Theorem failed_retry_keeps_the_socket (self : ShipProxyClient)
        (item : request_item) (sock : socket) :
  offshore_socket self = Some sock ->
  0 < max_reconnect_attempts self ->
  fst (send_message sock MSG_REQUEST (request_data item)) = false ->
  let payload := request_data item in
  let sock1 := snd (send_message sock MSG_REQUEST payload) in
  let torn :=
    mk_client None (reconnect_attempts self) (max_reconnect_attempts self)
              (network self)
              (trace self ++ [EvSend payload false; EvClose])
              (closed self ++ [sock1]) in
  let re := connect_to_offshore torn in
  let retry := send_request (snd re) payload in
  let out := process_item self item in
  fst re = true -> fst retry = false ->
  exists sock2,
    offshore_socket (snd re) = Some sock2
    /\ snd out = failed "Failed to send request after reconnection"
    /\ offshore_socket (fst out)
       = Some (snd (send_message sock2 MSG_REQUEST payload))
    /\ closed (fst out) = closed self ++ [sock1]
    /\ forall next,
         exists ok tl,
           trace (fst (process_item (fst out) next))
           = trace (fst out) ++ EvSend (request_data next) ok :: tl.
Proof.
  intros Hs Hmax Hfail payload sock1 torn re retry out Hre Hretry.
  pose proof (process_item_write_failed self item sock Hs Hfail) as Hout.
  cbv zeta in Hout. fold payload in Hout. fold sock1 in Hout.
  fold torn in Hout. fold re in Hout. fold retry in Hout. fold out in Hout.
  rewrite Hre, Hretry in Hout.
  destruct (connect_to_offshore_result torn Hmax) as (Hsome & _ & Hclosed).
  fold re in Hsome, Hclosed.
  destruct (Hsome Hre) as [sock2 Hs2].
  exists sock2. split; [exact Hs2|].
  assert (Hr : snd retry
               = mk_client (Some (snd (send_message sock2 MSG_REQUEST payload)))
                           (reconnect_attempts (snd re))
                           (max_reconnect_attempts (snd re))
                           (network (snd re))
                           (trace (snd re)
                            ++ [EvSend payload
                                  (fst (send_message sock2 MSG_REQUEST payload))])
                           (closed (snd re))).
  { unfold retry. rewrite (send_request_connected (snd re) sock2 payload Hs2).
    reflexivity. }
  rewrite Hout. cbn [fst snd]. split; [reflexivity|].
  assert (Hsock : offshore_socket (snd retry)
                  = Some (snd (send_message sock2 MSG_REQUEST payload)))
    by (rewrite Hr; reflexivity).
  split; [exact Hsock|]. split; [rewrite Hr; exact Hclosed|].
  intros next.
  exact (process_item_connected_sends_first (snd retry) next _ Hsock).
Qed.

Lemma failed_retry_keeps_the_socket_witness :
  exists sock2,
    offshore_socket
      (snd (connect_to_offshore
              (mk_client None 0 5
                         [Some (mk_socket [] [SendRaise 0 broken_pipe] [])]
                         [EvSend (request_data get_item) false; EvClose]
                         [mk_socket [] [] [x00; x00]])))
    = Some sock2
    /\ snd (process_item client_on_bad_links get_item)
       = failed "Failed to send request after reconnection"
    /\ offshore_socket (fst (process_item client_on_bad_links get_item))
       = Some (snd (send_message sock2 MSG_REQUEST (request_data get_item)))
    /\ closed (fst (process_item client_on_bad_links get_item))
       = [] ++ [mk_socket [] [] [x00; x00]]
    /\ forall next,
         exists ok tl,
           trace (fst (process_item
                         (fst (process_item client_on_bad_links get_item))
                         next))
           = trace (fst (process_item client_on_bad_links get_item))
             ++ EvSend (request_data next) ok :: tl.
Proof.
  apply (failed_retry_keeps_the_socket
           client_on_bad_links get_item
           (mk_socket [] [SendRaise 2 broken_pipe] []));
    reflexivity.
Defined.

(** ** The request the handler builds *)

Section RequestText.

(** The first CR LF CR LF of the bytes of a request head that has no empty
    line in it is the one that ends it, whatever bytes follow. *)
Lemma after_first_of_head (header_lines : list str) :
  forall (l : str) (body : bytes),
    clean l -> has_crlf l = false ->
    Forall clean header_lines ->
    Forall (fun h => has_crlf h = false) header_lines ->
    Forall (fun h => h <> []) header_lines ->
    after_first_crlf_crlf
      (utf8_bytes (join crlf (l :: header_lines) ++ crlf ++ crlf) ++ body)
    = body.
Proof.
  induction header_lines as [|h hs IH]; intros l body Hl Hc Hcl Hcr Hne.
  - cbn [join]. rewrite utf8_bytes_app, <- app_assoc.
    rewrite after_first_line by (assumption || reflexivity).
    reflexivity.
  - inversion Hcl as [|? ? Hh1 Hcl']; subst.
    inversion Hcr as [|? ? Hh2 Hcr']; subst.
    inversion Hne as [|? ? Hh3 Hne']; subst.
    rewrite join_cons by discriminate.
    rewrite <- !app_assoc.
    rewrite utf8_bytes_app, utf8_bytes_crlf, <- app_assoc.
    rewrite after_first_line by (assumption || reflexivity).
    rewrite <- (IH h body Hh1 Hh2 Hcl' Hcr' Hne') at 2.
    cbn [app]. apply after_first_no_crlf; [cbn; lia|].
    destruct h as [|c h]; [contradiction|].
    assert (Hj : exists X,
               utf8_bytes (join crlf ((c :: h) :: hs) ++ crlf ++ crlf) ++ body
               = utf8_bytes (c :: h) ++ X /\ starts_with_lf X = false).
    { destruct hs as [|h' hs].
      - cbn [join]. rewrite utf8_bytes_app, utf8_bytes_crlf, <- app_assoc.
        eexists. split; [reflexivity|reflexivity].
      - rewrite join_cons by discriminate.
        rewrite <- !app_assoc. rewrite utf8_bytes_app, utf8_bytes_crlf.
        rewrite <- app_assoc.
        eexists. split; [reflexivity|reflexivity]. }
    destruct Hj as (X & Hj & HX).
    transitivity (starts_with_crlf (utf8_bytes (c :: h) ++ X));
      [apply f_equal; exact Hj|].
    apply starts_with_crlf_line; assumption.
Qed.

Lemma lstrip_keeps (c : Z) (s : str) :
  isspace c = false -> In c s -> In c (lstrip s).
Proof.
  intros Hc. induction s as [|x s IH]; intros Hin; [contradiction|].
  cbn [lstrip]. destruct (isspace x) eqn:Ex; [|exact Hin].
  destruct Hin as [->|Hin]; [congruence|apply IH; exact Hin].
Qed.

(** A line that holds a character that is not white space is not blank. *)
Lemma strip_keeps (c : Z) (s : str) :
  isspace c = false -> In c s -> strip s <> [].
Proof.
  intros Hc Hin. unfold strip, rstrip.
  assert (H : In c (rev (lstrip (rev (lstrip s))))).
  { apply in_rev. rewrite rev_involutive.
    apply lstrip_keeps; [exact Hc|].
    apply in_rev. rewrite rev_involutive.
    apply lstrip_keeps; assumption. }
  intros E. rewrite E in H. contradiction.
Qed.

Lemma header_line_not_blank (name value : str) :
  strip (name ++ text ": " ++ value) <> [].
Proof.
  apply (strip_keeps 58); [reflexivity|].
  apply in_or_app. right. left. reflexivity.
Qed.

Lemma headers_str_fold (headers : list (str * str)) :
  forall acc,
    fold_left (fun acc hv => acc ++ fst hv ++ text ": " ++ snd hv ++ crlf)
              headers acc
    = acc ++ concat (map (fun hv => (fst hv ++ text ": " ++ snd hv) ++ crlf)
                         headers).
Proof.
  induction headers as [|hv hs IH]; intros acc; cbn [fold_left map concat].
  - rewrite app_nil_r. reflexivity.
  - rewrite IH. rewrite <- !app_assoc. reflexivity.
Qed.

Lemma head_as_lines (lines : list str) :
  forall l,
    (l ++ crlf) ++ concat (map (fun h => h ++ crlf) lines) ++ crlf
    = join crlf (l :: lines) ++ crlf ++ crlf.
Proof.
  induction lines as [|h hs IH]; intros l; cbn [map concat].
  - cbn [join app]. rewrite <- app_assoc. reflexivity.
  - rewrite join_cons by discriminate.
    rewrite <- !app_assoc. f_equal. f_equal.
    specialize (IH h). rewrite <- !app_assoc in IH. exact IH.
Qed.

End RequestText.

(** ** What the offshore server forwards as the body *)

Section BodyLaw.

Variable unicode_upper unicode_lower : Z -> str.
Variable urlparse : str -> pyres ParseResult.
Variable http_client : origin_call -> pyres HTTPResponse.

(** The header loop stops at the first line that is blank, empty or not. *)
Lemma scan_headers_to_blank_line (header_lines : list str) (blank : str) :
  forall (rest : list str) (i : Z) (headers : dict),
    Forall (fun h => strip h <> []) header_lines ->
    strip blank = [] ->
    snd (scan_headers (header_lines ++ blank :: rest) i headers)
    = i + len header_lines + 1.
Proof.
  induction header_lines as [|h hs IH]; intros rest i headers H Hb.
  - cbn [app scan_headers]. rewrite Hb. cbn. lia.
  - inversion H as [|? ? Hh Hs]; subst.
    cbn [app scan_headers].
    destruct (strip h) as [|c0 stripped]; [contradiction|].
    unfold len. cbn [length]. rewrite Nat2Z.inj_succ.
    destruct (contains 58 h).
    + destruct (split_once 58 h) as [key value].
      rewrite (IH rest (i + 1) _ Hs Hb). unfold len. lia.
    + rewrite (IH rest (i + 1) _ Hs Hb). unfold len. lia.
Qed.

(** A payload made of a request line, header lines that are not blank, a
    blank line and then any bytes: what reaches the origin as the body is
    the UTF-8 form of those bytes decoded with replacement. *)
Lemma forwarded_body_law (request_line : str) (header_lines : list str)
      (blank : str) (raw : bytes) :
  clean (join crlf (request_line :: header_lines)) ->
  clean blank ->
  has_crlf request_line = false ->
  Forall (fun h => has_crlf h = false) header_lines ->
  Forall (fun h => strip h <> []) header_lines ->
  has_crlf blank = false ->
  strip blank = [] ->
  Forall (fun call => call_body call = utf8_bytes (utf8_decode_replace raw))
         (snd (process_http_request
                 unicode_upper unicode_lower urlparse http_client
                 (utf8_bytes (join crlf (request_line :: header_lines)
                              ++ crlf ++ blank ++ crlf) ++ raw))).
Proof.
  intros Hclean Hcb Hl Hhs Hstrip Hbc Hblank.
  set (decoded := utf8_decode_replace raw).
  assert (Hdec : clean decoded) by apply clean_decode.
  assert (Hhead : clean (join crlf (request_line :: header_lines)
                         ++ crlf ++ blank ++ crlf)).
  { repeat apply clean_app; try apply clean_crlf; assumption. }
  assert (Hlines :
            split (utf8_decode_replace
                     (utf8_bytes (join crlf (request_line :: header_lines)
                                  ++ crlf ++ blank ++ crlf) ++ raw)) crlf
            = request_line :: header_lines ++ blank :: split decoded crlf).
  { rewrite (utf8_decode_utf8_bytes _ raw Hhead). fold decoded.
    rewrite <- !app_assoc. unfold split.
    rewrite (split_joined_lines header_lines request_line _ Hl Hhs).
    rewrite (split_from_line blank [] decoded Hbc). reflexivity. }
  assert (Hbody :
            Forall (fun call => call_body call = utf8_bytes decoded)
                   (snd (process_http_request_body
                           unicode_upper unicode_lower urlparse http_client
                           (utf8_bytes (join crlf (request_line :: header_lines)
                                        ++ crlf ++ blank ++ crlf) ++ raw)))).
  { unfold process_http_request_body. cbv zeta. rewrite !Hlines.
    destruct (strip request_line) as [|c rl]; [constructor|].
    destruct (split (c :: rl) [32]) as [|method [|url [|version [|x parts]]]];
      try constructor.
    destruct (str_eqb (upper unicode_upper method) (text "CONNECT"));
      [constructor|].
    destruct (negb (startswith url (text "http://"))
              && negb (startswith url (text "https://"))
              && startswith url (text "/")); [constructor|].
    match goal with
    | |- context [urlparse ?u] => destruct (urlparse u) as [parsed|e]
    end; [|constructor].
    destruct (hostname parsed) as [[|h0 host]|]; try constructor.
    destruct (port parsed) as [parsed_port|e]; [|constructor].
    cbn [tl].
    pose proof (scan_headers_to_blank_line header_lines blank
                  (split decoded crlf) 1 [] Hstrip Hblank) as Hscan.
    destruct (scan_headers (header_lines ++ blank :: split decoded crlf) 1 [])
      as [headers body_start].
    cbn [snd] in Hscan. subst body_start.
    replace (0 <? 1 + len header_lines + 1) with true
      by (symmetry; apply Z.ltb_lt; unfold len; lia).
    replace (Z.to_nat (1 + len header_lines + 1))
      with (S (S (length header_lines))) by (unfold len; lia).
    rewrite skipn_cons, skipn_past.
    destruct (split decoded crlf) as [|b0 bs] eqn:Esplit.
    { exfalso. revert Esplit. apply split_from_not_nil. }
    rewrite <- Esplit, join_split, (utf8_encode_clean decoded Hdec).
    unfold make_http_request. cbn [snd].
    constructor; [reflexivity|constructor]. }
  unfold process_http_request.
  destruct (process_http_request_body _ _ _ _ _) as [[response|e] calls];
    cbn [snd] in Hbody.
  - exact Hbody.
  - destruct (exn_cls e); exact Hbody.
Qed.

End BodyLaw.

(** X6 -- whatever bytes follow the empty line that ends the header block,
    the body the offshore server sends to the origin is not those bytes but
    the UTF-8 form of their decoding with [errors='replace']: every
    ill-formed sequence reaches the origin as U+FFFD. *)
Theorem forwarded_body_is_redecoded
        (unicode_upper unicode_lower : Z -> str)
        (urlparse : str -> pyres ParseResult)
        (http_client : origin_call -> pyres HTTPResponse)
        (request_line : str) (header_lines : list str) (raw : bytes) :
  clean (join crlf (request_line :: header_lines)) ->
  has_crlf request_line = false ->
  Forall (fun h => has_crlf h = false) header_lines ->
  Forall (fun h => strip h <> []) header_lines ->
  Forall (fun call => call_body call = utf8_bytes (utf8_decode_replace raw))
         (snd (process_http_request
                 unicode_upper unicode_lower urlparse http_client
                 (utf8_bytes (join crlf (request_line :: header_lines)
                              ++ crlf ++ crlf) ++ raw))).
Proof.
  intros Hclean Hl Hhs Hstrip.
  exact (forwarded_body_law unicode_upper unicode_lower urlparse http_client
           request_line header_lines [] raw Hclean clean_nil Hl Hhs Hstrip
           eq_refl eq_refl).
Qed.

Lemma forwarded_body_is_redecoded_witness :
  Forall (fun call => call_body call = utf8_bytes (utf8_decode_replace [xff]))
         (snd (process_http_request
                 no_case_change no_case_change urlparse_x_y origin_ok
                 post_binary_request)).
Proof.
  apply (forwarded_body_is_redecoded
           no_case_change no_case_change urlparse_x_y origin_ok
           (text "POST http://x/y HTTP/1.1") [text "Content-Length: 1"]
           [xff]).
  - cbn [join]. repeat apply clean_app;
      try apply clean_text; apply clean_crlf.
  - reflexivity.
  - repeat constructor.
  - repeat constructor. vm_compute. discriminate.
Defined.

(** X7 -- the header loop ends at the first line that [strip()] leaves
    empty, not at the first CR LF CR LF: a line of white space only between
    the header lines ends the header block, and the lines behind it, header
    lines included, are sent to the origin as the body. *)
Theorem white_line_ends_the_headers
        (unicode_upper unicode_lower : Z -> str)
        (urlparse : str -> pyres ParseResult)
        (http_client : origin_call -> pyres HTTPResponse)
        (request_line : str) (header_lines : list str) (blank rest : str) :
  clean (join crlf (request_line :: header_lines)) ->
  clean blank ->
  clean rest ->
  has_crlf request_line = false ->
  Forall (fun h => has_crlf h = false) header_lines ->
  Forall (fun h => strip h <> []) header_lines ->
  has_crlf blank = false ->
  strip blank = [] ->
  Forall (fun call => call_body call = utf8_bytes rest)
         (snd (process_http_request
                 unicode_upper unicode_lower urlparse http_client
                 (utf8_bytes (join crlf (request_line :: header_lines)
                              ++ crlf ++ blank ++ crlf ++ rest)))).
Proof.
  intros Hclean Hcb Hrest Hl Hhs Hstrip Hbc Hblank.
  pose proof (forwarded_body_law unicode_upper unicode_lower urlparse
                http_client request_line header_lines blank
                (utf8_bytes rest) Hclean Hcb Hl Hhs Hstrip Hbc Hblank) as H.
  rewrite (utf8_decode_utf8_bytes_all rest Hrest) in H.
  replace (utf8_bytes (join crlf (request_line :: header_lines)
                       ++ crlf ++ blank ++ crlf ++ rest))
    with (utf8_bytes (join crlf (request_line :: header_lines)
                      ++ crlf ++ blank ++ crlf) ++ utf8_bytes rest);
    [exact H|].
  rewrite <- utf8_bytes_app, <- !app_assoc. reflexivity.
Qed.

Lemma white_line_ends_the_headers_witness :
  Forall (fun call =>
            call_body call
            = utf8_bytes (text "B: 2" ++ crlf ++ crlf ++ text "hello"))
         (snd (process_http_request
                 no_case_change no_case_change urlparse_x_y origin_ok
                 post_with_space_line)).
Proof.
  apply (white_line_ends_the_headers
           no_case_change no_case_change urlparse_x_y origin_ok
           (text "POST http://x/y HTTP/1.1") [text "A: 1"] (text " ")
           (text "B: 2" ++ crlf ++ crlf ++ text "hello")).
  - cbn [join]. repeat apply clean_app;
      try apply clean_text; apply clean_crlf.
  - apply clean_text.
  - repeat apply clean_app; try apply clean_text; apply clean_crlf.
  - reflexivity.
  - repeat constructor.
  - repeat constructor. vm_compute. discriminate.
  - reflexivity.
  - reflexivity.
Defined.

Example white_line_request :
  snd (process_http_request no_case_change no_case_change urlparse_x_y
                            origin_ok post_with_space_line)
  = [mk_call (text "POST") (text "x") 80 (text "/y")
             [(text "A", text "1")]
             (lit "B: 2" ++ [x0d; x0a; x0d; x0a] ++ lit "hello") false]
  /\ after_first_crlf_crlf post_with_space_line = lit "hello".
Proof. split; vm_compute; reflexivity. Qed.

(** ** client/client.py: [build_request_data] *)

Section BuildRequest.

Variable unicode_lower : Z -> str.
Variable int : str -> option Z.

(** The request line and the header lines as [build_request_data] writes
    them. *)
Lemma build_request_data_head (command path request_version : str)
      (headers : list (str * str)) :
  (command ++ text " " ++ path ++ text " " ++ request_version ++ crlf)
  ++ fold_left (fun acc hv => acc ++ fst hv ++ text ": " ++ snd hv ++ crlf)
               headers []
  ++ crlf
  = join crlf ((command ++ text " " ++ path ++ text " " ++ request_version)
               :: map (fun hv => fst hv ++ text ": " ++ snd hv) headers)
    ++ crlf ++ crlf.
Proof.
  rewrite headers_str_fold. cbn [app].
  rewrite <- (head_as_lines (map (fun hv => fst hv ++ text ": " ++ snd hv)
                                 headers)).
  rewrite map_map. rewrite <- !app_assoc. reflexivity.
Qed.

Lemma build_request_data_body (headers : list (str * str))
      (rfile_read : Z -> option bytes) (body : bytes) :
  body
  = match headers_get unicode_lower headers (text "Content-Length") with
    | Some (c :: content_length) =>
        match int (c :: content_length) with
        | Some content_length =>
            if 0 <? content_length then
              match rfile_read content_length with
              | Some body => body
              | None => []
              end
            else []
        | None => []
        end
    | _ => []
    end ->
  (forall value n b,
      headers_get unicode_lower headers (text "Content-Length") = Some value ->
      value <> [] -> int value = Some n -> 0 < n -> rfile_read n = Some b ->
      body = b)
  /\ (body = []
      \/ exists value n,
           headers_get unicode_lower headers (text "Content-Length")
           = Some value
           /\ int value = Some n /\ 0 < n /\ rfile_read n = Some body).
Proof.
  intros ->. split.
  - intros value n b Hget Hne Hint Hpos Hread. rewrite Hget.
    destruct value as [|c cl]; [contradiction|].
    rewrite Hint.
    replace (0 <? n) with true by (symmetry; apply Z.ltb_lt; exact Hpos).
    rewrite Hread. reflexivity.
  - destruct (headers_get unicode_lower headers (text "Content-Length"))
      as [[|c cl]|]; try (left; reflexivity).
    destruct (int (c :: cl)) as [n|] eqn:En; [|left; reflexivity].
    destruct (0 <? n) eqn:E0; [|left; reflexivity].
    destruct (rfile_read n) as [b|] eqn:Er; [|left; reflexivity].
    right. exists (c :: cl), n. apply Z.ltb_lt in E0. auto.
Qed.

Lemma build_request_data_built (command path request_version : str)
      (headers : list (str * str)) (rfile_read : Z -> option bytes) :
  clean (command ++ text " " ++ path ++ text " " ++ request_version) ->
  Forall (fun hv => clean (fst hv ++ text ": " ++ snd hv)) headers ->
  exists body,
    build_request_data unicode_lower int command path request_version
                       headers rfile_read
    = Some (utf8_bytes
              (join crlf
                    ((command ++ text " " ++ path ++ text " "
                      ++ request_version)
                     :: map (fun hv => fst hv ++ text ": " ++ snd hv) headers)
               ++ crlf ++ crlf)
            ++ body)
    /\ (forall value n b,
           headers_get unicode_lower headers (text "Content-Length")
           = Some value ->
           value <> [] -> int value = Some n -> 0 < n ->
           rfile_read n = Some b ->
           body = b)
    /\ (body = []
        \/ exists value n,
             headers_get unicode_lower headers (text "Content-Length")
             = Some value
             /\ int value = Some n /\ 0 < n /\ rfile_read n = Some body).
Proof.
  intros Hline Hheaders.
  unfold build_request_data. cbv zeta.
  match goal with
  | |- context [utf8_encode ?t] =>
      assert (Ht : t = join crlf
                         ((command ++ text " " ++ path ++ text " "
                           ++ request_version)
                          :: map (fun hv => fst hv ++ text ": " ++ snd hv)
                                 headers)
                       ++ crlf ++ crlf)
  end.
  { rewrite <- build_request_data_head. rewrite <- !app_assoc. reflexivity. }
  rewrite Ht.
  rewrite utf8_encode_clean.
  - eexists. split; [reflexivity|].
    apply build_request_data_body. reflexivity.
  - apply clean_app; [|apply clean_app; apply clean_crlf].
    apply clean_join; [apply clean_crlf|].
    constructor; [exact Hline|].
    apply Forall_map. exact Hheaders.
Qed.

End BuildRequest.



(** The body of the sample request is the five bytes [rfile] held. *)
Example built_request_body_sample :
  option_map after_first_crlf_crlf
             (build_request_data no_case_change int_of_digits
                                 (text "POST") (text "http://x/y")
                                 (text "HTTP/1.1")
                                 [(text "Content-Length", text "5")]
                                 rfile_hello)
  = Some (lit "hello")
  /\ rfile_hello 5 = Some (lit "hello").
Proof. split; vm_compute; reflexivity. Qed.

Example built_request_sample :
  build_request_data no_case_change int_of_digits
                     (text "POST") (text "http://x/y") (text "HTTP/1.1")
                     [(text "Content-Length", text "5")] rfile_hello
  = Some post_hello_request.
Proof. vm_compute. reflexivity. Qed.



(** The sample request is forwarded, and its body [hello], which is what
    [rfile] held, is the body the origin gets. *)
Example built_request_body_at_origin :
  option_map (fun request_data =>
                map call_body
                    (snd (process_http_request no_case_change no_case_change
                                               urlparse_x_y origin_ok
                                               request_data)))
             (build_request_data no_case_change int_of_digits
                                 (text "POST") (text "http://x/y")
                                 (text "HTTP/1.1")
                                 [(text "Content-Length", text "5")]
                                 rfile_hello)
  = Some [lit "hello"]
  /\ rfile_hello 5 = Some (lit "hello").
Proof. split; vm_compute; reflexivity. Qed.

(** ** client/client.py: what the browser gets *)

Section HandlerReplies.

Lemma await_response_completion (self : ShipProxyClient) :
  (exists p, snd (await_response self) = delivered p)
  \/ snd (await_response self) = failed "Invalid response from offshore proxy".
Proof.
  unfold await_response.
  destruct (read_response self) as [[[t|] [p|]] self1]; cbn [snd]; auto.
  destruct (t =? MSG_RESPONSE); cbn [snd]; eauto.
Qed.

(** Every path through the worker's turn completes the item with data or
    with one of four errors. *)
Lemma process_item_completion (self : ShipProxyClient) (item : request_item) :
  (exists p, snd (process_item self item) = delivered p)
  \/ exists reason,
       snd (process_item self item) = failed reason
       /\ In reason ["Cannot connect to offshore proxy";
                     "Lost connection to offshore proxy";
                     "Failed to send request after reconnection";
                     "Invalid response from offshore proxy"]%string.
Proof.
  assert (Hawait : forall s,
             (exists p, snd (await_response s) = delivered p)
             \/ exists reason,
                  snd (await_response s) = failed reason
                  /\ In reason ["Cannot connect to offshore proxy";
                                "Lost connection to offshore proxy";
                                "Failed to send request after reconnection";
                                "Invalid response from offshore proxy"]%string).
  { intros s. destruct (await_response_completion s) as [H|H]; [left; exact H|].
    right. eexists. split; [exact H|]. simpl. auto. }
  unfold process_item.
  destruct (match offshore_socket self with
            | Some _ => (true, self)
            | None => connect_to_offshore self
            end) as [connected self1].
  destruct connected; cbn [negb].
  - destruct (send_request self1 (request_data item)) as [ok self2].
    destruct ok; [apply Hawait|].
    destruct (connect_to_offshore _) as [reconnected self5].
    destruct reconnected.
    + destruct (send_request self5 (request_data item)) as [ok' self6].
      destruct ok'; [apply Hawait|].
      right. eexists. split; [reflexivity|]. simpl. auto.
    + right. eexists. split; [reflexivity|]. simpl. auto.
  - right. eexists. split; [reflexivity|]. simpl. auto.
Qed.

End HandlerReplies.

(** X10 -- a RESPONSE frame is relayed to the browser byte for byte, unless
    its payload is empty: then the handler finds neither an error nor data
    and answers 502 [Bad Gateway - No response from offshore proxy]. *)
Theorem empty_response_is_not_relayed (self : ShipProxyClient)
        (item : request_item) (sock : socket) (p : bytes) :
  offshore_socket self = Some sock ->
  request_data item <> [] ->
  fst (send_message sock MSG_REQUEST (request_data item)) = true ->
  fst (read_message (snd (send_message sock MSG_REQUEST (request_data item))))
  = (Some MSG_RESPONSE, Some p) ->
  handle_request (Some (request_data item))
                 (Some (snd (process_item self item)))
  = (Some (request_data item),
     match p with
     | [] =>
         send_error 502 (text "Bad Gateway - No response from offshore proxy")
     | _ :: _ => send_raw_response p
     end).
Proof.
  intros Hs Hne Hok Hread.
  rewrite (process_item_write_ok self item sock Hs Hok).
  match goal with
  | |- context [await_response ?c] =>
      destruct (await_response_connected c _ eq_refl) as [Hacc _]
  end.
  cbv zeta in Hacc. rewrite (Hacc p Hread). cbn [snd].
  unfold handle_request.
  destruct (request_data item) as [|b0 data]; [contradiction|].
  destruct p; reflexivity.
Qed.

Lemma empty_response_is_not_relayed_witness :
  handle_request
    (Some (request_data get_item))
    (Some (snd (process_item
                  (mk_client (Some (mk_socket [Seg x00 [x00; x00; x00; x01]]
                                              [] []))
                             0 5 [] [] [])
                  get_item)))
  = (Some (request_data get_item),
     send_error 502 (text "Bad Gateway - No response from offshore proxy")).
Proof.
  apply (empty_response_is_not_relayed
           (mk_client (Some (mk_socket [Seg x00 [x00; x00; x00; x01]] [] []))
                      0 5 [] [] [])
           get_item
           (mk_socket [Seg x00 [x00; x00; x00; x01]] [] []) []).
  - reflexivity.
  - discriminate.
  - reflexivity.
  - vm_compute. reflexivity.
Defined.

(** X11 -- once the worker has completed an item, the handler that waited
    for it answers with the bytes of the response or with a 502: an error
    the worker has set always reaches the browser as
    [502 Bad Gateway: <error>], and no 400, 500 or 504 is sent. *)
Theorem completed_item_is_answered (self : ShipProxyClient)
        (item : request_item) :
  request_data item <> [] ->
  let c := snd (process_item self item) in
  let r := snd (handle_request (Some (request_data item)) (Some c)) in
  (forall reason,
      container_error c = Some reason ->
      r = send_error 502 (text "Bad Gateway: " ++ reason))
  /\ (container_error c = None ->
      exists p,
        container_data c = Some p
        /\ r = match p with
               | [] =>
                   send_error 502
                     (text "Bad Gateway - No response from offshore proxy")
               | _ :: _ => send_raw_response p
               end).
Proof.
  intros Hne c r. subst r. unfold handle_request.
  destruct (request_data item) as [|b0 data]; [contradiction|]. cbn [snd].
  destruct (process_item_completion self item) as [[p Hp]|(reason & Hr & Hin)];
    subst c.
  - rewrite Hp. cbn [delivered container_error container_data].
    split; [discriminate|]. intros _. exists p. split; [reflexivity|].
    destruct p; reflexivity.
  - rewrite Hr. cbn [failed container_error container_data].
    split; [|discriminate].
    intros reason' E. injection E as <-.
    simpl in Hin.
    destruct Hin as [<-|[<-|[<-|[<-|[]]]]]; reflexivity.
Qed.

Lemma completed_item_is_answered_witness :
  (forall reason,
      container_error (snd (process_item (init []) get_item)) = Some reason ->
      snd (handle_request (Some (request_data get_item))
                          (Some (snd (process_item (init []) get_item))))
      = send_error 502 (text "Bad Gateway: " ++ reason))
  /\ (container_error (snd (process_item (init []) get_item)) = None ->
      exists p,
        container_data (snd (process_item (init []) get_item)) = Some p
        /\ snd (handle_request (Some (request_data get_item))
                               (Some (snd (process_item (init []) get_item))))
           = match p with
             | [] =>
                 send_error 502
                   (text "Bad Gateway - No response from offshore proxy")
             | _ :: _ => send_raw_response p
             end).
Proof.
  apply (completed_item_is_answered (init []) get_item). discriminate.
Defined.

(** ** server/server.py: the connection loop *)

Section ConnectionLoop.

Variable unicode_upper unicode_lower : Z -> str.
Variable urlparse : str -> pyres ParseResult.
Variable http_client : origin_call -> pyres HTTPResponse.

Local Abbreviation process :=
  (process_http_request unicode_upper unicode_lower urlparse http_client).
Local Abbreviation turn :=
  (handle_ship_turn unicode_upper unicode_lower urlparse http_client).
Local Abbreviation serve :=
  (handle_ship_connection unicode_upper unicode_lower urlparse http_client).

(** What the server writes for a frame, and the origin calls it makes. *)
Local Abbreviation answer_of f :=
  (if fst f =? MSG_REQUEST
   then match fst (process (snd f)) with
        | Ret response => frame_bytes MSG_RESPONSE response
        | Raise _ => []
        end
   else []).
Local Abbreviation calls_of f :=
  (if fst f =? MSG_REQUEST then snd (process (snd f)) else []).

Lemma turn_at_end_of_stream (sock : socket) :
  len (pending (inbox sock)) < 5 ->
  exists sock',
    turn sock = (Break, sock', []) /\ sent sock' = sent sock.
Proof.
  intros H. unfold handle_ship_turn.
  pose proof (read_message_short_header sock H) as Hr.
  pose proof (read_message_keeps_output sock) as [_ Hsent].
  destruct (read_message sock) as [[mt pl] sock1].
  cbn [fst snd] in Hr, Hsent. injection Hr as -> ->.
  eexists. split; [reflexivity|exact Hsent].
Qed.

Lemma turn_on_frame (sock : socket) (t : Z) (p rest : bytes) :
  outbox sock = [] ->
  0 <= t < 256 -> len p < 2 ^ 32 ->
  pending (inbox sock) = frame_bytes t p ++ rest ->
  (t = MSG_REQUEST ->
   exists r, fst (process p) = Ret r /\ len r < 2 ^ 32) ->
  exists sock',
    turn sock = (Continue, sock', calls_of (t, p))
    /\ outbox sock' = []
    /\ pending (inbox sock') = rest
    /\ sent sock' = sent sock ++ answer_of (t, p).
Proof.
  intros Hout Ht Hp Hpend Hresp.
  destruct (frame_ok t p Ht Hp) as [data Hdata].
  unfold frame_bytes in Hpend. rewrite Hdata in Hpend.
  destruct (frame_shape t p data Hdata) as (_ & b3 & b2 & b1 & b0 & -> & Hu).
  rewrite <- app_assoc in Hpend.
  destruct (read_message_frame sock b3 b2 b1 b0 (byte_of_Z t) p rest Hpend Hu)
    as (Hread & Hrest & _).
  rewrite byte_of_Z_small in Hread by exact Ht.
  pose proof (read_message_keeps_output sock) as [Hout1 Hsent1].
  unfold handle_ship_turn.
  destruct (read_message sock) as [[mt pl] sock1].
  cbn [fst snd] in Hread, Hrest, Hout1, Hsent1. injection Hread as -> ->.
  cbn [fst snd].
  destruct (t =? MSG_REQUEST) eqn:Et; cbn [negb].
  - apply Z.eqb_eq in Et.
    destruct (Hresp Et) as (r & Hr & Hlen).
    destruct (process p) as [res calls]. cbn [fst] in Hr. subst res.
    cbn [fst snd].
    destruct (frame_ok MSG_RESPONSE r) as [rdata Hrdata];
      [unfold MSG_RESPONSE; lia|exact Hlen|].
    rewrite (send_message_ok sock1 _ _ rdata Hrdata)
      by (rewrite Hout1, Hout; reflexivity).
    eexists. split; [reflexivity|]. cbn [outbox inbox sent].
    rewrite Hout1, Hout, Hsent1. unfold frame_bytes. rewrite Hrdata.
    auto.
  - exists sock1. rewrite app_nil_r, Hout1. auto.
Qed.

Lemma serve_frames (frames : list (Z * bytes)) :
  forall (sock : socket) (more : bytes) (turns : nat),
    outbox sock = [] ->
    pending (inbox sock)
    = concat (map (fun f => frame_bytes (fst f) (snd f)) frames) ++ more ->
    len more < 5 ->
    Forall (fun f => 0 <= fst f < 256 /\ len (snd f) < 2 ^ 32) frames ->
    Forall (fun f =>
              fst f = MSG_REQUEST ->
              exists r, fst (process (snd f)) = Ret r /\ len r < 2 ^ 32)
           frames ->
    (length frames < turns)%nat ->
    sent (fst (serve turns sock))
    = sent sock ++ concat (map (fun f => answer_of f) frames)
    /\ snd (serve turns sock) = concat (map (fun f => calls_of f) frames).
Proof.
  induction frames as [|[t p] fs IH];
    intros sock more turns Hout Hpend Hmore Hfit Hresp Hturns.
  - destruct turns as [|k]; [simpl in Hturns; lia|].
    cbn [map concat app] in Hpend. rewrite <- Hpend in Hmore.
    destruct (turn_at_end_of_stream sock Hmore) as (sock' & Hturn & Hsent).
    cbn [handle_ship_connection]. rewrite Hturn. cbn [fst snd map concat].
    rewrite app_nil_r. auto.
  - destruct turns as [|k]; [simpl in Hturns; lia|].
    inversion Hfit as [|? ? [Ht Hp] Hfit']; subst.
    inversion Hresp as [|? ? Hr Hresp']; subst.
    cbn [fst snd] in Ht, Hp, Hr.
    cbn [map concat fst snd] in Hpend. rewrite <- app_assoc in Hpend.
    destruct (turn_on_frame sock t p _ Hout Ht Hp Hpend Hr)
      as (sock' & Hturn & Hout' & Hpend' & Hsent').
    cbn [handle_ship_connection]. rewrite Hturn.
    destruct (IH sock' more k Hout' Hpend' Hmore Hfit' Hresp') as [H1 H2];
      [simpl in Hturns; lia|].
    destruct (serve k sock') as [sock'' calls'].
    cbn [fst snd] in H1, H2 |- *. cbn [map concat].
    rewrite H1, H2, Hsent', <- app_assoc. auto.
Qed.

End ConnectionLoop.

(** X12 -- the offshore server answers in order. For the frames that arrive
    on a connection before the stream ends, the loop writes one RESPONSE
    frame for each frame of type REQUEST, carrying the response to that
    request, in the order of arrival; a frame of any other type gets no
    answer and the loop goes on with the next one; the origins are asked in
    the same order; and the loop ends when the stream does. *)
Theorem offshore_answers_in_order
        (unicode_upper unicode_lower : Z -> str)
        (urlparse : str -> pyres ParseResult)
        (http_client : origin_call -> pyres HTTPResponse)
        (frames : list (Z * bytes)) (sock : socket) (more : bytes)
        (turns : nat) :
  outbox sock = [] ->
  pending (inbox sock)
  = concat (map (fun f => frame_bytes (fst f) (snd f)) frames) ++ more ->
  len more < 5 ->
  Forall (fun f => 0 <= fst f < 256 /\ len (snd f) < 2 ^ 32) frames ->
  Forall (fun f =>
            fst f = MSG_REQUEST ->
            exists r,
              fst (process_http_request unicode_upper unicode_lower urlparse
                                        http_client (snd f)) = Ret r
              /\ len r < 2 ^ 32)
         frames ->
  (length frames < turns)%nat ->
  sent (fst (handle_ship_connection unicode_upper unicode_lower urlparse
                                    http_client turns sock))
  = sent sock
    ++ concat
         (map (fun f =>
                 if fst f =? MSG_REQUEST
                 then match fst (process_http_request
                                   unicode_upper unicode_lower urlparse
                                   http_client (snd f)) with
                      | Ret response => frame_bytes MSG_RESPONSE response
                      | Raise _ => []
                      end
                 else [])
              frames)
  /\ snd (handle_ship_connection unicode_upper unicode_lower urlparse
                                 http_client turns sock)
     = concat
         (map (fun f =>
                 if fst f =? MSG_REQUEST
                 then snd (process_http_request unicode_upper unicode_lower
                                                urlparse http_client (snd f))
                 else [])
              frames).
Proof.
  intros Hout Hpend Hmore Hfit Hresp Hturns.
  exact (serve_frames unicode_upper unicode_lower urlparse http_client
           frames sock more turns Hout Hpend Hmore Hfit Hresp Hturns).
Qed.

Lemma offshore_answers_in_order_witness :
  sent (fst (handle_ship_connection no_case_change no_case_change
                                    urlparse_x_y origin_ok 3
                                    ship_sends_two_frames))
  = sent ship_sends_two_frames
    ++ concat
         (map (fun f =>
                 if fst f =? MSG_REQUEST
                 then match fst (process_http_request
                                   no_case_change no_case_change
                                   urlparse_x_y origin_ok (snd f)) with
                      | Ret response => frame_bytes MSG_RESPONSE response
                      | Raise _ => []
                      end
                 else [])
              [(7, [x41]); (MSG_REQUEST, connect_request)])
  /\ snd (handle_ship_connection no_case_change no_case_change
                                 urlparse_x_y origin_ok 3
                                 ship_sends_two_frames)
     = concat
         (map (fun f =>
                 if fst f =? MSG_REQUEST
                 then snd (process_http_request no_case_change no_case_change
                                                urlparse_x_y origin_ok (snd f))
                 else [])
              [(7, [x41]); (MSG_REQUEST, connect_request)]).
Proof.
  apply (offshore_answers_in_order
           no_case_change no_case_change urlparse_x_y origin_ok
           [(7, [x41]); (MSG_REQUEST, connect_request)]
           ship_sends_two_frames [] 3%nat).
  - reflexivity.
  - vm_compute. reflexivity.
  - vm_compute. reflexivity.
  - repeat constructor; vm_compute; try reflexivity; discriminate.
  - constructor; [|constructor; [|constructor]].
    + intros H. vm_compute in H. discriminate H.
    + intros _.
      exists (lit "HTTP/1.1 200 Connection Established"
              ++ [x0d; x0a; x0d; x0a]).
      split; vm_compute; reflexivity.
  - vm_compute. lia.
Defined.

Example offshore_answers_sample :
  sent (fst (handle_ship_connection no_case_change no_case_change
                                    urlparse_x_y origin_ok 3
                                    ship_sends_two_frames))
  = [x00; x00; x00; x27; x01]
    ++ lit "HTTP/1.1 200 Connection Established" ++ [x0d; x0a; x0d; x0a].
Proof. vm_compute. reflexivity. Qed.

(** ** server/server.py: what is put to an origin *)

Section OriginCalls.

Variable unicode_upper unicode_lower : Z -> str.
Variable urlparse : str -> pyres ParseResult.
Variable http_client : origin_call -> pyres HTTPResponse.

Lemma dict_pop_absent (d : dict) (k : str) :
  ~ In k (map fst (dict_pop d k)).
Proof.
  unfold dict_pop. induction d as [|[k' v'] d IH]; cbn [filter map]; [auto|].
  cbn [fst]. destruct (str_eqb k' k) eqn:E; cbn [negb]; [exact IH|].
  cbn [map fst In]. intros [H|H]; [|exact (IH H)].
  subst k'. rewrite str_eqb_refl in E. discriminate.
Qed.

Lemma dict_pop_keeps_absent (d : dict) (k k' : str) :
  ~ In k (map fst d) -> ~ In k (map fst (dict_pop d k')).
Proof.
  unfold dict_pop. intros H Hin. apply H.
  apply in_map_iff in Hin as (kv & Hk & Hf).
  apply filter_In in Hf as [Hf _].
  apply in_map_iff. exists kv. auto.
Qed.

Lemma fold_pop_keeps_absent (names : list str) :
  forall (d : dict) (k : str),
    ~ In k (map fst d) -> ~ In k (map fst (fold_left dict_pop names d)).
Proof.
  induction names as [|n ns IH]; intros d k H; [exact H|].
  cbn [fold_left]. apply IH. apply dict_pop_keeps_absent. exact H.
Qed.

Lemma fold_pop_absent (names : list str) :
  forall (d : dict) (k : str),
    In k names -> ~ In k (map fst (fold_left dict_pop names d)).
Proof.
  induction names as [|n ns IH]; intros d k Hin; [contradiction|].
  cbn [fold_left]. destruct Hin as [->|Hin].
  - apply fold_pop_keeps_absent. apply dict_pop_absent.
  - apply IH. exact Hin.
Qed.

Ltac no_calls := solve [cbn [snd length]; split; [lia|constructor]].

(** What holds of every request [process_http_request] puts to an
    origin. *)
Lemma process_body_calls (request_data : bytes) :
  let calls :=
    snd (process_http_request_body unicode_upper unicode_lower urlparse
                                   http_client request_data) in
  (length calls <= 1)%nat
  /\ Forall (fun call =>
               call_host call <> []
               /\ call_port call <> 0
               /\ call_path call <> []
               /\ upper unicode_upper (call_method call) <> text "CONNECT"
               /\ Forall (fun name => ~ In name (map fst (call_headers call)))
                         headers_to_remove)
            calls.
Proof.
  cbv zeta. unfold process_http_request_body. cbv zeta.
  destruct (split (utf8_decode_replace request_data) crlf) as [|line0 rest];
    [no_calls|].
  destruct (strip line0) as [|c rl]; [no_calls|].
  destruct (split (c :: rl) [32]) as [|method [|url [|version [|x parts]]]];
    try no_calls.
  destruct (str_eqb (upper unicode_upper method) (text "CONNECT")) eqn:Em;
    [no_calls|].
  destruct (negb (startswith url (text "http://"))
            && negb (startswith url (text "https://"))
            && startswith url (text "/")); [no_calls|].
  match goal with
  | |- context [urlparse ?u] => destruct (urlparse u) as [parsed|e]
  end; [|no_calls].
  destruct (hostname parsed) as [[|h0 host]|]; try no_calls.
  destruct (port parsed) as [parsed_port|e]; [|no_calls].
  destruct (scan_headers (tl (line0 :: rest)) 1 []) as [headers body_start].
  match goal with
  | |- context [match ?b with Ret _ => _ | Raise _ => _ end] =>
      destruct b as [body|e]
  end; [|no_calls].
  unfold make_http_request. cbn [snd length].
  split; [lia|]. constructor; [|constructor].
  cbn [call_host call_port call_path call_method call_headers].
  split; [discriminate|]. split; [|split; [|split]].
  - destruct (str_eqb (scheme parsed) (text "https"));
      destruct parsed_port as [p|]; try discriminate;
      destruct (p =? 0) eqn:Ep; try discriminate;
      apply Z.eqb_neq in Ep; exact Ep.
  - destruct (path parsed ++ match query parsed with
                             | [] => []
                             | q :: qs => text "?" ++ q :: qs
                             end); discriminate.
  - intros E. rewrite E, str_eqb_refl in Em. discriminate.
  - apply Forall_forall. intros name Hin. apply fold_pop_absent. exact Hin.
Qed.

End OriginCalls.

(** X13 -- what the offshore server never puts to an origin. For every
    payload, [process_http_request] contacts an origin at most once, and a
    request it does make has a host name that is not empty, a port that is
    not 0 (a missing port and port 0 become 80, or 443 for https), a path
    that is not empty, a method other than CONNECT, and none of the headers
    [proxy-connection] and [proxy-authorization] in the spellings the code
    removes (lower case, title case, upper case). *)
Theorem origin_call_invariants
        (unicode_upper unicode_lower : Z -> str)
        (urlparse : str -> pyres ParseResult)
        (http_client : origin_call -> pyres HTTPResponse)
        (request_data : bytes) :
  (length (snd (process_http_request unicode_upper unicode_lower urlparse
                                     http_client request_data)) <= 1)%nat
  /\ Forall (fun call =>
               call_host call <> []
               /\ call_port call <> 0
               /\ call_path call <> []
               /\ upper unicode_upper (call_method call) <> text "CONNECT"
               /\ Forall (fun name => ~ In name (map fst (call_headers call)))
                         headers_to_remove)
            (snd (process_http_request unicode_upper unicode_lower urlparse
                                       http_client request_data)).
Proof.
  pose proof (process_body_calls unicode_upper unicode_lower urlparse
                                 http_client request_data) as H.
  cbv zeta in H. unfold process_http_request.
  destruct (process_http_request_body _ _ _ _ _) as [[response|e] calls];
    cbn [snd] in H |- *; [exact H|].
  destruct (exn_cls e); exact H.
Qed.

(** ** server/server.py: the header mapping *)

Section HeaderMapping.

Lemma dict_get_set (d : dict) (k v name : str) :
  dict_get (dict_set d k v) name
  = if str_eqb k name then Some v else dict_get d name.
Proof.
  induction d as [|[k' v'] d IH]; cbn [dict_set dict_get]; [reflexivity|].
  destruct (str_eqb k' k) eqn:E; cbn [dict_get].
  - apply str_eqb_eq in E. subst k'.
    destruct (str_eqb k name); reflexivity.
  - rewrite IH. destruct (str_eqb k' name) eqn:E1; [|reflexivity].
    destruct (str_eqb k name) eqn:E2; [|reflexivity].
    apply str_eqb_eq in E1, E2. subst. rewrite str_eqb_refl in E.
    discriminate.
Qed.

Lemma scan_headers_last_value (header_lines : list str) (blank : str) :
  forall (rest : list str) (i : Z) (headers : dict) (name : str),
    Forall (fun h => strip h <> []) header_lines ->
    strip blank = [] ->
    dict_get (fst (scan_headers (header_lines ++ blank :: rest) i headers))
             name
    = last_header_value header_lines name (dict_get headers name).
Proof.
  induction header_lines as [|h hs IH]; intros rest i headers name H Hb.
  - cbn [app scan_headers last_header_value]. rewrite Hb. reflexivity.
  - inversion H as [|? ? Hh Hs]; subst.
    cbn [app scan_headers last_header_value].
    destruct (strip h) as [|c0 stripped]; [contradiction|].
    destruct (contains 58 h).
    + destruct (split_once 58 h) as [key value]. cbn [fst snd].
      rewrite (IH rest (i + 1) _ name Hs Hb). rewrite dict_get_set.
      reflexivity.
    + apply (IH rest (i + 1) _ name Hs Hb).
Qed.

End HeaderMapping.

(** X14 -- last value wins. Of the header lines before the first blank
    line, the header loop keeps one value for each name: that of the last
    line [name: value] bearing it, both sides stripped of white space;
    earlier values of the name are dropped, lines without a colon are
    passed over, and nothing behind the blank line is read as a header. *)
Theorem header_last_value_wins (header_lines : list str) (blank : str)
        (rest : list str) (name : str) :
  Forall (fun h => strip h <> []) header_lines ->
  strip blank = [] ->
  dict_get (fst (scan_headers (header_lines ++ blank :: rest) 1 [])) name
  = last_header_value header_lines name None.
Proof.
  intros H Hb.
  exact (scan_headers_last_value header_lines blank rest 1 [] name H Hb).
Qed.

Lemma header_last_value_wins_witness :
  dict_get (fst (scan_headers ([text "Accept: a"; text "no colon here";
                                text "Accept : b"]
                               ++ [] :: [text "Accept: c"]) 1 []))
           (text "Accept")
  = last_header_value [text "Accept: a"; text "no colon here";
                       text "Accept : b"]
                      (text "Accept") None.
Proof.
  apply (header_last_value_wins
           [text "Accept: a"; text "no colon here"; text "Accept : b"]
           [] [text "Accept: c"] (text "Accept")).
  - repeat constructor; vm_compute; discriminate.
  - reflexivity.
Defined.

Example header_last_value_sample :
  last_header_value [text "Accept: a"; text "no colon here";
                     text "Accept : b"]
                    (text "Accept") None
  = Some (text "b").
Proof. vm_compute. reflexivity. Qed.

(** ** server/server.py: the response that is assembled *)

Section ResponseText.

Lemma utf8_encode_from_ret (s : str) :
  forall pos b, utf8_encode_from pos s = Ret b -> b = utf8_bytes s.
Proof.
  induction s as [|c s IH]; intros pos b H.
  - injection H as <-. reflexivity.
  - cbn [utf8_encode_from] in H. cbn [utf8_bytes flat_map].
    destruct (encode_cp c) as [bs|]; [|discriminate].
    destruct (utf8_encode_from (pos + 1) s) as [r|e] eqn:E;
      cbn [bind] in H; [|discriminate].
    injection H as <-. rewrite (IH _ _ E). reflexivity.
Qed.

Lemma utf8_encode_ret (s : str) (b : bytes) :
  utf8_encode s = Ret b -> b = utf8_bytes s.
Proof. apply utf8_encode_from_ret. Qed.

(** Joining lines and an empty string behind them ends each line with one
    separator. *)
Lemma join_with_trailing_empty (lines : list str) :
  lines <> [] ->
  join crlf (lines ++ [[]]) = concat (map (fun l => l ++ crlf) lines).
Proof.
  induction lines as [|l ls IH]; intros H; [contradiction|].
  destruct ls as [|l' ls].
  - cbn. rewrite !app_nil_r. reflexivity.
  - change ((l :: l' :: ls) ++ [[]]) with (l :: (l' :: ls) ++ [[]]).
    rewrite join_cons by discriminate.
    rewrite IH by discriminate. cbn [map concat].
    rewrite <- !app_assoc. reflexivity.
Qed.

End ResponseText.

(** X15 -- the response [make_http_request] assembles for an origin's
    answer is the status line, [Content-Length] with the length of the body
    in bytes, [Connection: close] and the origin's other headers, each line
    ended by one CR LF, and then the body at once: the join over the lines
    and a last empty string puts a single CR LF behind the last header
    line, so no empty line stands between the headers and the body. *)
Theorem response_body_follows_last_header_line
        (unicode_lower : Z -> str) (response : HTTPResponse) (out : bytes) :
  assemble_response unicode_lower response = Ret out ->
  exists header_lines,
    out
    = utf8_bytes
        (concat
           (map (fun l => l ++ crlf)
                ((text "HTTP/1.1 " ++ str_of_int (status response)
                  ++ text " " ++ reason response)
                 :: (text "Content-Length: "
                     ++ str_of_int (len (read response)))
                 :: text "Connection: close"
                 :: header_lines)))
      ++ read response
    /\ Forall (fun l => l <> []) header_lines.
Proof.
  unfold assemble_response. cbv zeta. intros H.
  match type of H with
  | context [utf8_encode ?t] =>
      destruct (utf8_encode t) as [encoded|e] eqn:E; cbn [bind] in H;
      [|discriminate]
  end.
  injection H as <-.
  apply utf8_encode_ret in E. subst encoded.
  eexists. split.
  - rewrite app_assoc.
    rewrite join_with_trailing_empty by discriminate.
    reflexivity.
  - induction (getheaders response) as [|hv hs IH]; cbn [flat_map];
      [constructor|].
    apply Forall_app. split; [|exact IH].
    match goal with
    | |- context [if ?c then _ else _] => destruct c
    end; [constructor|].
    constructor; [|constructor].
    intros E. apply (f_equal (@length Z)) in E.
    rewrite !length_app in E. simpl in E. lia.
Qed.

Lemma response_body_follows_last_header_line_witness :
  exists header_lines,
    lit "HTTP/1.1 200 OK" ++ [x0d; x0a] ++ lit "Content-Length: 2"
    ++ [x0d; x0a] ++ lit "Connection: close" ++ [x0d; x0a] ++ lit "ok"
    = utf8_bytes
        (concat
           (map (fun l => l ++ crlf)
                ((text "HTTP/1.1 " ++ str_of_int 200 ++ text " " ++ text "OK")
                 :: (text "Content-Length: " ++ str_of_int (len (lit "ok")))
                 :: text "Connection: close"
                 :: header_lines)))
      ++ lit "ok"
    /\ Forall (fun l => l <> []) header_lines.
Proof.
  apply (response_body_follows_last_header_line
           no_case_change (mk_response 200 (text "OK") [] (lit "ok"))).
  vm_compute. reflexivity.
Defined.

(** ** server/server.py: the requests that are refused *)

Section Refusals.

Variable unicode_upper unicode_lower : Z -> str.
Variable urlparse : str -> pyres ParseResult.
Variable http_client : origin_call -> pyres HTTPResponse.

(** An error response the [try] block returns is what
    [process_http_request] returns. *)
Lemma error_response_returned (status_code : Z) (reason : str)
      (calls : list origin_call) :
  clean reason ->
  match (create_error_response status_code reason, calls) with
  | (Ret response, calls) => (Ret response, calls)
  | (Raise e, calls) =>
      match exn_cls e with
      | UnicodeDecodeError =>
          (create_error_response 400 (text "Bad Request - Invalid encoding"),
           calls)
      | _ =>
          (create_error_response 500
             (text "Internal Server Error: " ++ exn_str e), calls)
      end
  end
  = (create_error_response status_code reason, calls).
Proof.
  intros H. destruct (create_error_response_ok status_code reason H) as [r Hr].
  rewrite Hr. reflexivity.
Qed.

Lemma first_line_clean (request_data : bytes) :
  clean (strip (hd [] (split (utf8_decode_replace request_data) crlf))).
Proof.
  apply clean_strip.
  pose proof (clean_split _ crlf (clean_decode request_data)) as H.
  destruct (split (utf8_decode_replace request_data) crlf) as [|l ls];
    [constructor|].
  inversion H; assumption.
Qed.

Lemma refused_blank_line (request_data : bytes) :
  strip (hd [] (split (utf8_decode_replace request_data) crlf)) = [] ->
  process_http_request unicode_upper unicode_lower urlparse http_client
                       request_data
  = (create_error_response 400 (text "Bad Request - Empty request line"), []).
Proof.
  intros H. unfold process_http_request, process_http_request_body.
  cbv zeta.
  destruct (split (utf8_decode_replace request_data) crlf) as [|line0 rest]
    eqn:El.
  { exfalso. revert El. apply split_from_not_nil. }
  cbn [hd] in H. rewrite H.
  apply error_response_returned. apply clean_text.
Qed.

Lemma refused_parts (request_data : bytes) :
  strip (hd [] (split (utf8_decode_replace request_data) crlf)) <> [] ->
  length (split (strip (hd [] (split (utf8_decode_replace request_data)
                                     crlf))) [32]) <> 3%nat ->
  process_http_request unicode_upper unicode_lower urlparse http_client
                       request_data
  = (create_error_response 400
       (text "Bad Request - Invalid request line: "
        ++ strip (hd [] (split (utf8_decode_replace request_data) crlf))),
     []).
Proof.
  intros Hne Hparts.
  pose proof (first_line_clean request_data) as Hclean.
  unfold process_http_request, process_http_request_body. cbv zeta.
  destruct (split (utf8_decode_replace request_data) crlf) as [|line0 rest]
    eqn:El.
  { exfalso. revert El. apply split_from_not_nil. }
  cbn [hd] in Hne, Hparts, Hclean |- *.
  destruct (strip line0) as [|c rl] eqn:Es; [contradiction|].
  destruct (split (c :: rl) [32]) as [|method [|url [|version [|x parts]]]];
    try (apply error_response_returned; apply clean_app;
         [apply clean_text|exact Hclean]).
  exfalso. apply Hparts. reflexivity.
Qed.

Lemma refused_origin_form (request_data : bytes) (method url version : str) :
  split (strip (hd [] (split (utf8_decode_replace request_data) crlf))) [32]
  = [method; url; version] ->
  upper unicode_upper method <> text "CONNECT" ->
  startswith url (text "/") = true ->
  process_http_request unicode_upper unicode_lower urlparse http_client
                       request_data
  = (create_error_response 400
       (text "Bad Request - This is a proxy server. Configure your browser to use http://localhost:8080 as HTTP/HTTPS proxy, or use curl -x http://localhost:8080 <URL>"),
     []).
Proof.
  intros Hparts Hm Hurl.
  unfold process_http_request, process_http_request_body. cbv zeta.
  destruct (split (utf8_decode_replace request_data) crlf) as [|line0 rest]
    eqn:El.
  { exfalso. revert El. apply split_from_not_nil. }
  cbn [hd] in Hparts.
  destruct (strip line0) as [|c rl] eqn:Es; [discriminate|].
  rewrite Hparts.
  destruct (str_eqb (upper unicode_upper method) (text "CONNECT")) eqn:Em.
  { apply str_eqb_eq in Em. contradiction. }
  assert (Hh : startswith url (text "http://") = false
               /\ startswith url (text "https://") = false).
  { destruct url as [|u url]; [discriminate|].
    cbn in Hurl. apply andb_prop in Hurl as [Hu _].
    apply Z.eqb_eq in Hu. subst u. split; reflexivity. }
  destruct Hh as [-> ->]. rewrite Hurl. cbn [negb andb].
  apply error_response_returned. apply clean_text.
Qed.

End Refusals.

(** X16 -- requests the offshore server refuses without contacting any
    origin. A payload whose first line is blank (the empty payload
    included) is answered 400 [Empty request line]; a request line that
    does not split on single spaces into exactly three parts, 400
    [Invalid request line]; and a target in origin form, beginning with
    a slash, 400 with the hint that this is a proxy server. *)
Theorem refused_without_origin_call
        (unicode_upper unicode_lower : Z -> str)
        (urlparse : str -> pyres ParseResult)
        (http_client : origin_call -> pyres HTTPResponse)
        (request_data : bytes) :
  let request_line :=
    strip (hd [] (split (utf8_decode_replace request_data) crlf)) in
  (request_line = [] ->
   process_http_request unicode_upper unicode_lower urlparse http_client
                        request_data
   = (create_error_response 400 (text "Bad Request - Empty request line"),
      []))
  /\ (request_line <> [] ->
      length (split request_line [32]) <> 3%nat ->
      process_http_request unicode_upper unicode_lower urlparse http_client
                           request_data
      = (create_error_response 400
           (text "Bad Request - Invalid request line: " ++ request_line),
         []))
  /\ (forall method url version,
         split request_line [32] = [method; url; version] ->
         upper unicode_upper method <> text "CONNECT" ->
         startswith url (text "/") = true ->
         process_http_request unicode_upper unicode_lower urlparse
                              http_client request_data
         = (create_error_response 400
              (text "Bad Request - This is a proxy server. Configure your browser to use http://localhost:8080 as HTTP/HTTPS proxy, or use curl -x http://localhost:8080 <URL>"),
            [])).
Proof.
  cbv zeta. split; [|split].
  - apply refused_blank_line.
  - apply refused_parts.
  - apply refused_origin_form.
Qed.

Lemma refused_without_origin_call_witness :
  process_http_request no_case_change no_case_change urlparse_x_y origin_ok
                       []
  = (create_error_response 400 (text "Bad Request - Empty request line"), [])
  /\ process_http_request no_case_change no_case_change urlparse_x_y
                          origin_ok get_with_two_spaces
     = (create_error_response 400
          (text "Bad Request - Invalid request line: "
           ++ text "GET  http://x/ HTTP/1.1"),
        []).
Proof.
  split.
  - apply (proj1 (refused_without_origin_call
                    no_case_change no_case_change urlparse_x_y origin_ok [])).
    reflexivity.
  - apply (proj1 (proj2 (refused_without_origin_call
                           no_case_change no_case_change urlparse_x_y
                           origin_ok get_with_two_spaces))).
    + vm_compute. discriminate.
    + vm_compute. discriminate.
Defined.

(** ** server/server.py: the length an error response announces *)

Section ErrorResponseLength.

Lemma extra_bytes_app (a b : str) :
  extra_bytes (a ++ b) = extra_bytes a + extra_bytes b.
Proof.
  unfold extra_bytes. rewrite utf8_bytes_app, !len_app. lia.
Qed.

Lemma extra_bytes_one (c : Z) (s : str) :
  0 <= c < 128 -> extra_bytes (c :: s) = extra_bytes s.
Proof.
  intros H. unfold extra_bytes, utf8_bytes. cbn [flat_map].
  unfold encode_cp.
  replace (c <? 0) with false by (symmetry; apply Z.ltb_ge; lia).
  replace (c <? 128) with true by (symmetry; apply Z.ltb_lt; lia).
  unfold len. cbn [app length]. lia.
Qed.

Lemma extra_bytes_ascii (s : str) :
  Forall (fun c => 0 <= c < 128) s -> extra_bytes s = 0.
Proof.
  induction s as [|c s IH]; intros H; [reflexivity|].
  inversion H as [|? ? Hc Hs]; subst.
  rewrite (extra_bytes_one c s Hc). apply IH. exact Hs.
Qed.

Lemma extra_bytes_nonneg (s : str) : clean s -> 0 <= extra_bytes s.
Proof.
  induction s as [|c s IH]; intros H; [unfold extra_bytes; simpl; lia|].
  inversion H as [|? ? Hc Hs]; subst. specialize (IH Hs).
  change (c :: s) with ([c] ++ s). rewrite extra_bytes_app.
  assert (H1 : 0 <= extra_bytes [c]); [|lia].
  unfold extra_bytes, utf8_bytes. cbn [flat_map].
  destruct (encode_cp c) as [bs|] eqn:E; [|contradiction].
  rewrite app_nil_r.
  destruct (encode_cp_bytes c bs E) as [[_ ->]|(_ & Hne & _)].
  - unfold len. simpl. lia.
  - destruct bs; [contradiction|]. unfold len. simpl length. lia.
Qed.

Lemma ascii_string_of_uint (d : Decimal.uint) :
  Forall (fun c => 0 <= c < 128)
         (text (DecimalString.NilEmpty.string_of_uint d)).
Proof.
  induction d; cbn; constructor; try lia; assumption.
Qed.

(** [str(n)] is made of digits and a sign. *)
Lemma ascii_str_of_int (n : Z) : Forall (fun c => 0 <= c < 128) (str_of_int n).
Proof.
  unfold str_of_int.
  assert (Hu : forall d,
             Forall (fun c => 0 <= c < 128)
                    (text (DecimalString.NilZero.string_of_uint d))).
  { intros d. destruct d; try apply (ascii_string_of_uint _).
    cbn. constructor; [lia|constructor]. }
  destruct (Z.to_int n) as [d|d]; cbn [DecimalString.NilZero.string_of_int].
  - apply Hu.
  - change (text (String "-" (DecimalString.NilZero.string_of_uint d)))
      with (45 :: text (DecimalString.NilZero.string_of_uint d)).
    constructor; [lia|apply Hu].
Qed.

Lemma extra_bytes_str_of_int (n : Z) : extra_bytes (str_of_int n) = 0.
Proof. apply extra_bytes_ascii, ascii_str_of_int. Qed.

End ErrorResponseLength.

Ltac literal_extra_bytes :=
  repeat match goal with
    | |- context [extra_bytes (text ?s)] =>
        let v := eval vm_compute in (extra_bytes (text s)) in
        change (extra_bytes (text s)) with v
    | |- context [extra_bytes [10]] =>
        change (extra_bytes [10]) with 0
    end.

(** X17 -- the [Content-Length] of a synthetic error response counts the
    characters of the page, not its bytes. The response is the four header
    lines, an empty line and the page; the length it announces falls short
    of the page's length in bytes by twice the bytes the reason takes in
    UTF-8 beyond one for each character (the reason stands in the page
    twice), and is exact when the reason is ASCII. *)
Theorem error_response_content_length (status_code : Z) (reason : str) :
  clean reason ->
  exists page : bytes,
    create_error_response status_code reason
    = Ret (utf8_bytes
             (text "HTTP/1.1 " ++ str_of_int status_code ++ text " "
              ++ reason ++ crlf
              ++ text "Content-Type: text/html" ++ crlf
              ++ text "Content-Length: "
              ++ str_of_int (len page - 2 * extra_bytes reason) ++ crlf
              ++ text "Connection: close" ++ crlf ++ crlf)
           ++ page)
    /\ 0 <= extra_bytes reason
    /\ (Forall (fun c => 0 <= c < 128) reason -> extra_bytes reason = 0).
Proof.
  intros Hclean. unfold create_error_response. cbv zeta.
  match goal with
  | |- context [str_of_int (len ?b)] => set (error_body := b)
  end.
  assert (Hbody : clean error_body).
  { unfold error_body. solve_clean. }
  assert (Hextra : extra_bytes error_body = 2 * extra_bytes reason).
  { unfold error_body. rewrite !extra_bytes_app, !extra_bytes_str_of_int.
    literal_extra_bytes. lia. }
  exists (utf8_bytes error_body).
  split; [|split; [apply extra_bytes_nonneg; exact Hclean
                  |apply extra_bytes_ascii]].
  replace (len (utf8_bytes error_body) - 2 * extra_bytes reason)
    with (len error_body)
    by (rewrite <- Hextra; unfold extra_bytes; lia).
  rewrite utf8_encode_clean by solve_clean.
  rewrite <- utf8_bytes_app. rewrite <- !app_assoc. reflexivity.
Qed.

Lemma error_response_content_length_witness :
  exists page : bytes,
    create_error_response 400 [65533]
    = Ret (utf8_bytes
             (text "HTTP/1.1 " ++ str_of_int 400 ++ text " "
              ++ [65533] ++ crlf
              ++ text "Content-Type: text/html" ++ crlf
              ++ text "Content-Length: "
              ++ str_of_int (len page - 2 * extra_bytes [65533]) ++ crlf
              ++ text "Connection: close" ++ crlf ++ crlf)
           ++ page)
    /\ 0 <= extra_bytes [65533]
    /\ (Forall (fun c => 0 <= c < 128) [65533] -> extra_bytes [65533] = 0).
Proof.
  apply (error_response_content_length 400 [65533]).
  constructor; [vm_compute; discriminate|constructor].
Defined.

(** The reason U+FFFD takes three bytes: the page is four bytes longer than
    announced. *)
Example error_response_length_sample :
  exists response,
    create_error_response 400 [65533] = Ret response
    /\ firstn 19 (skipn 43 response) = lit "Content-Length: 192"
    /\ len (after_first_crlf_crlf response) = 196.
Proof.
  eexists. split; [vm_compute; reflexivity|].
  split; vm_compute; reflexivity.
Qed.

(** ** The ship and the offshore server together *)

Section EndToEnd.

Variable unicode_upper unicode_lower : Z -> str.
Variable urlparse : str -> pyres ParseResult.
Variable http_client : origin_call -> pyres HTTPResponse.

(** The worker on a link on which the answers arrive. *)
Lemma worker_on_answering_link (queue : list request_item) :
  forall (responses : list bytes) (self : ShipProxyClient) (sock : socket)
         (more : bytes),
    offshore_socket self = Some sock ->
    outbox sock = [] ->
    length responses = length queue ->
    Forall (fun it => len (request_data it) < 2 ^ 32) queue ->
    Forall (fun r => len r < 2 ^ 32) responses ->
    pending (inbox sock)
    = concat (map (frame_bytes MSG_RESPONSE) responses) ++ more ->
    exists sock',
      offshore_socket (fst (process_requests self queue)) = Some sock'
      /\ sent sock'
         = sent sock
           ++ concat (map (fun it => frame_bytes MSG_REQUEST (request_data it))
                          queue)
      /\ snd (process_requests self queue) = map delivered responses.
Proof.
  induction queue as [|it q IH];
    intros responses self sock more Hs Ho Hlen Hq Hr Hp.
  - destruct responses; [|discriminate]. exists sock. simpl in *.
    rewrite !app_nil_r. auto.
  - destruct responses as [|r rs]; [discriminate|].
    inversion Hq as [|? ? Hit Hq']; subst.
    inversion Hr as [|? ? Hr1 Hr']; subst.
    destruct (frame_ok MSG_REQUEST (request_data it)) as [data Hdata];
      [unfold MSG_REQUEST; lia|exact Hit|].
    destruct (frame_ok MSG_RESPONSE r) as [rdata Hrdata];
      [unfold MSG_RESPONSE; lia|exact Hr1|].
    assert (Hsend : send_message sock MSG_REQUEST (request_data it)
                    = (true, mk_socket (inbox sock) [] (sent sock ++ data))).
    { rewrite (send_message_ok sock _ _ data Hdata); rewrite Ho; reflexivity. }
    set (sock1 := mk_socket (inbox sock) [] (sent sock ++ data)) in *.
    destruct (frame_shape _ _ _ Hrdata) as (_ & b3 & b2 & b1 & b0 & -> & Hu).
    assert (Hp1 : pending (inbox sock1)
                  = [b3; b2; b1; b0; byte_of_Z MSG_RESPONSE] ++ r
                    ++ (concat (map (frame_bytes MSG_RESPONSE) rs) ++ more)).
    { simpl inbox. rewrite Hp. simpl map. simpl concat.
      unfold frame_bytes at 1. rewrite Hrdata. rewrite <- !app_assoc.
      reflexivity. }
    destruct (read_message_frame sock1 _ _ _ _ _ _ _ Hp1 Hu)
      as (Hread & Hpend & _).
    destruct (read_message_keeps_output sock1) as [Ho2 Hs2].
    rewrite Z_of_byte_of_Z in Hread.
    change (MSG_RESPONSE mod 256) with MSG_RESPONSE in Hread.
    set (sock2 := snd (read_message sock1)) in *.
    assert (Hitem : process_item self it
                    = (mk_client (Some sock2) (reconnect_attempts self)
                                 (max_reconnect_attempts self) (network self)
                                 (trace self ++ [EvSend (request_data it) true;
                                                 EvRead (Some MSG_RESPONSE, Some r)])
                                 (closed self),
                       delivered r)).
    { rewrite (process_item_write_ok self it sock Hs);
        rewrite Hsend; [|reflexivity].
      simpl snd.
      pose proof (await_response_connected
                    (mk_client (Some sock1) (reconnect_attempts self)
                               (max_reconnect_attempts self) (network self)
                               (trace self ++ [EvSend (request_data it) true])
                               (closed self)) sock1 eq_refl) as [Hacc _].
      simpl in Hacc. rewrite (Hacc r Hread). rewrite Hread.
      rewrite <- app_assoc. reflexivity. }
    rewrite process_requests_cons. rewrite Hitem. simpl fst. simpl snd.
    specialize (IH rs (mk_client (Some sock2) (reconnect_attempts self)
                                 (max_reconnect_attempts self) (network self)
                                 (trace self ++ [EvSend (request_data it) true;
                                                 EvRead (Some MSG_RESPONSE, Some r)])
                                 (closed self))
                   sock2 more eq_refl).
    destruct IH as (sock' & H1 & H2 & H3);
      [exact Ho2|simpl in Hlen; lia|exact Hq'|exact Hr'|exact Hpend|].
    exists sock'. simpl map. simpl concat.
    rewrite H1, H2, H3.
    rewrite Hs2. simpl sent. unfold frame_bytes at 2. rewrite Hdata.
    rewrite <- !app_assoc. auto.
Qed.

(** The response the offshore server gives to an item's request. *)
Local Abbreviation response_to it :=
  (match fst (process_http_request unicode_upper unicode_lower urlparse
                                   http_client (request_data it)) with
   | Ret response => response
   | Raise _ => []
   end).

Lemma ship_and_offshore (queue : list request_item) (self : ShipProxyClient)
      (sock ship_socket : socket) (turns : nat) :
  offshore_socket self = Some sock ->
  outbox sock = [] ->
  outbox ship_socket = [] ->
  sent ship_socket = [] ->
  Forall (fun it =>
            len (request_data it) < 2 ^ 32
            /\ exists r,
                 fst (process_http_request unicode_upper unicode_lower
                                           urlparse http_client
                                           (request_data it)) = Ret r
                 /\ len r < 2 ^ 32)
         queue ->
  (length queue < turns)%nat ->
  pending (inbox ship_socket)
  = concat (map (fun it => frame_bytes MSG_REQUEST (request_data it)) queue) ->
  pending (inbox sock)
  = sent (fst (handle_ship_connection unicode_upper unicode_lower urlparse
                                      http_client turns ship_socket)) ->
  snd (process_requests self queue)
  = map (fun it => delivered (response_to it)) queue
  /\ exists sock',
       offshore_socket (fst (process_requests self queue)) = Some sock'
       /\ sent sock' = sent sock ++ pending (inbox ship_socket).
Proof.
  intros Hs Ho Hso Hss Hq Hturns Hreq Hresp.
  set (frames := map (fun it => (MSG_REQUEST, request_data it)) queue).
  destruct (serve_frames unicode_upper unicode_lower urlparse http_client
                         frames ship_socket [] turns) as [Hsent _].
  - exact Hso.
  - rewrite app_nil_r, Hreq. unfold frames. rewrite map_map. reflexivity.
  - unfold len. simpl. lia.
  - unfold frames. apply Forall_map. eapply Forall_impl; [|exact Hq].
    intros it [Hlen _]. cbn [fst snd]. split; [unfold MSG_REQUEST; lia|exact Hlen].
  - unfold frames. apply Forall_map. eapply Forall_impl; [|exact Hq].
    intros it [_ Hr] _. exact Hr.
  - unfold frames. rewrite length_map. exact Hturns.
  - rewrite Hss in Hsent. cbn [app] in Hsent.
    unfold frames in Hsent. rewrite map_map in Hsent. cbn [fst snd] in Hsent.
    assert (Hanswers :
              pending (inbox sock)
              = concat (map (frame_bytes MSG_RESPONSE)
                            (map (fun it => response_to it) queue)) ++ []).
    { rewrite Hresp, Hsent, app_nil_r, map_map.
      f_equal. apply map_ext_in. intros it Hin.
      change (MSG_REQUEST =? MSG_REQUEST) with true. cbv iota.
      destruct (fst (process_http_request unicode_upper unicode_lower urlparse
                                          http_client (request_data it)))
        as [r|e] eqn:E; [reflexivity|].
      rewrite Forall_forall in Hq. destruct (Hq it Hin) as (_ & r & Hr & _).
      rewrite E in Hr. discriminate. }
    destruct (worker_on_answering_link
                queue (map (fun it => response_to it) queue) self sock []
                Hs Ho) as (sock' & H1 & H2 & H3).
    + rewrite length_map. reflexivity.
    + eapply Forall_impl; [|exact Hq]. intros it [Hlen _]. exact Hlen.
    + apply Forall_map. eapply Forall_impl; [|exact Hq].
      intros it (_ & r & Hr & Hlen). rewrite Hr. exact Hlen.
    + exact Hanswers.
    + split; [rewrite H3, map_map; reflexivity|].
      exists sock'. split; [exact H1|]. rewrite H2, Hreq. reflexivity.
Qed.

End EndToEnd.

(** X18 -- the two ends together. When the offshore server reads the
    request frames the worker writes for the items of the queue, and the
    worker reads what the offshore server writes in answer, every item is
    completed with the response [process_http_request] gives to its own
    request, in queue order: requests and responses are paired by position
    alone across the two programs. *)
Theorem ship_and_offshore_pair_by_position
        (unicode_upper unicode_lower : Z -> str)
        (urlparse : str -> pyres ParseResult)
        (http_client : origin_call -> pyres HTTPResponse)
        (queue : list request_item) (self : ShipProxyClient)
        (sock ship_socket : socket) (turns : nat) :
  offshore_socket self = Some sock ->
  outbox sock = [] ->
  outbox ship_socket = [] ->
  sent ship_socket = [] ->
  Forall (fun it =>
            len (request_data it) < 2 ^ 32
            /\ exists r,
                 fst (process_http_request unicode_upper unicode_lower
                                           urlparse http_client
                                           (request_data it)) = Ret r
                 /\ len r < 2 ^ 32)
         queue ->
  (length queue < turns)%nat ->
  pending (inbox ship_socket)
  = concat (map (fun it => frame_bytes MSG_REQUEST (request_data it)) queue) ->
  pending (inbox sock)
  = sent (fst (handle_ship_connection unicode_upper unicode_lower urlparse
                                      http_client turns ship_socket)) ->
  snd (process_requests self queue)
  = map (fun it =>
           delivered
             match fst (process_http_request unicode_upper unicode_lower
                                             urlparse http_client
                                             (request_data it)) with
             | Ret response => response
             | Raise _ => []
             end)
        queue
  /\ exists sock',
       offshore_socket (fst (process_requests self queue)) = Some sock'
       /\ sent sock' = sent sock ++ pending (inbox ship_socket).
Proof.
  intros Hs Ho Hso Hss Hq Hturns Hreq Hresp.
  exact (ship_and_offshore unicode_upper unicode_lower urlparse http_client
           queue self sock ship_socket turns
           Hs Ho Hso Hss Hq Hturns Hreq Hresp).
Qed.

Lemma ship_and_offshore_pair_by_position_witness :
  snd (process_requests (mk_client (Some ship_reads_two_answers) 0 5 [] [] [])
                        [connect_item; connect_item])
  = map (fun it =>
           delivered
             match fst (process_http_request no_case_change no_case_change
                                             urlparse_x_y origin_ok
                                             (request_data it)) with
             | Ret response => response
             | Raise _ => []
             end)
        [connect_item; connect_item]
  /\ exists sock',
       offshore_socket
         (fst (process_requests
                 (mk_client (Some ship_reads_two_answers) 0 5 [] [] [])
                 [connect_item; connect_item]))
       = Some sock'
       /\ sent sock'
          = sent ship_reads_two_answers
            ++ pending (inbox offshore_reads_two_connects).
Proof.
  apply (ship_and_offshore_pair_by_position
           no_case_change no_case_change urlparse_x_y origin_ok
           [connect_item; connect_item]
           (mk_client (Some ship_reads_two_answers) 0 5 [] [] [])
           ship_reads_two_answers offshore_reads_two_connects 3%nat).
  - reflexivity.
  - reflexivity.
  - reflexivity.
  - reflexivity.
  - assert (H : len (request_data connect_item) < 2 ^ 32
                /\ exists r,
                     fst (process_http_request
                            no_case_change no_case_change urlparse_x_y
                            origin_ok (request_data connect_item)) = Ret r
                     /\ len r < 2 ^ 32).
    { split; [vm_compute; reflexivity|].
      exists (lit "HTTP/1.1 200 Connection Established"
              ++ [x0d; x0a; x0d; x0a]).
      split; vm_compute; reflexivity. }
    constructor; [exact H|constructor; [exact H|constructor]].
  - vm_compute. lia.
  - vm_compute. reflexivity.
  - vm_compute. reflexivity.
Defined.

(** ** client/client.py: one turn of the worker, from whatever state *)

Section WorkerTurn.

Lemma count_app (f : event -> bool) (a b : list event) :
  count f (a ++ b) = (count f a + count f b)%nat.
Proof. unfold count. rewrite filter_app, length_app. reflexivity. Qed.

Lemma connect_to_offshore_max (self : ShipProxyClient) :
  0 < max_reconnect_attempts self ->
  max_reconnect_attempts (snd (connect_to_offshore self))
  = max_reconnect_attempts self.
Proof.
  intros Hmax.
  destruct (connect_attempts_spec (Z.to_nat (max_reconnect_attempts self)) 0 self)
    as (k & _ & _ & _ & _ & Hm & _); [lia|simpl; lia|].
  exact Hm.
Qed.

(** The state a turn writes from: the client as it is when it holds a
    socket, and as the first [connect_to_offshore] leaves it when it does
    not. *)
Lemma process_item_linked (self : ShipProxyClient) (item : request_item)
      (sock : socket) :
  0 < max_reconnect_attempts self ->
  let linked :=
    match offshore_socket self with
    | Some _ => self
    | None => snd (connect_to_offshore self)
    end in
  offshore_socket linked = Some sock ->
  process_item self item = process_item linked item
  /\ max_reconnect_attempts linked = max_reconnect_attempts self
  /\ exists tl,
       trace linked = trace self ++ tl
       /\ count is_send tl = 0%nat /\ count is_read tl = 0%nat.
Proof.
  intros Hmax linked Hs. subst linked.
  destruct (offshore_socket self) as [s|] eqn:Hself.
  - split; [reflexivity|]. split; [reflexivity|].
    exists []. rewrite app_nil_r. repeat split.
  - destruct (connect_to_offshore_result self Hmax) as (_ & Hnone & _).
    destruct (fst (connect_to_offshore self)) eqn:Hc.
    + split.
      * apply process_item_after_connect; [exact Hself| |eauto].
        rewrite <- Hc. destruct (connect_to_offshore self); reflexivity.
      * split; [apply connect_to_offshore_max; exact Hmax|].
        destruct (connect_to_offshore_no_send self Hmax)
          as (tl & Htl & Hsend & Hread & _).
        exists tl. auto.
    + rewrite (Hnone eq_refl) in Hs. discriminate.
Qed.

(** The events of a turn, from those of the state it writes from. *)
Lemma turn_events (self linked out : ShipProxyClient) (tl x : list event) :
  trace linked = trace self ++ tl ->
  trace out = trace linked ++ x ->
  skipn (length (trace self)) (trace out) = tl ++ x.
Proof.
  intros Hl Ho. rewrite Ho, Hl, <- app_assoc. apply skipn_app_exact.
Qed.

(** The frame read after a write that succeeded on the socket [holder]
    holds. *)
Lemma await_response_after_write (holder : ShipProxyClient) (sock : socket)
      (payload : bytes) :
  offshore_socket holder = Some sock ->
  fst (send_message sock MSG_REQUEST payload) = true ->
  let sock1 := snd (send_message sock MSG_REQUEST payload) in
  let r := fst (read_message sock1) in
  let sock2 := snd (read_message sock1) in
  let tr := trace holder ++ [EvSend payload true; EvRead r] in
  let out := await_response (snd (send_request holder payload)) in
  fst (send_request holder payload) = true
  /\ (forall p, r = (Some MSG_RESPONSE, Some p) ->
      out = (mk_client (Some sock2) (reconnect_attempts holder)
                       (max_reconnect_attempts holder) (network holder) tr
                       (closed holder),
             delivered p))
  /\ ((forall p, r <> (Some MSG_RESPONSE, Some p)) ->
      out = (mk_client None (reconnect_attempts holder)
                       (max_reconnect_attempts holder) (network holder)
                       (tr ++ [EvClose]) (closed holder ++ [sock2]),
             failed "Invalid response from offshore proxy"))
  /\ exists tl,
       trace (fst out) = tr ++ tl /\ (tl = [] \/ tl = [EvClose]).
Proof.
  intros Hs Hok sock1 r sock2 tr out. subst out.
  rewrite (send_request_connected holder sock payload Hs), Hok.
  cbn [fst snd]. fold sock1.
  pose proof (await_response_connected
                (mk_client (Some sock1) (reconnect_attempts holder)
                           (max_reconnect_attempts holder) (network holder)
                           (trace holder ++ [EvSend payload true])
                           (closed holder)) sock1 eq_refl) as [Hacc Hrej].
  simpl in Hacc, Hrej. fold r in Hacc, Hrej. fold sock2 in Hacc, Hrej.
  rewrite <- !app_assoc in Hacc, Hrej. simpl in Hacc, Hrej.
  assert (Hcases : (exists p, r = (Some MSG_RESPONSE, Some p))
                   \/ (forall p, r <> (Some MSG_RESPONSE, Some p))).
  { destruct r as [[t|] [p|]]; try (right; intros q; discriminate).
    destruct (Z.eq_dec t MSG_RESPONSE) as [->|Ht].
    - left. exists p. reflexivity.
    - right. intros q E. apply Ht. congruence. }
  split; [reflexivity|]. split; [|split].
  - intros p Hr. apply Hacc. exact Hr.
  - intros Hr. unfold tr. rewrite <- app_assoc. simpl. apply Hrej. exact Hr.
  - destruct Hcases as [[p Hr]|Hr].
    + exists []. rewrite (Hacc p Hr). cbn [fst trace].
      rewrite app_nil_r. split; [reflexivity|left; reflexivity].
    + exists [EvClose]. rewrite (Hrej Hr). cbn [fst trace].
      unfold tr. rewrite <- app_assoc. split; [reflexivity|right; reflexivity].
Qed.

End WorkerTurn.

(** C5 -- a REQUEST write that fails, for every submission: whether the
    worker held a socket when it took the item or had to dial first, when
    the write on the link fails the link is invalidated (the socket is
    closed and cleared), [connect_to_offshore] is called once, and the
    write is tried once more on the new link: two writes in all, and none
    after them. When the reconnection fails, or the second write fails, the
    submission is completed with a send-failure error, without any read,
    and the worker goes on with the next item of the queue. *)
Theorem write_failure_retried_once (self : ShipProxyClient)
        (item : request_item) (sock : socket) :
  0 < max_reconnect_attempts self ->
  let payload := request_data item in
  let linked :=
    match offshore_socket self with
    | Some _ => self
    | None => snd (connect_to_offshore self)
    end in
  offshore_socket linked = Some sock ->
  fst (send_message sock MSG_REQUEST payload) = false ->
  let sock1 := snd (send_message sock MSG_REQUEST payload) in
  let torn :=
    mk_client None (reconnect_attempts linked) (max_reconnect_attempts linked)
              (network linked)
              (trace linked ++ [EvSend payload false; EvClose])
              (closed linked ++ [sock1]) in
  let re := connect_to_offshore torn in
  let retry := send_request (snd re) payload in
  let out := process_item self item in
  let done := skipn (length (trace self)) (trace (fst out)) in
  (fst re = false ->
   out = (snd re, failed "Lost connection to offshore proxy")
   /\ count is_send done = 1%nat /\ count is_read done = 0%nat)
  /\ (fst re = true -> fst retry = false ->
      out = (snd retry, failed "Failed to send request after reconnection")
      /\ count is_send done = 2%nat /\ count is_read done = 0%nat)
  /\ (fst re = true -> fst retry = true ->
      out = await_response (snd retry)
      /\ count is_send done = 2%nat)
  /\ (fst re = true ->
      trace (snd retry) = trace (snd re) ++ [EvSend payload (fst retry)])
  /\ (exists ok tl,
         trace (fst out)
         = trace linked ++ EvSend payload false :: EvClose :: EvDial ok :: tl)
  /\ (exists more, closed (fst out) = closed linked ++ sock1 :: more)
  /\ event_set (snd out) = 1%nat
  /\ task_done (snd out) = 1%nat
  /\ (forall rest,
         process_requests self (item :: rest)
         = (fst (process_requests (fst out) rest),
            snd out :: snd (process_requests (fst out) rest))).
Proof.
  intros Hmax payload linked Hs Hfail sock1 torn re retry out done.
  destruct (process_item_linked self item sock Hmax Hs)
    as (Hsame & Hmax' & tl & Htl & Hsend & Hread).
  fold linked in Hsame, Hmax', Htl.
  assert (Hlmax : 0 < max_reconnect_attempts linked) by (rewrite Hmax'; exact Hmax).
  pose proof (write_failure_on_held_link linked item sock Hs Hlmax Hfail)
    as (H1 & H2 & H3 & H4 & H5 & H6 & _).
  cbv zeta in H1, H2, H3, H4, H5, H6.
  fold payload in H1, H2, H3, H4. fold sock1 in H1, H2, H3, H4.
  fold torn in H1, H2, H3, H4. fold re in H1, H2, H3, H4.
  fold retry in H1, H2, H3, H4.
  rewrite <- Hsame in H1, H2, H3, H5, H6. fold out in H1, H2, H3, H5, H6.
  destruct (process_item_extends linked item) as [x Hx].
  rewrite <- Hsame in Hx. fold out in Hx.
  assert (Hdone : done = tl ++ x) by (apply (turn_events self linked); assumption).
  assert (Hold : skipn (length (trace linked)) (trace (fst out)) = x)
    by (rewrite Hx; apply skipn_app_exact).
  rewrite Hold in H1, H2, H3.
  assert (Hs_done : count is_send done = count is_send x)
    by (rewrite Hdone, count_app, Hsend; reflexivity).
  assert (Hr_done : count is_read done = count is_read x)
    by (rewrite Hdone, count_app, Hread; reflexivity).
  rewrite Hs_done, Hr_done.
  (* the reconnection starts with a dial, after the close *)
  destruct (connect_to_offshore_no_send torn Hlmax)
    as (tl_re & Htl_re & _ & _ & ok & tl_re' & Hdial).
  fold re in Htl_re.
  destruct (connect_to_offshore_result torn Hlmax) as (_ & _ & Hclosed).
  fold re in Hclosed.
  assert (Hre_tr : trace (snd re)
                   = trace linked ++ EvSend payload false :: EvClose
                                  :: EvDial ok :: tl_re').
  { rewrite Htl_re, Hdial. cbn [trace torn]. rewrite <- app_assoc.
    reflexivity. }
  assert (Hre_cl : closed (snd re) = closed linked ++ [sock1]) by exact Hclosed.
  assert (Hretry_cl : fst re = true -> closed (snd retry) = closed (snd re)
                                       /\ trace (snd retry)
                                          = trace (snd re)
                                            ++ [EvSend payload (fst retry)]).
  { intros Ht. split; [|exact (H4 Ht)].
    destruct (connect_to_offshore_result torn Hlmax) as (Hsome & _).
    fold re in Hsome. destruct (Hsome Ht) as [s2 Hs2].
    unfold retry. rewrite (send_request_connected (snd re) s2 payload Hs2).
    reflexivity. }
  split; [exact H1|]. split; [exact H2|]. split; [exact H3|].
  split; [exact H4|].
  split; [|split; [|split; [exact H5|split; [exact H6|]]]].
  - destruct (fst re) eqn:Ere.
    + destruct (Hretry_cl eq_refl) as [_ Hrt].
      destruct (fst retry) eqn:Ert.
      * destruct (H3 eq_refl eq_refl) as [Ho _].
        destruct (await_response_grows (snd retry)) as [y Hy].
        rewrite Ho, Hy, Hrt, Hre_tr. rewrite <- !app_assoc. cbn [app].
        do 2 eexists; reflexivity.
      * destruct (H2 eq_refl eq_refl) as [Ho _].
        rewrite Ho. cbn [fst]. rewrite Hrt, Hre_tr.
        rewrite <- !app_assoc. cbn [app]. do 2 eexists; reflexivity.
    + destruct (H1 eq_refl) as [Ho _]. rewrite Ho. cbn [fst].
      rewrite Hre_tr. do 2 eexists; reflexivity.
  - destruct (fst re) eqn:Ere.
    + destruct (Hretry_cl eq_refl) as [Hrc _].
      destruct (fst retry) eqn:Ert.
      * destruct (H3 eq_refl eq_refl) as [Ho _]. rewrite Ho.
        unfold await_response, read_response.
        destruct (offshore_socket (snd retry)) as [s3|] eqn:Es3.
        -- destruct (read_message s3) as [[mt pl] s4].
           destruct mt as [t|]; destruct pl as [p|];
             try (client_simpl; rewrite Hrc, Hre_cl, <- app_assoc;
                  eexists; reflexivity).
           destruct (t =? MSG_RESPONSE).
           ++ client_simpl. rewrite Hrc, Hre_cl. exists []. reflexivity.
           ++ client_simpl. rewrite Hrc, Hre_cl, <- app_assoc.
              eexists; reflexivity.
        -- client_simpl. rewrite Es3. client_simpl. rewrite Hrc, Hre_cl.
           exists []. reflexivity.
      * destruct (H2 eq_refl eq_refl) as [Ho _]. rewrite Ho. cbn [fst].
        rewrite Hrc, Hre_cl. exists []. reflexivity.
    + destruct (H1 eq_refl) as [Ho _]. rewrite Ho. cbn [fst].
      rewrite Hre_cl. exists []. reflexivity.
  - intros rest. apply process_requests_cons.
Qed.

Lemma write_failure_retried_once_witness :
  (process_item client_dialling_bad_links get_item
   = (snd (send_request
             (snd (connect_to_offshore
                     (mk_client None 0 5
                                [Some (mk_socket [] [SendRaise 0 broken_pipe] [])]
                                ([EvDial true]
                                 ++ [EvSend (request_data get_item) false;
                                     EvClose])
                                ([] ++ [mk_socket [] [] [x00; x00]]))))
             (request_data get_item)),
      failed "Failed to send request after reconnection")
   /\ count is_send
            (skipn (length (trace client_dialling_bad_links))
                   (trace (fst (process_item client_dialling_bad_links
                                             get_item))))
      = 2%nat
   /\ count is_read
            (skipn (length (trace client_dialling_bad_links))
                   (trace (fst (process_item client_dialling_bad_links
                                             get_item))))
      = 0%nat)
  /\ (process_item client_on_bad_links get_item
      = (snd (send_request
                (snd (connect_to_offshore
                        (mk_client None 0 5
                                   [Some (mk_socket [] [SendRaise 0 broken_pipe]
                                                    [])]
                                   ([] ++ [EvSend (request_data get_item) false;
                                           EvClose])
                                   ([] ++ [mk_socket [] [] [x00; x00]]))))
                (request_data get_item)),
         failed "Failed to send request after reconnection")
      /\ count is_send
               (skipn (length (trace client_on_bad_links))
                      (trace (fst (process_item client_on_bad_links get_item))))
         = 2%nat
      /\ count is_read
               (skipn (length (trace client_on_bad_links))
                      (trace (fst (process_item client_on_bad_links get_item))))
         = 0%nat).
Proof.
  split.
  - pose proof (write_failure_retried_once
                  client_dialling_bad_links get_item
                  (mk_socket [] [SendRaise 2 broken_pipe] [])
                  eq_refl eq_refl eq_refl) as (_ & H & _).
    exact (H eq_refl eq_refl).
  - pose proof (write_failure_retried_once
                  client_on_bad_links get_item
                  (mk_socket [] [SendRaise 2 broken_pipe] [])
                  eq_refl eq_refl eq_refl) as (_ & H & _).
    exact (H eq_refl eq_refl).
Defined.

(** The same turn, event by event: the dial, the write that fails, the
    close, the dial of the reconnection, the second write. *)
Example write_failure_after_dial_trace :
  trace (fst (process_item client_dialling_bad_links get_item))
  = [EvDial true; EvSend (request_data get_item) false; EvClose; EvDial true;
     EvSend (request_data get_item) false].
Proof. reflexivity. Qed.

(** C6 -- the frame after a REQUEST write that succeeded, for every
    submission and every write of a turn: the first write, on the socket
    the worker held or on the one it had to dial first, and the second
    write, on the socket of the reconnection after the first write failed.
    In each case the worker reads one frame from the socket it wrote to. A
    RESPONSE frame is delivered to the submitter and the link is kept; any
    other type, and any failed read, closes and clears the socket and
    completes the submission with the invalid-response error, with that one
    read and no other; and the next item the worker takes starts with a
    fresh dial. An item taken while no socket is held is dialled for: it
    fails with the cannot-connect error when the dial fails, and is written
    to the new socket when it succeeds. *)
Theorem response_accepted_or_link_torn_down (self : ShipProxyClient)
        (item : request_item) :
  0 < max_reconnect_attempts self ->
  let payload := request_data item in
  let linked :=
    match offshore_socket self with
    | Some _ => self
    | None => snd (connect_to_offshore self)
    end in
  let out := process_item self item in
  let done := skipn (length (trace self)) (trace (fst out)) in
  let accepted_or_torn_down := fun (holder : ShipProxyClient) (sock : socket) =>
    let sock1 := snd (send_message sock MSG_REQUEST payload) in
    let r := fst (read_message sock1) in
    let sock2 := snd (read_message sock1) in
    let tr := trace holder ++ [EvSend payload true; EvRead r] in
    (forall p, r = (Some MSG_RESPONSE, Some p) ->
       out = (mk_client (Some sock2) (reconnect_attempts holder)
                        (max_reconnect_attempts holder) (network holder) tr
                        (closed holder),
              delivered p))
    /\ ((forall p, r <> (Some MSG_RESPONSE, Some p)) ->
        out = (mk_client None (reconnect_attempts holder)
                         (max_reconnect_attempts holder) (network holder)
                         (tr ++ [EvClose]) (closed holder ++ [sock2]),
               failed "Invalid response from offshore proxy")
        /\ forall next,
             exists ok tl,
               trace (fst (process_item (fst out) next))
               = trace (fst out) ++ EvDial ok :: tl)
    /\ count is_read done = 1%nat in
  (forall sock,
      offshore_socket linked = Some sock ->
      fst (send_message sock MSG_REQUEST payload) = true ->
      accepted_or_torn_down linked sock)
  /\ (forall sock sock',
         offshore_socket linked = Some sock ->
         fst (send_message sock MSG_REQUEST payload) = false ->
         let torn :=
           mk_client None (reconnect_attempts linked)
                     (max_reconnect_attempts linked) (network linked)
                     (trace linked ++ [EvSend payload false; EvClose])
                     (closed linked
                      ++ [snd (send_message sock MSG_REQUEST payload)]) in
         let re := connect_to_offshore torn in
         fst re = true ->
         offshore_socket (snd re) = Some sock' ->
         fst (send_message sock' MSG_REQUEST payload) = true ->
         accepted_or_torn_down (snd re) sock')
  /\ (offshore_socket self = None ->
      (exists ok tl, trace (fst out) = trace self ++ EvDial ok :: tl)
      /\ (fst (connect_to_offshore self) = false ->
          out = (snd (connect_to_offshore self),
                 failed "Cannot connect to offshore proxy"))
      /\ (fst (connect_to_offshore self) = true ->
          exists s ok tl,
            offshore_socket linked = Some s
            /\ trace (fst out) = trace linked ++ EvSend payload ok :: tl)).
Proof.
  intros Hmax payload linked out done accepted_or_torn_down.
  assert (Hnext : forall holder tr cl,
             0 < max_reconnect_attempts holder ->
             forall next,
             exists ok tl,
               trace (fst (process_item
                             (mk_client None (reconnect_attempts holder)
                                        (max_reconnect_attempts holder)
                                        (network holder) tr cl) next))
               = tr ++ EvDial ok :: tl).
  { intros holder tr cl Hh next.
    exact (no_socket_starts_with_dial
             (mk_client None (reconnect_attempts holder)
                        (max_reconnect_attempts holder) (network holder) tr cl)
             next eq_refl Hh). }
  split; [|split].
  - intros sock Hs Hok. unfold accepted_or_torn_down.
    destruct (process_item_linked self item sock Hmax Hs)
      as (Hsame & Hmax' & tl & Htl & _ & Hread).
    fold linked in Hsame, Hmax', Htl. fold out in Hsame.
    destruct (await_response_after_write linked sock payload Hs Hok)
      as (Hsent & Hacc & Hrej & y & Hy & Hycases).
    assert (Hout : out = await_response (snd (send_request linked payload))).
    { rewrite Hsame. unfold process_item. rewrite Hs. cbn [negb].
      cbv iota. fold payload.
      destruct (send_request linked payload) as [ok self2].
      cbn [fst snd] in Hsent |- *. subst ok. reflexivity. }
    rewrite <- Hout in Hacc, Hrej, Hy.
    split; [exact Hacc|]. split.
    + intros Hr. specialize (Hrej Hr). split; [exact Hrej|].
      intros next. rewrite Hrej. cbn [fst trace].
      apply Hnext. rewrite Hmax'. exact Hmax.
    + unfold done. rewrite Hy, Htl, <- !app_assoc, skipn_app_exact.
      rewrite !count_app, Hread.
      destruct Hycases as [-> | ->]; reflexivity.
  - intros sock sock' Hs Hfail torn re Hre Hs' Hok'.
    unfold accepted_or_torn_down.
    destruct (process_item_linked self item sock Hmax Hs)
      as (Hsame & Hmax' & tl & Htl & _ & Hread).
    fold linked in Hsame, Hmax', Htl. fold out in Hsame.
    assert (Hlmax : 0 < max_reconnect_attempts linked)
      by (rewrite Hmax'; exact Hmax).
    pose proof (process_item_write_failed linked item sock Hs Hfail) as Hturn.
    cbv zeta in Hturn. fold payload in Hturn. fold torn in Hturn.
    fold re in Hturn. rewrite <- Hsame in Hturn.
    destruct (await_response_after_write (snd re) sock' payload Hs' Hok')
      as (Hsent & Hacc & Hrej & y & Hy & Hycases).
    rewrite Hre, Hsent in Hturn.
    rewrite <- Hturn in Hacc, Hrej, Hy.
    destruct (connect_to_offshore_no_send torn Hlmax)
      as (tl_re & Htl_re & _ & Hread_re & _).
    fold re in Htl_re.
    split; [exact Hacc|]. split.
    + intros Hr. specialize (Hrej Hr). split; [exact Hrej|].
      intros next. rewrite Hrej. cbn [fst trace].
      apply Hnext.
      pose proof (connect_to_offshore_max torn Hlmax) as Hm. fold re in Hm.
      rewrite Hm. exact Hlmax.
    + unfold done. rewrite Hy, Htl_re. cbn [trace torn].
      rewrite Htl, <- !app_assoc, skipn_app_exact.
      rewrite !count_app, Hread, Hread_re.
      destruct Hycases as [-> | ->]; reflexivity.
  - intros Hnone. split; [|split].
    + exact (no_socket_starts_with_dial self item Hnone Hmax).
    + intros Hc. apply process_item_not_connected; assumption.
    + intros Hc.
      destruct (connect_to_offshore_result self Hmax) as (Hsome & _).
      destruct (Hsome Hc) as [s Hs].
      assert (Hl : offshore_socket linked = Some s).
      { unfold linked. rewrite Hnone. exact Hs. }
      destruct (process_item_linked self item s Hmax Hl) as (Hsame & _).
      fold linked in Hsame. fold out in Hsame.
      destruct (process_item_connected_sends_first linked item s Hl)
        as (ok & tl & Htr).
      exists s, ok, tl. split; [exact Hl|]. rewrite Hsame. exact Htr.
Qed.

Lemma response_accepted_or_link_torn_down_witness :
  (process_item client_dialling_type_7_link get_item
   = (mk_client None 0 5 []
                (([EvDial true]
                  ++ [EvSend (request_data get_item) true;
                      EvRead (Some 7, Some [x41; x42])])
                 ++ [EvClose])
                ([] ++ [snd (read_message
                               (snd (send_message type_7_frame MSG_REQUEST
                                                  (request_data get_item))))]),
      failed "Invalid response from offshore proxy")
   /\ forall next,
        exists ok tl,
          trace (fst (process_item
                        (fst (process_item client_dialling_type_7_link
                                           get_item)) next))
          = trace (fst (process_item client_dialling_type_7_link get_item))
            ++ EvDial ok :: tl)
  /\ process_item client_on_answering_link get_item
     = (mk_client
          (Some (snd (read_message
                        (snd (send_message answering_link MSG_REQUEST
                                           (request_data get_item))))))
          0 5 []
          ([] ++ [EvSend (request_data get_item) true;
                  EvRead (Some MSG_RESPONSE, Some (lit "ok"))])
          [],
        delivered (lit "ok"))
  /\ process_item client_retrying_on_type_7_link get_item
     = (mk_client None 0 5 []
                  (([EvSend (request_data get_item) false; EvClose;
                     EvDial true]
                    ++ [EvSend (request_data get_item) true;
                        EvRead (Some 7, Some [x41; x42])])
                   ++ [EvClose])
                  ([mk_socket [] [] [x00; x00]]
                   ++ [snd (read_message
                              (snd (send_message type_7_frame MSG_REQUEST
                                                 (request_data get_item))))]),
        failed "Invalid response from offshore proxy").
Proof.
  split; [|split].
  - pose proof (response_accepted_or_link_torn_down
                  client_dialling_type_7_link get_item eq_refl) as (H & _).
    apply (H type_7_frame eq_refl eq_refl).
    intros p. vm_compute. discriminate.
  - pose proof (response_accepted_or_link_torn_down
                  client_on_answering_link get_item eq_refl) as (H & _).
    exact (proj1 (H answering_link eq_refl eq_refl) (lit "ok") eq_refl).
  - pose proof (response_accepted_or_link_torn_down
                  client_retrying_on_type_7_link get_item eq_refl)
      as (_ & H & _).
    apply (H (mk_socket [] [SendRaise 2 broken_pipe] []) type_7_frame
             eq_refl eq_refl eq_refl eq_refl eq_refl).
    intros p. vm_compute. discriminate.
Defined.

(** The frame after the second write is held to the same rule: the link of
    the reconnection answers with a frame of type 7 and is torn down. *)
Example retried_write_then_wrong_type :
  process_item client_retrying_on_type_7_link get_item
  = (mk_client None 0 5 []
               [EvSend (request_data get_item) false; EvClose; EvDial true;
                EvSend (request_data get_item) true;
                EvRead (Some 7, Some [x41; x42]); EvClose]
               [mk_socket [] [] [x00; x00];
                mk_socket [Seg x43 []] []
                          ([x00; x00; x00; x16; x00]
                           ++ request_data get_item)],
     failed "Invalid response from offshore proxy").
Proof. vm_compute. reflexivity. Qed.

(** ** server/server.py: what a request is answered with *)

Section Rendered.

Variable unicode_upper unicode_lower : Z -> str.
Variable urlparse : str -> pyres ParseResult.
Variable http_client : origin_call -> pyres HTTPResponse.

(** The texts the libraries hand over hold no lone surrogate. *)
Hypothesis urlparse_raise_clean :
  forall url e, urlparse url = Raise e -> clean (exn_str e).
Hypothesis hostname_clean :
  forall url parsed h,
    urlparse url = Ret parsed -> hostname parsed = Some h -> clean h.
Hypothesis port_raise_clean :
  forall url parsed e,
    urlparse url = Ret parsed -> port parsed = Raise e -> clean (exn_str e).
Hypothesis origin_raise_clean :
  forall call e, http_client call = Raise e -> clean (exn_str e).

Local Abbreviation process :=
  (process_http_request unicode_upper unicode_lower urlparse http_client).
Local Abbreviation process_body :=
  (process_http_request_body unicode_upper unicode_lower urlparse http_client).

(** The synthetic response: the status line with the code and the reason,
    three headers, an empty line and the page. *)
Lemma error_response_form (status_code : Z) (reason : str)
      (response : bytes) :
  create_error_response status_code reason = Ret response ->
  exists content_length page,
    response
    = utf8_bytes (text "HTTP/1.1 " ++ str_of_int status_code ++ text " "
                  ++ reason ++ crlf
                  ++ text "Content-Type: text/html" ++ crlf
                  ++ text "Content-Length: " ++ content_length ++ crlf
                  ++ text "Connection: close" ++ crlf ++ crlf)
      ++ page.
Proof.
  unfold create_error_response. cbv zeta. intros H.
  apply utf8_encode_ret in H. subst response.
  match goal with
  | |- context [str_of_int (len ?b)] => set (error_body := b)
  end.
  exists (str_of_int (len error_body)), (utf8_bytes error_body).
  rewrite <- utf8_bytes_app. rewrite <- !app_assoc. reflexivity.
Qed.

Lemma error_response_status_line (status_code : Z) (reason : str)
      (response : bytes) :
  create_error_response status_code reason = Ret response ->
  begins_with_status_line response.
Proof.
  intros H. destruct (error_response_form _ _ _ H) as (cl & page & ->).
  exists status_code, reason,
    (utf8_bytes (text "Content-Type: text/html" ++ crlf
                 ++ text "Content-Length: " ++ cl ++ crlf
                 ++ text "Connection: close" ++ crlf ++ crlf)
     ++ page).
  rewrite !utf8_bytes_app, <- !app_assoc. reflexivity.
Qed.

Lemma assemble_response_status_line (response : HTTPResponse) (out : bytes) :
  assemble_response unicode_lower response = Ret out ->
  begins_with_status_line out.
Proof.
  unfold assemble_response. cbv zeta. intros H.
  match type of H with
  | context [utf8_encode ?t] =>
      destruct (utf8_encode t) as [encoded|e] eqn:E; cbn [bind] in H;
      [|discriminate]
  end.
  injection H as <-.
  apply utf8_encode_ret in E. subst encoded.
  cbn [app]. rewrite join_cons by discriminate.
  unfold begins_with_status_line.
  match goal with
  | |- context [join crlf (?l2 :: ?ls)] =>
      exists (status response), (reason response),
        (utf8_bytes (join crlf (l2 :: ls)) ++ read response)
  end.
  rewrite !utf8_bytes_app, <- !app_assoc. reflexivity.
Qed.

(** What [make_http_request] returns: the origin's answer as it is
    assembled, or a synthetic 502 or 504 response. *)
Lemma make_http_request_kinds (method host : str) (port : Z) (path : str)
      (headers : dict) (body : bytes) (use_ssl : bool) :
  clean host ->
  let call := mk_call method host port path headers body use_ssl in
  let r := make_http_request unicode_lower http_client
                             method host port path headers body use_ssl in
  snd r = [call]
  /\ ((exists origin_response response,
          http_client call = Ret origin_response
          /\ assemble_response unicode_lower origin_response = Ret response
          /\ fst r = Ret response)
      \/ (exists status_code reason response,
             In status_code [502; 504]
             /\ create_error_response status_code reason = Ret response
             /\ fst r = Ret response)).
Proof.
  intros Hhost call r. subst r. unfold make_http_request. fold call.
  cbn [fst snd]. split; [reflexivity|].
  destruct (http_client call) as [response|e] eqn:Ec; cbn [bind].
  - destruct (assemble_response unicode_lower response) as [out|e] eqn:Ea.
    + left. exists response, out. auto.
    + right.
      unfold assemble_response in Ea. cbv zeta in Ea.
      match type of Ea with
      | context [utf8_encode ?t] =>
          destruct (utf8_encode t) as [b|e'] eqn:E; simpl in Ea;
          [discriminate|]
      end.
      injection Ea as <-.
      destruct (utf8_encode_from_raises _ _ _ E) as [Hcl Hcls].
      rewrite Hcls.
      destruct (create_error_response_ok
                  502 (text "Bad Gateway: " ++ exn_str e')) as [x Hx];
        [solve_clean|].
      exists 502, (text "Bad Gateway: " ++ exn_str e'), x.
      rewrite Hx. split; [simpl; auto|split; reflexivity].
  - right. pose proof (origin_raise_clean call e Ec) as Hcl.
    destruct (exn_cls e);
      match goal with
      | |- context [create_error_response ?c ?reason = Ret _] =>
          destruct (create_error_response_ok c reason) as [x Hx];
          [solve_clean|];
          exists c, reason, x; rewrite Hx;
          split; [simpl; auto|split; reflexivity]
      end.
Qed.

(** What the [try] block of [process_http_request] comes to. *)
Lemma process_body_kinds (request_data : bytes) :
  let r := process_body request_data in
  r = (Ret (lit "HTTP/1.1 200 Connection Established"
            ++ [x0d; x0a; x0d; x0a]), [])
  \/ (exists reason, clean reason /\ r = (create_error_response 400 reason, []))
  \/ (exists e, clean (exn_str e) /\ r = (Raise e, []))
  \/ (exists method host port path headers body use_ssl,
         clean host
         /\ r = make_http_request unicode_lower http_client
                                  method host port path headers body use_ssl).
Proof.
  cbv zeta. unfold process_http_request_body. cbv zeta.
  pose proof (clean_split _ crlf (clean_decode request_data)) as Hlines.
  destruct (split (utf8_decode_replace request_data) crlf) as [|line0 rest].
  { right; left. eexists. split; [|reflexivity]. solve_clean. }
  inversion Hlines as [|? ? Hline0 Hrest]; subst.
  pose proof (clean_strip line0 Hline0) as Hrl.
  destruct (strip line0) as [|c rl].
  { right; left. eexists. split; [|reflexivity]. solve_clean. }
  pose proof (clean_split _ [32] Hrl) as Hparts.
  destruct (split (c :: rl) [32]) as [|method [|url [|version [|x parts]]]];
    try (right; left; eexists; split; [|reflexivity]; solve_clean).
  destruct (str_eqb (upper unicode_upper method) (text "CONNECT")).
  { left. rewrite connect_response_bytes. reflexivity. }
  assert (Hurl : clean url).
  { inversion Hparts as [|? ? _ H1]; inversion H1; assumption. }
  destruct (negb (startswith url (text "http://"))
            && negb (startswith url (text "https://"))
            && startswith url (text "/")).
  { right; left. eexists. split; [|reflexivity]. solve_clean. }
  match goal with
  | |- context [urlparse ?u] =>
      assert (Hu : clean u)
        by (destruct (negb (startswith url (text "http://"))
                      && negb (startswith url (text "https://")));
            solve_clean);
      destruct (urlparse u) as [parsed|e] eqn:Eu
  end.
  2: { right; right; left. exists e. split; [|reflexivity].
       eapply urlparse_raise_clean, Eu. }
  destruct (hostname parsed) as [[|h0 host]|] eqn:Eh;
    try (right; left; eexists; split; [|reflexivity]; solve_clean).
  pose proof (hostname_clean _ _ _ Eu Eh) as Hhost.
  destruct (port parsed) as [parsed_port|e] eqn:Ep.
  2: { right; right; left. exists e. split; [|reflexivity].
       eapply port_raise_clean; [exact Eu|exact Ep]. }
  destruct (scan_headers (tl (line0 :: rest)) 1 []) as [headers body_start].
  match goal with
  | |- context [match ?b with Ret _ => _ | Raise _ => _ end] =>
      destruct b as [body|e] eqn:Eb
  end.
  - right; right; right. do 7 eexists. split; [exact Hhost|reflexivity].
  - right; right; left. exists e. split; [|reflexivity].
    destruct (0 <? body_start); [|discriminate].
    destruct (skipn (Z.to_nat body_start) (line0 :: rest)); [discriminate|].
    exact (proj1 (utf8_encode_from_raises _ _ _ Eb)).
Qed.

Lemma process_calls (request_data : bytes) :
  snd (process request_data) = snd (process_body request_data).
Proof.
  unfold process_http_request.
  destruct (process_body request_data) as [[response|e] calls];
    [reflexivity|].
  destruct (exn_cls e); reflexivity.
Qed.

(** Every payload is answered with bytes that begin with a status line:
    those of the CONNECT stub, of a synthetic error response, or of the
    origin's answer. *)
Lemma process_kinds (request_data : bytes) :
  exists response,
    fst (process request_data) = Ret response
    /\ begins_with_status_line response
    /\ (response
        = lit "HTTP/1.1 200 Connection Established" ++ [x0d; x0a; x0d; x0a]
        \/ (exists status_code reason,
               In status_code [400; 500; 502; 504]
               /\ create_error_response status_code reason = Ret response)
        \/ (exists call origin_response,
               snd (process request_data) = [call]
               /\ http_client call = Ret origin_response
               /\ assemble_response unicode_lower origin_response
                  = Ret response)).
Proof.
  rewrite process_calls. unfold process_http_request.
  destruct (process_body_kinds request_data)
    as [H|[(reason & Hc & H)|[(e & Hc & H)
                             |(m & h & p & pa & hd & b & ssl & Hc & H)]]];
    cbv zeta in H; rewrite H.
  - eexists. cbn [fst]. split; [reflexivity|]. split; [|left; reflexivity].
    exists 200, (text "Connection Established"), [x0d; x0a].
    vm_compute. reflexivity.
  - destruct (create_error_response_ok 400 reason Hc) as [r Hr].
    rewrite Hr. exists r. cbn [fst]. split; [reflexivity|].
    split; [exact (error_response_status_line _ _ _ Hr)|].
    right; left. exists 400, reason. split; [simpl; auto|exact Hr].
  - destruct (exn_cls e);
      match goal with
      | |- context [create_error_response ?c ?reason] =>
          destruct (create_error_response_ok c reason) as [r Hr];
          [solve_clean|];
          rewrite Hr; exists r; cbn [fst]; split; [reflexivity|];
          split; [exact (error_response_status_line _ _ _ Hr)|];
          right; left; exists c, reason; split; [simpl; auto|exact Hr]
      end.
  - destruct (make_http_request_kinds m h p pa hd b ssl Hc)
      as (Hsnd & Hkind).
    cbv zeta in Hsnd, Hkind.
    destruct (make_http_request unicode_lower http_client m h p pa hd b ssl)
      as [res calls].
    cbn [fst snd] in Hsnd, Hkind |- *. subst calls.
    destruct Hkind as [(origin_response & response & Ho & Ha & ->)
                      |(c & reason & response & Hin & Hr & ->)].
    + exists response. cbn [fst snd]. split; [reflexivity|].
      split; [exact (assemble_response_status_line _ _ Ha)|].
      right; right. eauto.
    + exists response. cbn [fst snd]. split; [reflexivity|].
      split; [exact (error_response_status_line _ _ _ Hr)|].
      right; left. exists c, reason. split; [|exact Hr].
      simpl in Hin |- *. intuition.
Qed.

(** A request that was put to an origin is what [make_http_request] was
    called with. *)
Lemma forwarded_call (request_data : bytes) (call : origin_call) :
  In call (snd (process request_data)) ->
  clean (call_host call)
  /\ process_body request_data
     = make_http_request unicode_lower http_client
                         (call_method call) (call_host call) (call_port call)
                         (call_path call) (call_headers call) (call_body call)
                         (call_use_ssl call).
Proof.
  rewrite process_calls.
  destruct (process_body_kinds request_data)
    as [H|[(reason & Hc & H)|[(e & Hc & H)
                             |(m & h & p & pa & hd & b & ssl & Hc & H)]]];
    cbv zeta in H; rewrite H; cbn [snd]; try contradiction.
  unfold make_http_request at 1. cbn [snd].
  intros [<-|[]]. cbn. split; [exact Hc|reflexivity].
Qed.

(** A failed exchange with the origin, by the class of the exception. *)
Lemma origin_failure_rendered (request_data : bytes) (call : origin_call)
      (e : exn) :
  In call (snd (process request_data)) ->
  http_client call = Raise e ->
  process request_data
  = (create_error_response
       (match exn_cls e with SocketTimeout => 504 | _ => 502 end)
       (match exn_cls e with
        | SocketTimeout => text "Gateway Timeout"
        | SocketGaierror =>
            text "Bad Gateway - DNS resolution failed: " ++ call_host call
        | ConnectionRefused =>
            text "Bad Gateway - Connection refused: " ++ call_host call
            ++ text ":" ++ str_of_int (call_port call)
        | SSLError => text "Bad Gateway - SSL error: " ++ exn_str e
        | _ => text "Bad Gateway: " ++ exn_str e
        end),
     [call]).
Proof.
  intros Hin He.
  destruct (forwarded_call request_data call Hin) as [Hhost Hbody].
  pose proof (origin_raise_clean call e He) as Hcl.
  unfold process_http_request. rewrite Hbody.
  destruct call as [m h p pa hd b ssl].
  cbn [call_method call_host call_port call_path call_headers call_body
       call_use_ssl] in *.
  unfold make_http_request. rewrite He. cbn [bind].
  destruct (exn_cls e); apply error_response_returned; solve_clean.
Qed.

(** An absolute target: [urlparse] finds no host name, or the [try] block
    raises. *)
Lemma refused_target (request_data : bytes) (method url version : str) :
  split (strip (hd [] (split (utf8_decode_replace request_data) crlf))) [32]
  = [method; url; version] ->
  upper unicode_upper method <> text "CONNECT" ->
  startswith url (text "/") = false ->
  let target :=
    if negb (startswith url (text "http://"))
       && negb (startswith url (text "https://"))
    then text "http://" ++ url else url in
  (forall parsed,
      urlparse target = Ret parsed ->
      hostname parsed = None \/ hostname parsed = Some [] ->
      process request_data
      = (create_error_response 400
           (text "Bad Request - Invalid URL: " ++ target), []))
  /\ (forall e,
         urlparse target = Raise e
         \/ (exists parsed h,
                urlparse target = Ret parsed
                /\ hostname parsed = Some h /\ h <> []
                /\ port parsed = Raise e) ->
         process request_data
         = (create_error_response
              (match exn_cls e with UnicodeDecodeError => 400 | _ => 500 end)
              (match exn_cls e with
               | UnicodeDecodeError => text "Bad Request - Invalid encoding"
               | _ => text "Internal Server Error: " ++ exn_str e
               end),
            [])).
Proof.
  intros Hparts Hm Hurl target.
  pose proof (first_line_clean request_data) as Hclean.
  assert (Hcu : clean url).
  { pose proof (clean_split _ [32] Hclean) as Hp. rewrite Hparts in Hp.
    inversion Hp as [|? ? _ H1]; inversion H1; assumption. }
  assert (Hct : clean target).
  { unfold target.
    destruct (negb (startswith url (text "http://"))
              && negb (startswith url (text "https://"))); solve_clean. }
  assert (Hstep :
            process_body request_data
            = match urlparse target with
              | Raise e => (Raise e, [])
              | Ret parsed_url =>
                  match hostname parsed_url with
                  | None | Some [] =>
                      (create_error_response 400
                         (text "Bad Request - Invalid URL: " ++ target), [])
                  | Some _ =>
                      match port parsed_url with
                      | Raise e => (Raise e, [])
                      | Ret _ => process_body request_data
                      end
                  end
              end).
  { unfold process_http_request_body. cbv zeta.
    destruct (split (utf8_decode_replace request_data) crlf) as [|line0 rest]
      eqn:El.
    { exfalso. revert El. apply split_from_not_nil. }
    cbn [hd] in Hparts.
    destruct (strip line0) as [|c rl] eqn:Es; [discriminate|].
    rewrite Hparts.
    destruct (str_eqb (upper unicode_upper method) (text "CONNECT")) eqn:Em.
    { apply str_eqb_eq in Em. contradiction. }
    rewrite Hurl, andb_false_r. fold target.
    destruct (urlparse target) as [parsed|e]; [|reflexivity].
    destruct (hostname parsed) as [[|h0 host]|]; try reflexivity.
    destruct (port parsed) as [parsed_port|e]; reflexivity. }
  split.
  - intros parsed Hp Hh. unfold process_http_request. rewrite Hstep, Hp.
    destruct Hh as [-> | ->];
      apply error_response_returned; solve_clean.
  - intros e [He|(parsed & h & Hp & Hh & Hne & He)];
      unfold process_http_request; rewrite Hstep.
    + rewrite He. destruct (exn_cls e); reflexivity.
    + rewrite Hp, Hh. destruct h as [|h0 h]; [contradiction|].
      rewrite He. destruct (exn_cls e); reflexivity.
Qed.

(** For a REQUEST frame that has arrived the loop writes one RESPONSE
    frame. *)
Lemma turn_answers_request (ship_socket : socket) (b3 b2 b1 b0 : byte)
      (payload more : bytes) :
  pending (inbox ship_socket)
  = [b3; b2; b1; b0; byte_of_Z MSG_REQUEST] ++ payload ++ more ->
  struct_unpack_I [b3; b2; b1; b0] = Ret (len payload) ->
  hd SendAll (outbox ship_socket) = SendAll ->
  exists response,
    fst (process payload) = Ret response
    /\ begins_with_status_line response
    /\ (len response < 2 ^ 32 ->
        exists sock',
          handle_ship_turn unicode_upper unicode_lower urlparse
                           http_client ship_socket
          = (Continue, sock', snd (process payload))
          /\ sent sock'
             = sent ship_socket ++ frame_bytes MSG_RESPONSE response).
Proof.
  intros Hp Hu Ho.
  destruct (process_kinds payload) as (response & Hresp & Hline & _).
  exists response. split; [exact Hresp|]. split; [exact Hline|]. intros Hlen.
  destruct (read_message_frame ship_socket _ _ _ _ _ _ _ Hp Hu)
    as (Hread & _ & _).
  destruct (read_message_keeps_output ship_socket) as [Hout Hsent].
  unfold handle_ship_turn.
  destruct (read_message ship_socket) as [[mt pl] sock1].
  cbn [fst snd] in Hread, Hout, Hsent. injection Hread as -> ->.
  rewrite byte_of_Z_small by (unfold MSG_REQUEST; lia).
  rewrite Z.eqb_refl. cbn [negb].
  destruct (process_http_request unicode_upper unicode_lower urlparse
                                 http_client payload) as [res calls].
  cbn [fst] in Hresp. subst res. cbn [snd].
  destruct (frame_ok MSG_RESPONSE response) as [data Hdata];
    [unfold MSG_RESPONSE; lia|exact Hlen|].
  rewrite (send_message_ok sock1 _ _ data Hdata) by (rewrite Hout; exact Ho).
  eexists. split; [reflexivity|]. cbn [sent].
  unfold frame_bytes. rewrite Hdata, Hsent. reflexivity.
Qed.

End Rendered.



(** The sample request, refused by the origin in each way. *)
Example origin_failures_by_class :
  map (fun cls =>
         fst (process_http_request
                no_case_change no_case_change urlparse_x_y
                (fun _ => Raise (mk_exn cls (text "oops")))
                post_hello_request))
      [SocketTimeout; SocketGaierror; ConnectionRefused; SSLError;
       OtherException]
  = [create_error_response 504 (text "Gateway Timeout");
     create_error_response 502 (text "Bad Gateway - DNS resolution failed: x");
     create_error_response 502 (text "Bad Gateway - Connection refused: x:80");
     create_error_response 502 (text "Bad Gateway - SSL error: oops");
     create_error_response 502 (text "Bad Gateway: oops")].
Proof. vm_compute. reflexivity. Qed.

Example timeout_response_bytes :
  exists page,
    fst (process_http_request no_case_change no_case_change urlparse_x_y
                              origin_timeout post_hello_request)
    = Ret (lit "HTTP/1.1 504 Gateway Timeout" ++ [x0d; x0a]
           ++ lit "Content-Type: text/html" ++ [x0d; x0a]
           ++ lit "Content-Length: 220" ++ [x0d; x0a]
           ++ lit "Connection: close" ++ [x0d; x0a; x0d; x0a] ++ page)
    /\ len page = 220.
Proof.
  eexists. split; [vm_compute; reflexivity|]. vm_compute. reflexivity.
Qed.
